(** * Chunking and context budgeting of the RAG tools

    A shallow embedding of [tools/chunk_splitter.py] ([ChunkSplitter]) and of
    [RAGQuery.build_rag_context] from [tools/query_rag.py], together with the
    Python primitives they call ([str.split], [str.strip], [re.split],
    [str.encode], [hashlib.sha256], [int(words * 1.3)]).

    Part I holds the definitions, Part II the properties. *)

From Stdlib Require Import String Ascii ZArith NArith List Bool Lia Arith.
From Stdlib Require Import DecimalString.
Import ListNotations.

(* ================================================================= *)
(** * Part I: the model *)
(* ================================================================= *)

(** ** Python strings *)

Module Py.

(** A Python [str] is a sequence of Unicode code points. *)
Definition codepoint := N.
Definition str := list codepoint.

Definition LF : codepoint := 10%N.
Definition SP : codepoint := 32%N.
Definition HASH : codepoint := 35%N.
Definition BACKSLASH : codepoint := 92%N.

(** [lit s] reads an ASCII literal, with the escape [\n] for a line feed, the
    way the Python sources write their literals. *)
Fixpoint unescape (s : str) : str :=
  match s with
  | c :: ((d :: s'') as s') =>
      if ((c =? BACKSLASH) && (d =? 110))%N then LF :: unescape s''
      else c :: unescape s'
  | _ => s
  end.

Definition lit (s : string) : str :=
  unescape (map N_of_ascii (list_ascii_of_string s)).

Definition str_eqb (a b : str) : bool :=
  if list_eq_dec N.eq_dec a b then true else false.

(** [Py_UNICODE_ISSPACE]: the characters [str.split()], [str.strip()] and the
    regular-expression class [\s] treat as whitespace. *)
Definition isspace (c : codepoint) : bool :=
  (((9 <=? c) && (c <=? 13)) || ((28 <=? c) && (c <=? 32))
   || (c =? 133) || (c =? 160) || (c =? 5760)
   || ((8192 <=? c) && (c <=? 8202))
   || (c =? 8232) || (c =? 8233) || (c =? 8239) || (c =? 8287)
   || (c =? 12288))%N.

Definition nonspace (c : codepoint) : bool := negb (isspace c).

(** [s.split()]: the maximal runs of non-whitespace characters; [cur] is the
    word being read, reversed. *)
Fixpoint split_from (s : str) (cur : str) : list str :=
  match s with
  | [] => match cur with [] => [] | _ => [rev cur] end
  | c :: s' =>
      if isspace c
      then match cur with
           | [] => split_from s' []
           | _ => rev cur :: split_from s' []
           end
      else split_from s' (c :: cur)
  end.

Definition split (s : str) : list str := split_from s [].

(** [s.strip()]. *)
Fixpoint lstrip (s : str) : str :=
  match s with
  | c :: s' => if isspace c then lstrip s' else s
  | [] => []
  end.

Definition rstrip (s : str) : str := rev (lstrip (rev s)).
Definition strip (s : str) : str := rstrip (lstrip s).

(** Truth value of a string: non-empty. *)
Definition truthy (s : str) : bool :=
  match s with [] => false | _ => true end.

(** [re.split(r'\n\n+', s)].  The pattern matches a maximal run of two or
    more line feeds; the pieces between the matches are returned, empty
    pieces included.  [cur] is the piece being read (reversed), [in_sep]
    tells that the scan is inside a match. *)
Fixpoint re_split_blank_from (s : str) (cur : str) (in_sep : bool) : list str :=
  match s with
  | [] => [rev cur]
  | c :: s' =>
      if (c =? LF)%N then
        if in_sep then re_split_blank_from s' cur true
        else match s' with
             | c2 :: _ =>
                 if (c2 =? LF)%N
                 then rev cur :: re_split_blank_from s' [] true
                 else re_split_blank_from s' (c :: cur) false
             | [] => re_split_blank_from s' (c :: cur) false
             end
      else re_split_blank_from s' (c :: cur) false
  end.

Definition re_split_blank (s : str) : list str := re_split_blank_from s [] false.

(** The header pattern [^(#{2,3})\s+(.+)$] with [re.MULTILINE], matched by
    backtracking as [re] does.

    [(.+)$]: [.] is any character but a line feed and [.+] is greedy, so it
    runs to the end of the line, where [$] holds; it needs one character.
    The result is the group and the number of characters consumed. *)
Fixpoint line_prefix (s : str) : str :=
  match s with
  | c :: s' => if (c =? LF)%N then [] else c :: line_prefix s'
  | [] => []
  end.

Definition dot_plus_eol (s : str) : option (str * nat) :=
  match line_prefix s with
  | [] => None
  | g => Some (g, List.length g)
  end.

(** [\s+(.+)$]: [\s+] is greedy; when the rest fails after the longest run
    of whitespace, the run is shortened one character at a time. *)
Fixpoint ws_plus_heading (s : str) : option (str * nat) :=
  match s with
  | c :: s' =>
      if isspace c then
        match ws_plus_heading s' with
        | Some (g, n) => Some (g, S n)
        | None =>
            match dot_plus_eol s' with
            | Some (g, n) => Some (g, S n)
            | None => None
            end
        end
      else None
  | [] => None
  end.

(** [(#{2,3})\s+(.+)$] at a position where [^] holds: three marks are tried
    before two.  The result is group 1, group 2 and the length of the
    match. *)
Definition match_header (s : str) : option (str * str * nat) :=
  match s with
  | h1 :: h2 :: s2 =>
      if ((h1 =? HASH) && (h2 =? HASH))%N then
        let two :=
          match ws_plus_heading s2 with
          | Some (g, n) => Some ([HASH; HASH], g, (2 + n)%nat)
          | None => None
          end in
        match s2 with
        | h3 :: s3 =>
            if (h3 =? HASH)%N then
              match ws_plus_heading s3 with
              | Some (g, n) => Some ([HASH; HASH; HASH], g, (3 + n)%nat)
              | None => two
              end
            else two
        | [] => two
        end
      else None
  | _ => None
  end.

(** [header_pattern.split(s)]: the text before each match, then the two
    groups of the match, and at the end the text after the last match.
    [bol] tells that [^] holds at the current position, [skip] counts the
    characters of the current match still to pass, [cur] is the piece being
    read (reversed). *)
Fixpoint header_split_from (s : str) (bol : bool) (skip : nat) (cur : str)
  : list str :=
  match s with
  | [] => [rev cur]
  | c :: s' =>
      match skip with
      | S k => header_split_from s' false k cur
      | O =>
          match (if bol then match_header s else None) with
          | Some (level, heading, n) =>
              rev cur :: level :: heading
                :: header_split_from s' false (Nat.pred n) []
          | None => header_split_from s' (c =? LF)%N 0 (c :: cur)
          end
      end
  end.

Definition header_split (s : str) : list str := header_split_from s true 0 [].

(** [s.encode('utf-8')]: bytes as numbers below 256.  A surrogate code point
    cannot be encoded: Python raises [UnicodeEncodeError], here [None]. (A
    Python string holds no code point above [0x10FFFF].) *)
Definition utf8_char (c : codepoint) : option (list N) :=
  (if c <? 128 then Some [c]
   else if c <? 2048 then
     Some [192 + N.shiftr c 6; 128 + N.land c 63]
   else if c <? 65536 then
     if (55296 <=? c) && (c <=? 57343) then None
     else Some [224 + N.shiftr c 12; 128 + N.land (N.shiftr c 6) 63;
                128 + N.land c 63]
   else if c <? 1114112 then
     Some [240 + N.shiftr c 18; 128 + N.land (N.shiftr c 12) 63;
           128 + N.land (N.shiftr c 6) 63; 128 + N.land c 63]
   else None)%N.

Fixpoint encode_utf8 (s : str) : option (list N) :=
  match s with
  | [] => Some []
  | c :: s' =>
      match utf8_char c, encode_utf8 s' with
      | Some b, Some bs => Some (b ++ bs)
      | _, _ => None
      end
  end.

(** [int * 1.3] and [int(float)] in IEEE binary64, on integers.

    A positive double is [m * 2^e] with [m < 2^53]. [round53 x] is the
    nearest integer to [x] of at most 53 significant bits, ties to the even
    significand: the rounding of binary64 on a value given in units of the
    result's last place. The exponent range is not modelled (the conversion
    of an integer above [1.8e308] raises [OverflowError] in Python; no string
    holds that many words). *)
Definition round53 (x : Z) : Z :=
  (let b := Z.log2 x + 1 in
   if b <=? 53 then x
   else
     let s := b - 53 in
     let q := Z.shiftr x s in
     let r := x - Z.shiftl q s in
     let h := Z.shiftl 1 (s - 1) in
     let m := if r <? h then q
              else if h <? r then q + 1
              else if Z.even q then q else q + 1 in
     Z.shiftl m s)%Z.

(** The double nearest to 1.3 is [mant_1_3 * 2^-52]. *)
Definition mant_1_3 : Z := 5854679515581645%Z.

(** [float(n)] for a non-negative [int]. *)
Definition float_of_int (n : Z) : Z := round53 n.

(** [f * 1.3] for a double [f] of integer value, in units of [2^-52]. *)
Definition mul_1_3 (f : Z) : Z := round53 (f * mant_1_3)%Z.

(** [int(x)] for a double given in units of [2^-52]: truncation. *)
Definition int_of_float52 (x : Z) : Z := Z.quot x (2 ^ 52)%Z.

End Py.

(** ** SHA-256 (FIPS 180-4), as [hashlib.sha256(data).hexdigest()] *)

Module SHA256.

Local Open Scope N_scope.

Definition w32 (x : N) : N := x mod 4294967296.
Definition add32 (x y : N) : N := w32 (x + y).
Definition rotr (n x : N) : N := N.lor (N.shiftr x n) (w32 (N.shiftl x (32 - n))).
Definition not32 (x : N) : N := N.lxor x 4294967295.

Definition Ch (x y z : N) : N := N.lxor (N.land x y) (N.land (not32 x) z).
Definition Maj (x y z : N) : N :=
  N.lxor (N.lxor (N.land x y) (N.land x z)) (N.land y z).
Definition Sigma0 (x : N) : N := N.lxor (N.lxor (rotr 2 x) (rotr 13 x)) (rotr 22 x).
Definition Sigma1 (x : N) : N := N.lxor (N.lxor (rotr 6 x) (rotr 11 x)) (rotr 25 x).
Definition sigma0 (x : N) : N := N.lxor (N.lxor (rotr 7 x) (rotr 18 x)) (N.shiftr x 3).
Definition sigma1 (x : N) : N := N.lxor (N.lxor (rotr 17 x) (rotr 19 x)) (N.shiftr x 10).

(** The round constants are the first 32 bits of the fractional parts of
    the cube roots of the first 64 primes, the initial hash value those of
    the square roots of the first 8. *)
Definition primes : list N :=
  [2; 3; 5; 7; 11; 13; 17; 19; 23; 29; 31; 37; 41; 43; 47; 53; 59; 61; 67;
   71; 73; 79; 83; 89; 97; 101; 103; 107; 109; 113; 127; 131; 137; 139; 149;
   151; 157; 163; 167; 173; 179; 181; 191; 193; 197; 199; 211; 223; 227; 229;
   233; 239; 241; 251; 257; 263; 269; 271; 277; 281; 283; 293; 307; 311].

(** The integer cube root of a number below [2^105], bit by bit. *)
Definition cbrt (n : N) : N :=
  fold_left (fun r i => let r' := r + N.shiftl 1 (N.of_nat i) in
                        if r' * r' * r' <=? n then r' else r)
            (rev (seq 0 35)) 0.

Definition K : list N :=
  Eval vm_compute in map (fun p => w32 (cbrt (N.shiftl p 96))) primes.

Definition H0 : list N :=
  Eval vm_compute in
    map (fun p => w32 (N.sqrt (N.shiftl p 64))) (firstn 8 primes).

(** Padding: the byte [0x80], zero bytes up to 56 modulo 64, and the length
    of the message in bits as eight big-endian bytes. *)
Definition be_bytes (n : nat) (x : N) : list N :=
  map (fun i => N.land (N.shiftr x (8 * N.of_nat i)) 255) (rev (seq 0 n)).

Definition pad (msg : list N) : list N :=
  let len := N.of_nat (List.length msg) in
  let zeros := N.to_nat ((119 - len mod 64) mod 64) in
  msg ++ [128] ++ repeat 0 zeros ++ be_bytes 8 (8 * len).

(** The words of one 64-byte block, big-endian. *)
Fixpoint words_of (n : nat) (bs : list N) : list N :=
  match n, bs with
  | S n', b0 :: b1 :: b2 :: b3 :: bs' =>
      (N.shiftl b0 24 + N.shiftl b1 16 + N.shiftl b2 8 + b3) :: words_of n' bs'
  | _, _ => []
  end.

(** The message schedule, newest word first: [W_t] for [t >= 16] is
    [sigma1 W_(t-2) + W_(t-7) + sigma0 W_(t-15) + W_(t-16)]. *)
Fixpoint schedule (n : nat) (ws : list N) : list N :=
  match n with
  | O => ws
  | S n' =>
      let w := add32 (add32 (sigma1 (nth 1 ws 0)) (nth 6 ws 0))
                     (add32 (sigma0 (nth 14 ws 0)) (nth 15 ws 0)) in
      schedule n' (w :: ws)
  end.

Definition round (st : list N) (kw : N * N) : list N :=
  match st with
  | [a; b; c; d; e; f; g; h] =>
      let t1 := add32 (add32 (add32 h (Sigma1 e)) (add32 (Ch e f g) (fst kw))) (snd kw) in
      let t2 := add32 (Sigma0 a) (Maj a b c) in
      [add32 t1 t2; a; b; c; add32 d t1; e; f; g]
  | _ => st
  end.

Definition compress (h : list N) (block : list N) : list N :=
  let ws := rev (schedule 48 (rev (words_of 16 block))) in
  let st := fold_left round (combine K ws) h in
  map (fun p => add32 (fst p) (snd p)) (combine h st).

Fixpoint blocks (n : nat) (bs : list N) (h : list N) : list N :=
  match n with
  | O => h
  | S n' => blocks n' (skipn 64 bs) (compress h (firstn 64 bs))
  end.

Definition digest (msg : list N) : list N :=
  let p := pad msg in
  flat_map (be_bytes 4) (blocks (List.length p / 64) p H0).

Definition hex_digit (d : N) : Py.codepoint :=
  if d <? 10 then 48 + d else 87 + d.

Definition hexdigest (msg : list N) : Py.str :=
  flat_map (fun b => [hex_digit (N.shiftr b 4); hex_digit (N.land b 15)])
           (digest msg).

End SHA256.

(** ** [tools/chunk_splitter.py] *)

Module chunk_splitter.

Import Py.

(** *** Exceptions

    The splitters raise nothing of their own; the one exception that can
    leave them is the [UnicodeEncodeError] of [text.encode('utf-8')] in
    [compute_hash]. *)
Inductive exn : Type := UnicodeEncodeError.

Inductive result (A : Type) : Type :=
| Ok (a : A)
| Raise (e : exn).
Arguments Ok {A} a.
Arguments Raise {A} e.

Definition bind {A B : Type} (m : result A) (k : A -> result B) : result B :=
  match m with
  | Ok a => k a
  | Raise e => Raise e
  end.

Notation "x <- m ;; k" := (bind m (fun x => k))
  (at level 61, m at next level, right associativity).
Notation "' p <- m ;; k" := (bind m (fun x => let p := x in k))
  (at level 61, p pattern, m at next level, right associativity).

Fixpoint foldM {A S : Type} (f : S -> A -> result S) (l : list A) (s : S)
  : result S :=
  match l with
  | [] => Ok s
  | a :: l' => s' <- f s a ;; foldM f l' s'
  end.

(** *** Data *)

(** The values of a [metadata] dictionary, and the dictionary itself with its
    keys in insertion order. *)
Inductive MetaValue : Type :=
| MInt (n : Z)
| MStr (s : str).

Definition Metadata := list (string * MetaValue).

Fixpoint get (k : string) (d : Metadata) : option MetaValue :=
  match d with
  | [] => None
  | (k', v) :: d' => if String.eqb k k' then Some v else get k d'
  end.

Record Chunk : Type := mkChunk {
  heading : option str;
  text : str;
  ord : nat;
  kind : str;
  token_est : Z;
  hash : option str;
  metadata : option Metadata
}.

(** The splitter's configuration, as [__init__] stores it. *)
Record ChunkSplitter : Type := mkChunkSplitter {
  max_chunk_tokens : Z;
  min_chunk_tokens : Z;
  overlap_tokens : Z
}.

Definition init (max_chunk_tokens min_chunk_tokens overlap_tokens : Z)
  : result ChunkSplitter :=
  Ok (mkChunkSplitter max_chunk_tokens min_chunk_tokens overlap_tokens).

(** [ChunkSplitter()]: the default arguments of [__init__]. *)
Definition default : ChunkSplitter := mkChunkSplitter 500 50 50.

(** A row of the [messages] table: the columns the splitter reads, [content]
    and [role] as text and [step] as an integer. *)
Record Message : Type := mkMessage {
  content : str;
  role : str;
  step : Z
}.

(** *** [estimate_tokens] and [compute_hash] *)

Definition estimate_tokens (text : str) : Z :=
  let words := Z.of_nat (List.length (split text)) in
  int_of_float52 (mul_1_3 (float_of_int words)).

Definition compute_hash (text : str) : result str :=
  match encode_utf8 text with
  | Some bytes => Ok (SHA256.hexdigest bytes)
  | None => Raise UnicodeEncodeError
  end.

(** *** The paragraph loop

    [split_markdown] (lines 170-201) and [split_plaintext] (lines 236-267)
    run the same loop over the paragraphs; they differ in the heading and
    kind of the chunks and in the buffer they start from. *)

Record Buffer : Type := mkBuffer {
  chunks : list Chunk;
  current_chunk : str;
  current_tokens : Z;
  ord_counter : nat
}.

(** "Flush": the buffer becomes a chunk when it is not blank. *)
Definition flush (heading : option str) (kind : str)
  (chunks : list Chunk) (ord_counter : nat) (current_chunk : str)
  : result (list Chunk * nat) :=
  if truthy (strip current_chunk) then
    h <- compute_hash current_chunk ;;
    Ok (chunks ++ [mkChunk heading (strip current_chunk) ord_counter kind
                     (estimate_tokens current_chunk) (Some h) None],
        S ord_counter)
  else Ok (chunks, ord_counter).

Definition paragraph_step (self : ChunkSplitter) (heading : option str)
  (kind : str) (b : Buffer) (para : str) : result Buffer :=
  let para_tokens := estimate_tokens para in
  if (current_tokens b + para_tokens >? max_chunk_tokens self)%Z then
    ' (chunks', ord') <- flush heading kind (chunks b) (ord_counter b)
                           (current_chunk b) ;;
    Ok (mkBuffer chunks' (para ++ lit "\n\n") para_tokens ord')
  else
    Ok (mkBuffer (chunks b) (current_chunk b ++ para ++ lit "\n\n")
          (current_tokens b + para_tokens)%Z (ord_counter b)).

Definition paragraph_loop (self : ChunkSplitter) (heading : option str)
  (kind : str) (paragraphs : list str) (b : Buffer)
  : result (list Chunk * nat) :=
  b' <- foldM (paragraph_step self heading kind) paragraphs b ;;
  flush heading kind (chunks b') (ord_counter b') (current_chunk b').

(** *** [split_plaintext] *)

Definition split_plaintext (self : ChunkSplitter) (text : str) (kind : str)
  : result (list Chunk) :=
  let paragraphs := re_split_blank text in
  ' (chunks, _) <- paragraph_loop self None kind paragraphs
                     (mkBuffer [] [] 0%Z 0) ;;
  Ok chunks.

(** *** [split_markdown] *)

(** One header with its content: the body of the [else] branch of the
    [while] loop. *)
Definition markdown_section (self : ChunkSplitter)
  (chunks : list Chunk) (ord_counter : nat) (level heading raw : str)
  : result (list Chunk * nat) :=
  let content := strip raw in
  let full_text := level ++ lit " " ++ heading ++ lit "\n\n" ++ content in
  let token_est := estimate_tokens full_text in
  if (token_est >? max_chunk_tokens self)%Z then
    let paragraphs := re_split_blank content in
    let current_chunk_text := level ++ lit " " ++ heading ++ lit "\n\n" in
    let current_tokens := estimate_tokens current_chunk_text in
    paragraph_loop self (Some heading) (lit "doc") paragraphs
      (mkBuffer chunks current_chunk_text current_tokens ord_counter)
  else
    h <- compute_hash full_text ;;
    Ok (chunks ++ [mkChunk (Some heading) full_text ord_counter (lit "doc")
                     token_est (Some h) None],
        S ord_counter).

(** The [while] loop from [i = 1] on: three entries of [sections] at a time;
    fewer than three left are passed over. *)
Fixpoint markdown_sections (self : ChunkSplitter) (sections : list str)
  (chunks : list Chunk) (ord_counter : nat) : result (list Chunk * nat) :=
  match sections with
  | level :: heading :: raw :: rest =>
      ' (chunks', ord') <- markdown_section self chunks ord_counter
                             level heading raw ;;
      markdown_sections self rest chunks' ord'
  | _ => Ok (chunks, ord_counter)
  end.

Definition split_markdown (self : ChunkSplitter) (markdown : str)
  : result (list Chunk) :=
  match header_split markdown with
  | [] => Ok []  (* [re.split] returns at least one entry *)
  | pre :: rest =>
      let text := strip pre in
      ' (chunks, ord_counter) <-
          (if truthy text then
             h <- compute_hash text ;;
             Ok ([mkChunk None text 0 (lit "doc") (estimate_tokens text)
                    (Some h) None], 1)
           else Ok ([], 0)) ;;
      ' (chunks', _) <- markdown_sections self rest chunks ord_counter ;;
      Ok chunks'
  end.

(** *** [split_session_messages]

    The loop over the rows of the session (lines 320-363); the rows come
    from the database in [step] order. *)

Definition str_of_int (n : Z) : str :=
  map N_of_ascii (list_ascii_of_string (NilZero.string_of_int (Z.to_int n))).

Definition message_metadata (session_id : Z) (m : Message) : Metadata :=
  [ ("session_id"%string, MInt session_id);
    ("message_step"%string, MInt (step m));
    ("message_role"%string, MStr (role m)) ].

(** [for i, chunk in enumerate(sub_chunks)], from index [i] on. *)
Fixpoint renumber (session_id : Z) (m : Message) (sub_chunks : list Chunk)
  (i : nat) (chunks : list Chunk) (ord_counter : nat) : list Chunk * nat :=
  match sub_chunks with
  | [] => (chunks, ord_counter)
  | chunk :: rest =>
      let chunk' :=
        mkChunk (heading chunk) (text chunk) ord_counter (kind chunk)
          (token_est chunk) (hash chunk)
          (Some (message_metadata session_id m
                   ++ [("sub_chunk"%string, MInt (Z.of_nat i))])) in
      renumber session_id m rest (S i) (chunks ++ [chunk']) (S ord_counter)
  end.

Definition message_step (self : ChunkSplitter) (session_id : Z)
  (st : list Chunk * nat) (msg : Message) : result (list Chunk * nat) :=
  let '(chunks, ord_counter) := st in
  let kind := if str_eqb (role msg) (lit "assistant")
              then lit "ai" else lit "note" in
  let token_est := estimate_tokens (content msg) in
  if (token_est >? max_chunk_tokens self)%Z then
    sub_chunks <- split_plaintext self (content msg) kind ;;
    Ok (renumber session_id msg sub_chunks 0 chunks ord_counter)
  else
    h <- compute_hash (content msg) ;;
    Ok (chunks ++
          [mkChunk
             (Some (lit "Message " ++ str_of_int (step msg) ++ lit " ("
                      ++ role msg ++ lit ")"))
             (content msg) ord_counter kind token_est (Some h)
             (Some (message_metadata session_id msg))],
        S ord_counter).

Definition split_session_messages (self : ChunkSplitter) (session_id : Z)
  (messages : list Message) : result (list Chunk) :=
  ' (chunks, _) <- foldM (message_step self session_id) messages ([], 0) ;;
  Ok chunks.

End chunk_splitter.

(** ** [RAGQuery.build_rag_context] of [tools/query_rag.py] *)

Module query_rag.

Import Py.

(** A row of [fts_search]: the columns [build_rag_context] reads. [heading],
    [token_est], [module] and [source] may be [NULL]. *)
Record SearchResult : Type := mkSearchResult {
  chunk_id : Z;
  heading : option str;
  text : str;
  token_est : option Z;
  doc_title : str;
  module : option str;
  source : option str
}.

(** An entry of the list of sources. *)
Record Source : Type := mkSource {
  src_chunk_id : Z;
  src_doc_title : str;
  src_module : option str;
  src_heading : option str;
  src_source : option str
}.

(** [result['token_est'] or 0] *)
Definition chunk_tokens_of (result : SearchResult) : Z :=
  match token_est result with
  | Some n => n
  | None => 0%Z
  end.

(** [result['heading'] or "(no heading)"] *)
Definition heading_of (result : SearchResult) : str :=
  match heading result with
  | Some h => if truthy h then h else lit "(no heading)"
  | None => lit "(no heading)"
  end.

Definition format_chunk (result : SearchResult) : str :=
  lit "## " ++ heading_of result ++ lit "\n\n" ++ text result ++ lit "\n\n".

Definition source_of (result : SearchResult) : Source :=
  mkSource (chunk_id result) (doc_title result) (module result)
    (heading result) (source result).

(** The [for] loop with its [break]. *)
Fixpoint accumulate (results : list SearchResult) (max_tokens : Z)
  (context_parts : list str) (total_tokens : Z) (sources : list Source)
  : list str * list Source :=
  match results with
  | [] => (context_parts, sources)
  | result :: rest =>
      let chunk_tokens := chunk_tokens_of result in
      if (total_tokens + chunk_tokens >? max_tokens)%Z
      then (context_parts, sources)
      else accumulate rest max_tokens
             (context_parts ++ [format_chunk result])
             (total_tokens + chunk_tokens)%Z
             (sources ++ [source_of result])
  end.

(** [results] is what [fts_search] returned for the query. *)
Definition build_rag_context (results : list SearchResult) (max_tokens : Z)
  : str * list Source :=
  let '(context_parts, sources) := accumulate results max_tokens [] 0%Z [] in
  (List.concat context_parts, sources).

End query_rag.

(** ** Vocabulary of the properties *)

Module Spec.

Import Py chunk_splitter.

(** A string [encode('utf-8')] accepts: no surrogate code point. *)
Definition scalar (c : codepoint) : Prop := utf8_char c <> None.
Definition encodable (s : str) : Prop := Forall scalar s.

Definition scalarb (c : codepoint) : bool :=
  match utf8_char c with Some _ => true | None => false end.

(** The call [r] returns a value with [P]; it does return when [valid] holds
    (the texts it hashes can be encoded). *)
Definition returns {A : Type} (valid : Prop) (r : result A) (P : A -> Prop)
  : Prop :=
  (valid -> exists a, r = Ok a) /\ (forall a, r = Ok a -> P a).

(** The contents of all the messages can be encoded. *)
Definition encodable_messages (messages : list Message) : Prop :=
  Forall (fun m => encodable (content m)) messages.

(** A string with a character that is not whitespace. *)
Definition nonblank (s : str) : Prop := strip s <> [].

(** The [ord] fields are 0, 1, ..., N-1 in list order. *)
Definition dense (chunks : list Chunk) : Prop :=
  map ord chunks = seq 0 (List.length chunks).

(** A chunk as a flush of the paragraph loop makes it from some buffer. *)
Definition from_buffer (hd : option str) (k : str) (c : Chunk) : Prop :=
  exists buf h,
    nonblank buf /\ compute_hash buf = Ok h /\
    heading c = hd /\ text c = strip buf /\ kind c = k /\
    token_est c = estimate_tokens buf /\ hash c = Some h /\
    metadata c = None.

(** [out] is numbered [n], [n + 1], ... in list order. *)
Definition numbered (n : nat) (out : list Chunk) : Prop :=
  map ord out = seq n (List.length out).

(** Group 1 of the header pattern: two or three marks. *)
Definition is_level (level : str) : Prop :=
  level = [HASH; HASH] \/ level = [HASH; HASH; HASH].

(** The list [header_pattern.split] returns after its first entry: level,
    heading and content, three by three. *)
Inductive triples : list str -> Prop :=
| triples_nil : triples []
| triples_cons (level hd raw : str) (rest : list str) :
    is_level level -> hd <> [] -> triples rest ->
    triples (level :: hd :: raw :: rest).

(** The buffer the paragraph loop of a section starts from. *)
Definition section_prefix (level hd : str) : str :=
  level ++ lit " " ++ hd ++ lit "\n\n".

(** A string of whitespace only. *)
Definition blank (s : str) : Prop := forallb isspace s = true.

(** A buffer with content leaves a chunk, now or later. *)
Definition has_content (b : Buffer) : Prop :=
  chunks b <> [] \/ nonblank (current_chunk b).

(** The text of a section that fits the budget. *)
Definition section_text (level hd raw : str) : str :=
  level ++ lit " " ++ hd ++ lit "\n\n" ++ strip raw.

(** A chunk of a section that fits the budget. *)
Definition whole_section (self : ChunkSplitter) (level hd raw : str)
  (c : Chunk) : Prop :=
  (estimate_tokens (section_text level hd raw) <= max_chunk_tokens self)%Z /\
  heading c = Some hd /\ text c = section_text level hd raw /\
  kind c = lit "doc" /\
  token_est c = estimate_tokens (section_text level hd raw) /\
  compute_hash (section_text level hd raw) = Ok (match hash c with Some h => h | None => [] end) /\
  hash c <> None /\ metadata c = None.

(** A chunk of a section: of one that fits, or of the paragraph loop. *)
Definition section_chunk (self : ChunkSplitter) (level hd raw : str)
  (c : Chunk) : Prop :=
  from_buffer (Some hd) (lit "doc") c \/ whole_section self level hd raw c.

(** What the loop over the sub-chunks of message [m] makes of the sub-chunk
    [s] at index [i], numbered [n]. *)
Definition sub_chunk_of (session_id : Z) (m : Message) (i n : nat)
  (s : Chunk) : Chunk :=
  mkChunk (heading s) (text s) n (kind s) (token_est s) (hash s)
    (Some (message_metadata session_id m
             ++ [("sub_chunk"%string, MInt (Z.of_nat i))])).

Fixpoint sub_chunks_of (session_id : Z) (m : Message) (subs : list Chunk)
  (i n : nat) : list Chunk :=
  match subs with
  | [] => []
  | s :: rest =>
      sub_chunk_of session_id m i n s
        :: sub_chunks_of session_id m rest (S i) (S n)
  end.

(** The kind of the chunks of a message. *)
Definition kind_of (m : Message) : str :=
  if str_eqb (role m) (lit "assistant") then lit "ai" else lit "note".

(** The chunk of a message that fits the budget, numbered [n]. *)
Definition message_chunk (session_id : Z) (m : Message) (n : nat) (h : str)
  : Chunk :=
  mkChunk
    (Some (lit "Message " ++ str_of_int (step m) ++ lit " ("
             ++ role m ++ lit ")"))
    (content m) n (kind_of m) (estimate_tokens (content m)) (Some h)
    (Some (message_metadata session_id m)).

(** The chunks message [m] adds when the counter stands at [n]. *)
Definition chunks_of_message (self : ChunkSplitter) (session_id : Z)
  (m : Message) (n : nat) (out : list Chunk) : Prop :=
  if (estimate_tokens (content m) >? max_chunk_tokens self)%Z then
    exists subs,
      split_plaintext self (content m) (kind_of m) = Ok subs /\
      out = sub_chunks_of session_id m subs 0 n
  else
    exists h,
      compute_hash (content m) = Ok h /\
      out = [message_chunk session_id m n h].

(** The value of [metadata['sub_chunk']], when the key is there. *)
Definition sub_chunk (c : Chunk) : option MetaValue :=
  match metadata c with
  | Some d => get "sub_chunk" d
  | None => None
  end.

(** A buffer of the paragraph loop ends with the blank line that closes its
    last paragraph. *)
Definition closed (buf : str) : Prop := exists s, buf = s ++ lit "\n\n".

(** The hash the chunk carries is the digest of a closed buffer, its text
    is the buffer trimmed. *)
Definition hashed_untrimmed (c : Chunk) : Prop :=
  exists buf h,
    closed buf /\ compute_hash buf = Ok h /\ hash c = Some h /\
    text c = strip buf /\ buf <> text c.

(** In the paragraph loop the chunks so far carry the digest of a closed
    buffer, and the buffer is empty or closed. *)
Definition hash_inv (cs : list Chunk) (cur : str) : Prop :=
  Forall hashed_untrimmed cs /\ (cur = [] \/ closed cur).

(** [n] paragraphs of one word. *)
Definition one_word_paragraphs (n : nat) : str :=
  concat (repeat (lit "a\n\n") n).

(** 166 paragraphs of three words. *)
Definition short_paragraphs : str := concat (repeat (lit "x y z\n\n") 166).

(** The paragraphs as the loop appends them to its buffer: each followed by
    a blank line. *)
Definition appended (ps : list str) : str :=
  concat (map (fun p => p ++ lit "\n\n") ps).

(** The sum of the estimates of the paragraphs. *)
Definition paragraph_tokens (ps : list str) : Z :=
  fold_right Z.add 0%Z (map estimate_tokens ps).

End Spec.

(** ** Vocabulary of the context builder *)

Module QuerySpec.

Import Py query_rag.

(** The sum of the token estimates of the candidates, [NULL] as 0. *)
Definition tokens (results : list SearchResult) : Z :=
  fold_right (fun r acc => (chunk_tokens_of r + acc)%Z) 0%Z results.

(** The context and the sources of the first [k] candidates. *)
Definition context_of (k : nat) (results : list SearchResult)
  : str * list Source :=
  (concat (map format_chunk (firstn k results)),
   map source_of (firstn k results)).

(** A row of the document "Guide" of module "SQL", for the examples. *)
Definition candidate (id : Z) (hd : option str) (body : str) (est : option Z)
  : SearchResult :=
  mkSearchResult id hd body est (lit "Guide") (Some (lit "SQL")) None.

End QuerySpec.

(** ** More of the string methods *)

Module PyLib.

Import Py.

(** [sep.join(l)]. *)
Fixpoint join (sep : str) (l : list str) : str :=
  match l with
  | [] => []
  | [a] => a
  | a :: l' => a ++ sep ++ join sep l'
  end.

(** [s.startswith(prefix)]. *)
Fixpoint startswith (s prefix : str) : bool :=
  match prefix, s with
  | [], _ => true
  | p :: prefix', c :: s' => (c =? p)%N && startswith s' prefix'
  | _ :: _, [] => false
  end.

(** [x in l] for a tuple or a set of strings. *)
Definition str_in (x : str) (l : list str) : bool := existsb (str_eqb x) l.

End PyLib.

(** ** [json.dumps]

    The encoder with its defaults ([ensure_ascii=True], the separators
    [", "] and [": "]), on the values the metadata hold: integers and
    strings in a dictionary with string keys. *)

Module json.

Import Py chunk_splitter.

Local Open Scope N_scope.

Definition QUOTE : codepoint := 34.

(** [format(n, '04x')] for [n < 0x10000]. *)
Definition hex4 (n : N) : str :=
  map SHA256.hex_digit
    [N.shiftr n 12 mod 16; N.shiftr n 8 mod 16; N.shiftr n 4 mod 16; n mod 16].

Definition u_escape (n : N) : str := BACKSLASH :: 117 :: hex4 n.

(** The replacement of one character: [ESCAPE_DCT], the characters from the
    space to the tilde as they are, [\uXXXX] for the rest, as a surrogate
    pair above the basic plane. *)
Definition escape (c : codepoint) : str :=
  if c =? QUOTE then [BACKSLASH; QUOTE]
  else if c =? BACKSLASH then [BACKSLASH; BACKSLASH]
  else if c =? 8 then [BACKSLASH; 98]
  else if c =? 12 then [BACKSLASH; 102]
  else if c =? 10 then [BACKSLASH; 110]
  else if c =? 13 then [BACKSLASH; 114]
  else if c =? 9 then [BACKSLASH; 116]
  else if (32 <=? c) && (c <=? 126) then [c]
  else if c <? 65536 then u_escape c
  else
    let n := c - 65536 in
    u_escape (N.lor 55296 (N.land (N.shiftr n 10) 1023))
      ++ u_escape (N.lor 56320 (N.land n 1023)).

Definition encode_basestring_ascii (s : str) : str :=
  QUOTE :: flat_map escape s ++ [QUOTE].

Definition dumps_value (v : MetaValue) : str :=
  match v with
  | MInt n => str_of_int n
  | MStr s => encode_basestring_ascii s
  end.

Definition dumps_item (kv : string * MetaValue) : str :=
  encode_basestring_ascii (lit (fst kv)) ++ lit ": " ++ dumps_value (snd kv).

(** [json.dumps(d)] for a dictionary [d]. *)
Definition dumps (d : Metadata) : str :=
  lit "{" ++ PyLib.join (lit ", ") (map dumps_item d) ++ lit "}".

End json.

(** ** Rows of the [chunks] table

    [Chunk.to_dict] and [import_chunks_to_db] of chunk_splitter.py, and
    [DocImporter.import_chunks] of import_docs.py, which takes the
    dictionaries [to_dict] makes. *)

Module chunk_rows.

Import Py chunk_splitter.

(** The values of a chunk dictionary and of the parameters of a statement. *)
Inductive value : Type :=
| VNone
| VInt (n : Z)
| VStr (s : str)
| VDict (d : Metadata).

(** A dictionary with its keys in insertion order. *)
Definition dict := list (string * value).

Fixpoint lookup (k : string) (d : dict) : option value :=
  match d with
  | [] => None
  | (k', v) :: d' => if String.eqb k k' then Some v else lookup k d'
  end.

(** [d[k] = v]: the value is replaced where the key is, a new key comes
    last. *)
Fixpoint setitem (k : string) (v : value) (d : dict) : dict :=
  match d with
  | [] => [(k, v)]
  | (k', v') :: d' =>
      if String.eqb k k' then (k, v) :: d' else (k', v') :: setitem k v d'
  end.

(** [d.get(k, default)]. *)
Definition get_or (k : string) (default : value) (d : dict) : value :=
  match lookup k d with Some v => v | None => default end.

(** Truth value. *)
Definition truth (v : value) : bool :=
  match v with
  | VNone => false
  | VInt n => negb (n =? 0)%Z
  | VStr s => truthy s
  | VDict [] => false
  | VDict (_ :: _) => true
  end.

Definition of_option (o : option str) : value :=
  match o with Some s => VStr s | None => VNone end.

(** [json.dumps(v)]. *)
Definition dumps_any (v : value) : str :=
  match v with
  | VNone => lit "null"
  | VInt n => str_of_int n
  | VStr s => json.encode_basestring_ascii s
  | VDict d => json.dumps d
  end.

(** [dataclasses.asdict]: the fields in their order. *)
Definition asdict (c : Chunk) : dict :=
  [ ("heading"%string, of_option (heading c));
    ("text"%string, VStr (text c));
    ("ord"%string, VInt (Z.of_nat (ord c)));
    ("kind"%string, VStr (kind c));
    ("token_est"%string, VInt (token_est c));
    ("hash"%string, of_option (hash c));
    ("metadata"%string,
      match metadata c with Some d => VDict d | None => VNone end) ].

Definition to_dict (c : Chunk) : dict :=
  let d := asdict c in
  match metadata c with
  | Some (kv :: md) => setitem "metadata" (VStr (json.dumps (kv :: md))) d
  | _ => d
  end.

(** The connection: what [execute] of the [INSERT INTO chunks] statement
    with its eight parameters and [commit] do to the database; [None] when
    sqlite3 raises. *)
Class Connection (DB : Type) : Type := {
  execute : DB -> list value -> option DB;
  commit : DB -> option DB
}.

Inductive error : Type :=
| KeyError (key : string)
| DatabaseError.

(** A call returns a value and leaves a database, or raises and leaves the
    database as it was when the exception came. *)
Inductive outcome (DB A : Type) : Type :=
| Return (db : DB) (a : A)
| Raised (e : error) (db : DB).
Arguments Return {DB A} db a.
Arguments Raised {DB A} e db.

Section Rows.

Context {DB : Type} `{Connection DB}.

Definition insert (db : DB) (count : Z) (row : list value)
  (k : DB -> Z -> outcome DB Z) : outcome DB Z :=
  match execute db row with
  | Some db' => k db' (count + 1)%Z
  | None => Raised DatabaseError db
  end.

Definition finish (db : DB) (count : Z) : outcome DB Z :=
  match commit db with
  | Some db' => Return db' count
  | None => Raised DatabaseError db
  end.

(** [import_chunks_to_db], from [count] on. *)
Fixpoint import_chunks_to_db_from (db : DB) (doc_id : Z) (chunks : list Chunk)
  (count : Z) : outcome DB Z :=
  match chunks with
  | [] => finish db count
  | chunk :: rest =>
      let metadata_json :=
        match metadata chunk with
        | Some (kv :: md) => VStr (json.dumps (kv :: md))
        | _ => VNone
        end in
      insert db count
        [VInt doc_id; VInt (Z.of_nat (ord chunk)); of_option (heading chunk);
         VStr (text chunk); VInt (token_est chunk); VStr (kind chunk);
         of_option (hash chunk); metadata_json]
        (fun db' count' => import_chunks_to_db_from db' doc_id rest count')
  end.

Definition import_chunks_to_db (db : DB) (doc_id : Z) (chunks : list Chunk)
  : outcome DB Z :=
  import_chunks_to_db_from db doc_id chunks 0.

(** [metadata_json] of [import_chunks]. *)
Definition metadata_json_of (chunk : dict) : value :=
  match lookup "metadata" chunk with
  | Some v =>
      if truth v then
        match v with
        | VStr s => VStr s
        | _ => VStr (dumps_any v)
        end
      else VNone
  | None => VNone
  end.

(** [DocImporter.import_chunks], from [count] on.  The parameters are
    evaluated in their order: a missing ['ord'] is met before a missing
    ['text']. *)
Fixpoint import_chunks_from (db : DB) (doc_id : Z) (chunks : list dict)
  (count : Z) : outcome DB Z :=
  match chunks with
  | [] => finish db count
  | chunk :: rest =>
      let metadata_json := metadata_json_of chunk in
      match lookup "ord" chunk with
      | None => Raised (KeyError "ord") db
      | Some ord_v =>
          match lookup "text" chunk with
          | None => Raised (KeyError "text") db
          | Some text_v =>
              insert db count
                [VInt doc_id; ord_v; get_or "heading" VNone chunk; text_v;
                 get_or "token_est" VNone chunk;
                 get_or "kind" (VStr (lit "doc")) chunk;
                 get_or "hash" VNone chunk; metadata_json]
                (fun db' count' => import_chunks_from db' doc_id rest count')
          end
      end
  end.

Definition import_chunks (db : DB) (doc_id : Z) (chunks : list dict)
  : outcome DB Z :=
  import_chunks_from db doc_id chunks 0.

End Rows.

(** A database that keeps the rows: those of the open transaction and
    those committed. *)
Record Table : Type := mkTable {
  pending : list (list value);
  committed : list (list value)
}.

#[export] Instance Table_Connection : Connection Table := {
  execute db row := Some (mkTable (pending db ++ [row]) (committed db));
  commit db := Some (mkTable [] (committed db ++ pending db))
}.

End chunk_rows.

(** ** import_docs.py: HTML to text

    [HTMLToText] is fed by [html.parser.HTMLParser], which calls the three
    handlers for the tags and the text it meets; the calls are the events
    here. *)

Module import_docs.

Import Py PyLib chunk_splitter.

Inductive event : Type :=
| StartTag (tag : str)
| EndTag (tag : str)
| Data (data : str).

Record HTMLToText : Type := mkHTMLToText {
  text_parts : list str;
  current_tag : option str
}.

Definition new_parser : HTMLToText := mkHTMLToText [] None.

Definition skip_tags : list str := [lit "script"; lit "style"; lit "head"].

Definition handle_starttag (self : HTMLToText) (tag : str) : HTMLToText :=
  mkHTMLToText (text_parts self) (Some tag).

Definition handle_endtag (self : HTMLToText) (tag : str) : HTMLToText :=
  let parts :=
    if str_in tag [lit "p"; lit "div"; lit "br"; lit "h1"; lit "h2";
                   lit "h3"; lit "h4"; lit "h5"; lit "h6"]
    then text_parts self ++ [lit "\n\n"]
    else text_parts self in
  mkHTMLToText parts None.

(** [self.current_tag not in self.skip_tags]; [None] is not in the set. *)
Definition not_skipped (current : option str) : bool :=
  match current with
  | Some tag => negb (str_in tag skip_tags)
  | None => true
  end.

Definition handle_data (self : HTMLToText) (data : str) : HTMLToText :=
  if not_skipped (current_tag self) then
    let cleaned := join (lit " ") (split data) in
    if truthy cleaned
    then mkHTMLToText (text_parts self ++ [cleaned ++ lit " "])
           (current_tag self)
    else self
  else self.

Definition handle (self : HTMLToText) (e : event) : HTMLToText :=
  match e with
  | StartTag tag => handle_starttag self tag
  | EndTag tag => handle_endtag self tag
  | Data data => handle_data self data
  end.

Definition feed (self : HTMLToText) (events : list event) : HTMLToText :=
  fold_left handle events self.

Definition get_text (self : HTMLToText) : str :=
  strip (concat (text_parts self)).

Definition html_to_text (events : list event) : str :=
  get_text (feed new_parser events).

(** The text of a page as [import_from_url] and [import_from_file] chunk
    it: [html_to_text], then [ChunkSplitter().split_plaintext(text,
    kind='doc')]. *)
Definition html_chunks (events : list event) : result (list Chunk) :=
  split_plaintext default (html_to_text events) (lit "doc").

End import_docs.

(** ** cli_logger.py: the interactive session

    The database is the [messages] table, a list of rows with their session,
    and the row of the session at hand in the [sessions] table.  The lines
    the user types, and the two exceptions [input] can raise, are the
    inputs.  The statements are taken to execute: an exception of sqlite3
    is not caught by the loop and is left out here. *)

Module cli_logger.

Import Py PyLib chunk_splitter.

Record Session : Type := mkSession {
  notes : option str;
  finished : bool
}.

Record Database : Type := mkDatabase {
  messages : list (Z * Message);
  session : Session
}.

(** [SELECT MAX(step) FROM messages WHERE session_id = ?]: [None] is the
    NULL of no row. *)
Definition max_step (rows : list (Z * Message)) (session_id : Z) : option Z :=
  fold_left
    (fun acc row =>
       if (fst row =? session_id)%Z
       then Some (match acc with
                  | Some m => Z.max m (step (snd row))
                  | None => step (snd row)
                  end)
       else acc)
    rows None.

(** [COALESCE(MAX(step), 0) + 1]. *)
Definition next_step (rows : list (Z * Message)) (session_id : Z) : Z :=
  (match max_step rows session_id with Some m => m | None => 0 end + 1)%Z.

Definition log_message (db : Database) (session_id : Z) (role content : str)
  : Database :=
  mkDatabase
    (messages db
       ++ [(session_id,
            mkMessage content role (next_step (messages db) session_id))])
    (session db).

(** [notes = COALESCE(?, notes)], [finished_at = datetime('now')]. *)
Definition end_session (db : Database) (new_notes : option str) : Database :=
  mkDatabase (messages db)
    (mkSession
       (match new_notes with
        | Some n => Some n
        | None => notes (session db)
        end)
       true).

(** [UPDATE sessions SET notes = ? WHERE id = ?]. *)
Definition set_notes (db : Database) (note_text : str) : Database :=
  mkDatabase (messages db) (mkSession (Some note_text) (finished (session db))).

Inductive input : Type :=
| Line (s : str)
| KeyboardInterrupt
| EOFError.

Definition role_at (step_counter : Z) : str :=
  if (step_counter mod 2 =? 0)%Z then lit "user" else lit "assistant".

(** The loop of [interactive_session].  The result says whether the loop
    has been left; it has not when the inputs end before a command or an
    exception ends it. *)
Fixpoint session_loop (session_id : Z) (inputs : list input)
  (step_counter : Z) (db : Database) : Database * bool :=
  match inputs with
  | [] => (db, false)
  | KeyboardInterrupt :: _ => (db, true)
  | EOFError :: _ => (db, true)
  | Line line :: rest =>
      let role := role_at step_counter in
      let user_input := strip line in
      if startswith user_input (lit "/end") then
        let notes :=
          if (5 <? List.length user_input)%nat
          then Some (strip (skipn 5 user_input))
          else None in
        (end_session db notes, true)
      else if startswith user_input (lit "/note") then
        session_loop session_id rest step_counter
          (set_notes db (strip (skipn 6 user_input)))
      else if str_eqb user_input (lit "/quit") then (db, true)
      else if truthy user_input then
        session_loop session_id rest (step_counter + 1)
          (log_message db session_id role user_input)
      else session_loop session_id rest step_counter db
  end.

(** [interactive_session], once [start_session] has made the row of the
    session and given its id. *)
Definition interactive_session (session_id : Z) (inputs : list input)
  (db : Database) : Database * bool :=
  session_loop session_id inputs 0 db.

End cli_logger.

(** ** The statements of the searches

    The searches of query_rag.py and jsonb_helpers.py put a statement and
    its parameters together and hand both to [execute]; the pair is the
    result here. *)

Module queries.

Import Py PyLib chunk_splitter chunk_rows.

(** The lines of a text between triple quotes. *)
Definition text_of (lines : list string) : str := join [LF] (map lit lines).

Definition QUESTION : codepoint := 63%N.

(** The statement and the parameters [fts_search] executes. *)
Definition fts_search (query module topic_id doc_type limit : value)
  : str * list value :=
  let filters : list str := [] in
  let params := [query] in
  let '(filters, params) :=
    if truth module
    then (filters ++ [lit "fts.module = ?"], params ++ [module])
    else (filters, params) in
  let '(filters, params) :=
    if truth topic_id
    then (filters ++ [lit "fts.topic_id = ?"], params ++ [topic_id])
    else (filters, params) in
  let '(filters, params) :=
    if truth doc_type
    then (filters ++ [lit "d.doc_type = ?"], params ++ [doc_type])
    else (filters, params) in
  let where_clause :=
    match filters with
    | [] => []
    | _ => lit "AND " ++ join (lit " AND ") filters
    end in
  let sql :=
    text_of
      [ EmptyString;
        "        SELECT";
        "            c.id AS chunk_id,";
        "            c.heading,";
        "            c.text,";
        "            c.token_est,";
        "            c.kind,";
        "            d.id AS doc_id,";
        "            d.title AS doc_title,";
        "            d.module,";
        "            d.doc_type,";
        "            d.version,";
        "            d.source,";
        "            fts.rank";
        "        FROM chunks_fts fts";
        "        JOIN chunks c ON c.id = fts.rowid";
        "        JOIN docs d ON d.id = c.doc_id";
        "        WHERE chunks_fts MATCH ?";
        "          " ]%string
    ++ where_clause
    ++ text_of
         [ EmptyString;
           "        ORDER BY fts.rank";
           "        LIMIT ?";
           "        " ]%string in
  (sql, params ++ [limit]).

Definition allowed_operators : list str :=
  [lit ">"; lit "<"; lit ">="; lit "<="; lit "="; lit "!="].

(** [search_sessions_by_telemetry]: the [ValueError] with its message, or
    the statement and the parameters it executes. *)
Definition search_sessions_by_telemetry (key operator : str) (v : value)
  : str + str * list value :=
  if negb (str_in operator allowed_operators) then
    inl (lit "Invalid operator: " ++ operator)
  else
    let sql :=
      text_of
        [ EmptyString;
          "            SELECT";
          "                id,";
          "                topic_id,";
          "                model,";
          "                started_at,";
          "                finished_at,";
          "                jsonb_extract(telemetry_jsonb, ?) AS telemetry_field,";
          "                json(telemetry_jsonb) AS telemetry";
          "            FROM sessions";
          "            WHERE telemetry_jsonb IS NOT NULL";
          "              AND jsonb_extract(telemetry_jsonb, ?) " ]%string
      ++ operator
      ++ text_of
           [ " ?";
             "            ORDER BY started_at DESC";
             "        " ]%string in
    inr (sql, [VStr (lit "$." ++ key); VStr (lit "$." ++ key); v]).

(** [search_docs_by_metadata] and [search_chunks_by_metadata] of
    jsonb_helpers.py, [list_topics] of query_rag.py: the statement grows by
    a condition, and the parameters by its value, when the filter is
    true. *)
Definition search_docs_by_metadata (key : str) (v module : value)
  : str * list value :=
  let sql :=
    text_of
      [ EmptyString;
        "            SELECT";
        "                id,";
        "                module,";
        "                slug,";
        "                title,";
        "                doc_type,";
        "                json(metadata_jsonb) AS metadata";
        "            FROM docs";
        "            WHERE metadata_jsonb IS NOT NULL";
        "              AND jsonb_extract(metadata_jsonb, ?) = ?";
        "        " ]%string in
  let params := [VStr (lit "$." ++ key); v] in
  let '(sql, params) :=
    if truth module
    then (sql ++ lit " AND module = ?", params ++ [module])
    else (sql, params) in
  let sql := sql ++ lit " ORDER BY created_at DESC" in
  (sql, params).

Definition search_chunks_by_metadata (key : str) (v kind : value)
  : str * list value :=
  let sql :=
    text_of
      [ EmptyString;
        "            SELECT";
        "                c.id,";
        "                c.doc_id,";
        "                c.heading,";
        "                c.text,";
        "                c.kind,";
        "                d.title AS doc_title,";
        "                d.module,";
        "                json(c.metadata_jsonb) AS metadata";
        "            FROM chunks c";
        "            JOIN docs d ON d.id = c.doc_id";
        "            WHERE c.metadata_jsonb IS NOT NULL";
        "              AND jsonb_extract(c.metadata_jsonb, ?) = ?";
        "        " ]%string in
  let params := [VStr (lit "$." ++ key); v] in
  let '(sql, params) :=
    if truth kind
    then (sql ++ lit " AND c.kind = ?", params ++ [kind])
    else (sql, params) in
  let sql := sql ++ lit " ORDER BY c.doc_id, c.ord" in
  (sql, params).

Definition list_topics (status : value) : str * list value :=
  let sql :=
    text_of
      [ EmptyString;
        "        SELECT";
        "            t.id,";
        "            t.module,";
        "            t.title,";
        "            t.status,";
        "            t.priority,";
        "            COUNT(d.id) AS doc_count";
        "        FROM topics t";
        "        LEFT JOIN docs d ON d.topic_id = t.id";
        "        " ]%string in
  let '(sql, params) :=
    if truth status
    then (sql ++ lit " WHERE t.status = ?", [status])
    else (sql, []) in
  let sql := sql ++ lit " GROUP BY t.id ORDER BY t.priority, t.created_at" in
  (sql, params).

End queries.

(** ** Vocabulary of the further properties *)

Module XSpec.

Import Py PyLib chunk_splitter Spec chunk_rows import_docs cli_logger queries.

(** The words of the texts of the chunks, in order. *)
Definition words_of (cs : list Chunk) : list str :=
  concat (map (fun c => split (text c)) cs).

(** A buffer of the paragraph loop: empty, or closed by a blank line. *)
Definition open_buffer (cur : str) : Prop := cur = [] \/ closed cur.

(** What follows a match of [(.+)$]: the end of the text or a line feed. *)
Definition at_eol (rest : str) : Prop := rest = [] \/ exists r, rest = LF :: r.

(** [^] holds after a line feed or at the start. *)
Definition bol_ok (bol : bool) (cur : str) : Prop :=
  bol = true -> cur = [] \/ exists cur', cur = LF :: cur'.

(** The estimate a chunk carries is the estimate of its text. *)
Definition estimated (c : Chunk) : Prop :=
  token_est c = estimate_tokens (text c).

(** A digit of a lowercase hexadecimal numeral. *)
Definition lower_hex (c : codepoint) : Prop :=
  ((48 <= c <= 57) \/ (97 <= c <= 102))%N.

(** No line of the text starts with two marks. *)
Definition no_header_line (md : str) : Prop :=
  forall a b, md = a ++ HASH :: HASH :: b -> last a LF <> LF.

(** The chunk of the text before the first header. *)
Definition prologue_chunk (pre h : str) : Chunk :=
  mkChunk None (strip pre) 0 (lit "doc") (estimate_tokens (strip pre))
    (Some h) None.

(** The chunk of a message within the budget. *)
Definition is_message_chunk (sid : Z) (m : Message) (c : Chunk) : Prop :=
  exists h, compute_hash (content m) = Ok h /\
            c = message_chunk sid m (ord c) h.

(** A chunk with a digest of 64 lowercase hexadecimal digits. *)
Definition well_hashed (c : Chunk) : Prop :=
  exists h, hash c = Some h /\ List.length h = 64 /\ Forall lower_hex h.

(** The number of words of a text. *)
Definition word_count (s : str) : Z := Z.of_nat (List.length (split s)).

(** The bound a chunk of several paragraphs keeps, or the one paragraph over
    the budget it is made of. *)
Definition within_bound (self : ChunkSplitter) (paragraphs : list str)
  (c : Chunk) : Prop :=
  (token_est c <= 13 * max_chunk_tokens self / 10)%Z \/
  exists p, In p paragraphs /\
            (estimate_tokens p > max_chunk_tokens self)%Z /\
            text c = strip p.

(** The buffer holds no more words than its running total, and the total
    is within the budget unless the buffer is one paragraph over it. *)
Definition bounded_buffer (self : ChunkSplitter) (paragraphs : list str)
  (b : Buffer) : Prop :=
  (word_count (current_chunk b) <= current_tokens b)%Z /\
  ((current_tokens b <= max_chunk_tokens self)%Z \/
   exists p, In p paragraphs /\
             (estimate_tokens p > max_chunk_tokens self)%Z /\
             current_chunk b = p ++ lit "\n\n").

(** The number of words of the paragraphs. *)
Definition total_words (ps : list str) : Z :=
  Z.of_nat (List.length (concat (map split ps))).

(** The chunk is made from message [m] of session [sid]: its kind follows
    the role, its metadata names the session, the step and the role. *)
Definition from_message (sid : Z) (m : Message) (c : Chunk) : Prop :=
  kind c = kind_of m /\
  exists d, metadata c = Some d /\
            get "session_id" d = Some (MInt sid) /\
            get "message_step" d = Some (MInt (step m)) /\
            get "message_role" d = Some (MStr (role m)).

(** A printable ASCII character: from the space to the tilde. *)
Definition printable (c : codepoint) : Prop := (32 <= c <= 126)%N.

(** The row [import_chunks_to_db] inserts for a chunk. *)
Definition row_of (doc_id : Z) (c : Chunk) : list value :=
  [VInt doc_id; VInt (Z.of_nat (ord c)); of_option (heading c);
   VStr (text c); VInt (token_est c); VStr (kind c); of_option (hash c);
   match metadata c with
   | Some (kv :: md) => VStr (json.dumps (kv :: md))
   | _ => VNone
   end].

(** The statements of [rows] executed one after the other. *)
Fixpoint executed {DB : Type} `{Connection DB} (db : DB)
  (rows : list (list value)) : option DB :=
  match rows with
  | [] => Some db
  | row :: rest =>
      match execute db row with
      | Some db' => executed db' rest
      | None => None
      end
  end.

(** The text of the page a reader sees, as the converter takes it: the data
    that do not directly follow the start tag of a script, style or head
    element. *)
Fixpoint shown (current : option str) (events : list event) : list str :=
  match events with
  | [] => []
  | StartTag tag :: rest => shown (Some tag) rest
  | EndTag _ :: rest => shown None rest
  | Data data :: rest =>
      if not_skipped current then data :: shown current rest
      else shown current rest
  end.

(** A word: not empty, no whitespace. *)
Definition word (w : str) : Prop := w <> [] /\ forallb nonspace w = true.

(** A text that is empty or ends with whitespace. *)
Definition ends_blank (s : str) : Prop :=
  s = [] \/ exists a w, s = a ++ [w] /\ isspace w = true.

(** The rows a session logs for the texts [contents], when its counter
    stands at [k] and the next step of the session is [first]. *)
Fixpoint logged (session_id first k : Z) (contents : list str)
  : list (Z * Message) :=
  match contents with
  | [] => []
  | c :: rest =>
      (session_id, mkMessage c (role_at k) first)
        :: logged session_id (first + 1) (k + 1) rest
  end.

(** A text the loop logs: trimmed, not empty, and no command. *)
Definition message_text (c : str) : Prop :=
  c <> [] /\ strip c = c /\
  startswith c (lit "/end") = false /\
  startswith c (lit "/note") = false /\
  c <> lit "/quit".

(** The notes [/end] passes on: none, or a trimmed text that is not
    empty. *)
Definition end_notes (n : option str) : Prop :=
  match n with
  | None => True
  | Some t => t <> [] /\ strip t = t
  end.

(** The lines the loop reads before it is left, trimmed: those before the
    first exception, the first line that starts with [/end] and the first
    line [/quit]. *)
Fixpoint read_lines (inputs : list input) : list str :=
  match inputs with
  | Line line :: rest =>
      if startswith (strip line) (lit "/end")
         || str_eqb (strip line) (lit "/quit")
      then []
      else strip line :: read_lines rest
  | _ => []
  end.

(** The texts among them that are messages: not empty, and no [/note]. *)
Definition logged_texts (inputs : list input) : list str :=
  filter (fun u => truthy u && negb (startswith u (lit "/note")))
    (read_lines inputs).

(** The number of [?] of a statement: the parameters it binds. *)
Definition placeholders (sql : str) : nat := count_occ N.eq_dec sql QUESTION.

End XSpec.

(* ================================================================= *)
(** * Part II: properties *)
(* ================================================================= *)

(** ** The model on examples *)

Module Examples.

Import Py chunk_splitter.

(** The digests of "abc" and of the empty message (FIPS 180-4). *)
Example sha256_abc :
  SHA256.hexdigest [97; 98; 99]%N
  = lit "ba7816bf8f01cfea414140de5dae2223b00361a396177a9cb410ff61f20015ad".
Proof. vm_compute. reflexivity. Qed.

Example sha256_empty :
  SHA256.hexdigest []
  = lit "e3b0c44298fc1c149afbf4c8996fb92427ae41e4649b934ca495991b7852b855".
Proof. vm_compute. reflexivity. Qed.

Example utf8_two_bytes : encode_utf8 [233%N] = Some [195; 169]%N.
Proof. reflexivity. Qed.

Example utf8_surrogate : encode_utf8 [97; 55296]%N = None.
Proof. reflexivity. Qed.

Example split_words :
  split (lit " hello  world\nfoo ") = [lit "hello"; lit "world"; lit "foo"].
Proof. reflexivity. Qed.

Example strip_both : strip (lit " \n a b \n\n") = lit "a b".
Proof. reflexivity. Qed.

Example paragraphs_of_text :
  re_split_blank (lit "a\n\n\nb\nc\n\n") = [lit "a"; lit "b\nc"; lit ""].
Proof. reflexivity. Qed.

Example headers_of_text :
  header_split (lit "intro\n## A\n\nhello\n### B  b\nfoo")
  = [lit "intro\n"; lit "##"; lit "A"; lit "\n\nhello\n";
     lit "###"; lit "B  b"; lit "\nfoo"].
Proof. reflexivity. Qed.

(** A header of level 1 or 4 is no boundary; the whitespace after the marks
    may run over line ends. *)
Example headers_level_1_and_4 :
  header_split (lit "# T\n#### U\n##V") = [lit "# T\n#### U\n##V"].
Proof. reflexivity. Qed.

Example header_over_lines :
  header_split (lit "## \n\nfoo\nbar") = [lit ""; lit "##"; lit "foo"; lit "\nbar"].
Proof. reflexivity. Qed.

Example estimate_of_words :
  map estimate_tokens [lit ""; lit "a"; lit "a b"; lit "a b c"; lit "a b c d"]
  = [0; 1; 2; 3; 5]%Z.
Proof. vm_compute. reflexivity. Qed.

(** The product is rounded as binary64 rounds it: beyond [2^53] words it is
    no longer the exact one. *)
Example estimate_rounding :
  int_of_float52 (mul_1_3 (float_of_int (2 ^ 53 + 1))) = 11709359031163290%Z /\
  (13 * (2 ^ 53 + 1) / 10 = 11709359031163290)%Z /\
  int_of_float52 (mul_1_3 (float_of_int (2 ^ 53 + 3))) = 11709359031163296%Z /\
  (13 * (2 ^ 53 + 3) / 10 = 11709359031163293)%Z.
Proof. repeat split; vm_compute; reflexivity. Qed.

(** Two sections within the budget: two chunks. *)
Example two_sections :
  split_markdown default (lit "## A\n\nhello world\n\n## B\n\nfoo bar baz")
  = Ok [mkChunk (Some (lit "A")) (lit "## A\n\nhello world") 0 (lit "doc") 5
          (Some (lit "24d0854d869eccf363ce80b3e3503149c01e69643a0096e86f84f13efea98a3b"))
          None;
        mkChunk (Some (lit "B")) (lit "## B\n\nfoo bar baz") 1 (lit "doc") 6
          (Some (lit "1350849f1614562815043a20520804e754f00429229ce32135c54f598417b154"))
          None].
Proof. vm_compute. reflexivity. Qed.

(** No header: one chunk without heading. *)
Example no_header :
  split_markdown default (lit "just some text, no headers")
  = Ok [mkChunk None (lit "just some text, no headers") 0 (lit "doc") 6
          (Some (lit "8ac419bb0a94b9a9f3310cab933b05278e59e5c4f9a39bf065d5ba8689d11f33"))
          None].
Proof. vm_compute. reflexivity. Qed.

(** Empty input: no chunk. *)
Example empty_input :
  split_markdown default (lit "") = Ok [] /\
  split_plaintext default (lit "") (lit "doc") = Ok [] /\
  split_session_messages default 1 [] = Ok [].
Proof. repeat split. Qed.

(** A lone surrogate in the text: the hash raises. *)
Example surrogate_raises :
  split_plaintext default [97; 56320]%N (lit "doc") = Raise UnicodeEncodeError.
Proof. reflexivity. Qed.

End Examples.

(** ** Strings *)

Module PyFacts.

Import Py.

Lemma lstrip_head (s : str) (c : codepoint) (r : str) :
  lstrip s = c :: r -> isspace c = false.
Proof.
  induction s as [|a s IH]; simpl; [discriminate|].
  destruct (isspace a) eqn:Ea; [exact IH|].
  intros E; injection E as <- _; exact Ea.
Qed.

Lemma lstrip_fixed (c : codepoint) (r : str) :
  isspace c = false -> lstrip (c :: r) = c :: r.
Proof. intros E; simpl; now rewrite E. Qed.

Lemma lstrip_idem (s : str) : lstrip (lstrip s) = lstrip s.
Proof.
  destruct (lstrip s) as [|c r] eqn:E; [reflexivity|].
  apply lstrip_fixed, (lstrip_head s c r E).
Qed.

(** What [lstrip] removes is whitespace. *)
Lemma lstrip_split (s : str) :
  exists w, s = w ++ lstrip s /\ forallb isspace w = true.
Proof.
  induction s as [|a s [w [E W]]]; simpl.
  - now exists [].
  - destruct (isspace a) eqn:Ea.
    + exists (a :: w); simpl; rewrite Ea, W; split; [now f_equal|reflexivity].
    + now exists [].
Qed.

Lemma rstrip_split (s : str) :
  exists w, s = rstrip s ++ w /\ forallb isspace w = true.
Proof.
  unfold rstrip.
  destruct (lstrip_split (rev s)) as [w [E W]].
  exists (rev w); split.
  - rewrite <- rev_app_distr, <- E; symmetry; apply rev_involutive.
  - rewrite forallb_forall in *; intros x Hx; apply W; now apply in_rev.
Qed.

Lemma rstrip_idem (s : str) : rstrip (rstrip s) = rstrip s.
Proof. unfold rstrip; now rewrite rev_involutive, lstrip_idem. Qed.

Lemma strip_idem (s : str) : strip (strip s) = strip s.
Proof.
  unfold strip.
  destruct (rstrip (lstrip s)) as [|c r] eqn:E; [reflexivity|].
  assert (Hc : isspace c = false).
  { destruct (rstrip_split (lstrip s)) as [w [Ew _]].
    rewrite E in Ew. simpl in Ew. now apply lstrip_head in Ew. }
  rewrite (lstrip_fixed c r Hc), <- E. apply rstrip_idem.
Qed.

(** A string is blank for [strip] exactly when all its characters are
    whitespace. *)
Lemma lstrip_nil (s : str) : lstrip s = [] <-> forallb isspace s = true.
Proof.
  induction s as [|a s IH]; simpl; [tauto|].
  destruct (isspace a); simpl; [exact IH|]. split; discriminate.
Qed.

Lemma forallb_rev {A} (f : A -> bool) (l : list A) :
  forallb f (rev l) = forallb f l.
Proof.
  destruct (forallb f l) eqn:E.
  - rewrite forallb_forall in *; intros x Hx; apply E; now apply in_rev.
  - destruct (forallb f (rev l)) eqn:E'; [|reflexivity].
    rewrite <- E; symmetry.
    rewrite forallb_forall in *; intros x Hx; apply E'; now apply in_rev in Hx.
Qed.

Lemma strip_nil (s : str) : strip s = [] <-> forallb isspace s = true.
Proof.
  unfold strip, rstrip. split.
  - intros E. apply (f_equal (@rev _)) in E. rewrite rev_involutive in E.
    simpl in E. apply lstrip_nil in E. rewrite forallb_rev in E.
    destruct (lstrip_split s) as [w [Es W]].
    rewrite Es, forallb_app, W, E. reflexivity.
  - intros W. apply lstrip_nil in W. rewrite W. reflexivity.
Qed.

Lemma truthy_strip (s : str) :
  truthy (strip s) = true <-> strip s <> [].
Proof. destruct (strip s); simpl; split; congruence. Qed.

Lemma truthy_false (s : str) : truthy s = false <-> s = [].
Proof. destruct s; simpl; split; congruence. Qed.

End PyFacts.

(** ** Pieces of a string keep its characters *)

Module Pieces.

Import Py.

Section Chars.

Variable P : codepoint -> Prop.

Lemma lstrip_Forall (s : str) : Forall P s -> Forall P (lstrip s).
Proof.
  induction 1 as [|a s Ha Hs IH]; simpl; [constructor|].
  destruct (isspace a); [exact IH|now constructor].
Qed.

Lemma rev_Forall (s : str) : Forall P s -> Forall P (rev s).
Proof. rewrite !Forall_forall; intros H x Hx; apply H; now apply in_rev. Qed.

Lemma strip_Forall (s : str) : Forall P s -> Forall P (strip s).
Proof.
  intros H; unfold strip, rstrip.
  now apply rev_Forall, lstrip_Forall, rev_Forall, lstrip_Forall.
Qed.

Lemma re_split_blank_from_Forall (s cur : str) (in_sep : bool) :
  Forall P s -> Forall P cur ->
  Forall (Forall P) (re_split_blank_from s cur in_sep).
Proof.
  intros Hs; revert cur in_sep.
  induction Hs as [|a s Ha Hs IH]; intros cur in_sep Hc; simpl.
  - constructor; [now apply rev_Forall|constructor].
  - assert (Hac : Forall P (a :: cur)) by now constructor.
    destruct (a =? LF)%N; [|now apply IH].
    destruct in_sep; [now apply IH|].
    destruct s as [|c2 s']; [now apply IH|].
    destruct (c2 =? LF)%N; [|now apply IH].
    constructor; [now apply rev_Forall|apply IH; constructor].
Qed.

Lemma re_split_blank_Forall (s : str) :
  Forall P s -> Forall (Forall P) (re_split_blank s).
Proof. intros H; apply re_split_blank_from_Forall; [exact H|constructor]. Qed.

Lemma line_prefix_Forall (s : str) : Forall P s -> Forall P (line_prefix s).
Proof.
  induction 1 as [|a s Ha Hs IH]; simpl; [constructor|].
  destruct (a =? LF)%N; now constructor.
Qed.

Lemma dot_plus_eol_Forall (s g : str) (n : nat) :
  Forall P s -> dot_plus_eol s = Some (g, n) -> Forall P g.
Proof.
  intros Hs; unfold dot_plus_eol.
  pose proof (line_prefix_Forall s Hs) as H.
  destruct (line_prefix s); [discriminate|].
  intros E; injection E as <- _; exact H.
Qed.

Lemma ws_plus_heading_Forall (s g : str) (n : nat) :
  Forall P s -> ws_plus_heading s = Some (g, n) -> Forall P g.
Proof.
  intros Hs; revert g n.
  induction Hs as [|a s Ha Hs IH]; intros g n; simpl; [discriminate|].
  destruct (isspace a); [|discriminate].
  destruct (ws_plus_heading s) as [[g' n']|].
  - intros E; injection E as <- _; now apply (IH g' n').
  - destruct (dot_plus_eol s) as [[g' n']|] eqn:Ed; [|discriminate].
    intros E; injection E as <- _; now apply (dot_plus_eol_Forall s g' n').
Qed.

Hypothesis P_hash : P HASH.

Lemma match_header_Forall (s level heading : str) (n : nat) :
  Forall P s -> match_header s = Some (level, heading, n) ->
  Forall P level /\ Forall P heading.
Proof.
  intros Hs; unfold match_header.
  destruct s as [|h1 [|h2 s2]]; try discriminate.
  destruct ((h1 =? HASH) && (h2 =? HASH))%N; [|discriminate].
  assert (H2 : Forall P s2) by now inversion Hs as [|? ? _ Hs']; inversion Hs'.
  assert (Htwo : match ws_plus_heading s2 with
                 | Some (g, n0) => Some ([HASH; HASH], g, (2 + n0)%nat)
                 | None => None
                 end = Some (level, heading, n) ->
                 Forall P level /\ Forall P heading).
  { destruct (ws_plus_heading s2) as [[g n0]|] eqn:E; [|discriminate].
    intros E'; injection E' as <- <- _; split.
    - repeat constructor; exact P_hash.
    - now apply (ws_plus_heading_Forall s2 g n0). }
  destruct s2 as [|h3 s3]; [exact Htwo|].
  destruct (h3 =? HASH)%N; [|exact Htwo].
  destruct (ws_plus_heading s3) as [[g n0]|] eqn:E; [|exact Htwo].
  intros E'; injection E' as <- <- _; split.
  - repeat constructor; exact P_hash.
  - apply (ws_plus_heading_Forall s3 g n0); [now inversion H2|exact E].
Qed.

Lemma header_split_from_Forall (s cur : str) (bol : bool) (skip : nat) :
  Forall P s -> Forall P cur ->
  Forall (Forall P) (header_split_from s bol skip cur).
Proof.
  intros Hs; revert cur bol skip.
  induction s as [|a s IH]; intros cur bol skip Hc; cbn [header_split_from].
  - constructor; [now apply rev_Forall|constructor].
  - assert (Hs' : Forall P s) by now inversion Hs.
    destruct skip as [|k]; [|now apply IH].
    destruct (if bol then match_header (a :: s) else None)
      as [[[level heading] n]|] eqn:E.
    + destruct bol; [|discriminate].
      destruct (match_header_Forall _ _ _ _ Hs E) as [Hl Hh].
      constructor; [now apply rev_Forall|].
      constructor; [exact Hl|]. constructor; [exact Hh|].
      apply IH; [exact Hs'|constructor].
    + apply IH; [exact Hs'|]. constructor; [now inversion Hs|exact Hc].
Qed.

Lemma header_split_Forall (s : str) :
  Forall P s -> Forall (Forall P) (header_split s).
Proof. intros H; apply header_split_from_Forall; [exact H|constructor]. Qed.

End Chars.

End Pieces.

(** ** The result monad and the paragraph loop *)

Module LoopFacts.

Import Py chunk_splitter Spec PyFacts.

Lemma bind_Ok {A B} (m : result A) (k : A -> result B) (b : B) :
  bind m k = Ok b -> exists a, m = Ok a /\ k a = Ok b.
Proof. destruct m as [a|e]; simpl; [now exists a|discriminate]. Qed.

Lemma foldM_app {A S} (f : S -> A -> result S) (l1 l2 : list A) (s : S) :
  foldM f (l1 ++ l2) s = bind (foldM f l1 s) (foldM f l2).
Proof.
  revert s; induction l1 as [|a l1 IH]; intros s; simpl; [reflexivity|].
  destruct (f s a) as [s'|e]; simpl; [apply IH|reflexivity].
Qed.

Lemma scalar_lit (c : codepoint) : (c < 128)%N -> scalar c.
Proof.
  intros H; unfold scalar, utf8_char.
  apply N.ltb_lt in H; rewrite H; discriminate.
Qed.

Lemma encodable_app (a b : str) :
  encodable (a ++ b) <-> encodable a /\ encodable b.
Proof. apply Forall_app. Qed.

Lemma encode_utf8_encodable (s : str) :
  encodable s <-> encode_utf8 s <> None.
Proof.
  induction s as [|c s IH]; simpl.
  - split; [discriminate|constructor].
  - split.
    + intros H; inversion H as [|? ? Hc Hs]; subst.
      apply IH in Hs. unfold scalar in Hc.
      destruct (utf8_char c); [|congruence].
      destruct (encode_utf8 s); [discriminate|congruence].
    + intros H. destruct (utf8_char c) eqn:Ec; [|congruence].
      destruct (encode_utf8 s) eqn:Es; [|congruence].
      constructor; [unfold scalar; congruence|apply IH; discriminate].
Qed.

Lemma compute_hash_Ok (s : str) :
  encodable s <-> exists h, compute_hash s = Ok h.
Proof.
  rewrite encode_utf8_encodable; unfold compute_hash.
  destruct (encode_utf8 s) as [bs|]; split.
  - intros _; now eexists.
  - discriminate.
  - congruence.
  - intros [h E]; discriminate.
Qed.

(** *** [flush] *)

Lemma flush_cases (hd : option str) (k : str) (cs : list Chunk) (n : nat)
  (cur : str) (cs' : list Chunk) (n' : nat) :
  flush hd k cs n cur = Ok (cs', n') ->
  (strip cur = [] /\ cs' = cs /\ n' = n) \/
  (nonblank cur /\ exists h, compute_hash cur = Ok h /\
     cs' = cs ++ [mkChunk hd (strip cur) n k (estimate_tokens cur) (Some h) None]
     /\ n' = S n).
Proof.
  unfold flush. destruct (truthy (strip cur)) eqn:E.
  - intros H. apply bind_Ok in H as [h [Eh H]]. injection H as <- <-.
    right. split; [now apply truthy_strip|]. now exists h.
  - intros H. injection H as <- <-. left. now apply truthy_false in E.
Qed.

Lemma flush_spec (hd : option str) (k : str) (cs : list Chunk) (n : nat)
  (cur : str) (cs' : list Chunk) (n' : nat) :
  flush hd k cs n cur = Ok (cs', n') ->
  exists out, cs' = cs ++ out /\ n' = n + List.length out /\
              numbered n out /\ Forall (from_buffer hd k) out.
Proof.
  intros H. apply flush_cases in H as [[_ [-> ->]]|[Hnb [h [Eh [-> ->]]]]].
  - exists []. rewrite app_nil_r, Nat.add_0_r.
    repeat split; constructor.
  - eexists [_]. repeat split; [simpl; lia|].
    constructor; [|constructor]. exists cur, h. now repeat split.
Qed.

Lemma flush_total (hd : option str) (k : str) (cs : list Chunk) (n : nat)
  (cur : str) :
  encodable cur -> exists r, flush hd k cs n cur = Ok r.
Proof.
  intros H. apply compute_hash_Ok in H as [h Eh]. unfold flush.
  destruct (truthy (strip cur)); [rewrite Eh; simpl|]; now eexists.
Qed.

Lemma numbered_app (n : nat) (a b : list Chunk) :
  numbered n a -> numbered (n + List.length a) b -> numbered n (a ++ b).
Proof.
  unfold numbered; intros Ha Hb.
  now rewrite map_app, length_app, seq_app, Ha, Hb.
Qed.

(** *** The loop *)

Section Loop.

Variable self : ChunkSplitter.
Variable hd : option str.
Variable k : str.

Lemma paragraph_step_spec (b b' : Buffer) (para : str) :
  paragraph_step self hd k b para = Ok b' ->
  exists out, chunks b' = chunks b ++ out /\
              ord_counter b' = ord_counter b + List.length out /\
              numbered (ord_counter b) out /\ Forall (from_buffer hd k) out.
Proof.
  unfold paragraph_step.
  destruct (current_tokens b + estimate_tokens para >? max_chunk_tokens self)%Z.
  - intros H. apply bind_Ok in H as [[cs n] [Ef H]]. injection H as <-.
    simpl. now apply flush_spec in Ef.
  - intros H. injection H as <-. simpl. exists [].
    rewrite app_nil_r, Nat.add_0_r. repeat split; constructor.
Qed.

Lemma paragraph_fold_spec (ps : list str) (b b' : Buffer) :
  foldM (paragraph_step self hd k) ps b = Ok b' ->
  exists out, chunks b' = chunks b ++ out /\
              ord_counter b' = ord_counter b + List.length out /\
              numbered (ord_counter b) out /\ Forall (from_buffer hd k) out.
Proof.
  revert b; induction ps as [|p ps IH]; intros b; simpl.
  - intros H; injection H as <-. exists [].
    rewrite app_nil_r, Nat.add_0_r. repeat split; constructor.
  - intros H. apply bind_Ok in H as [b1 [E1 H]].
    apply paragraph_step_spec in E1 as [o1 [C1 [N1 [U1 F1]]]].
    apply IH in H as [o2 [C2 [N2 [U2 F2]]]].
    exists (o1 ++ o2). rewrite C2, C1, N2, N1, length_app, <- app_assoc.
    repeat split; [lia| |now apply Forall_app].
    apply numbered_app; [exact U1|now rewrite <- N1].
Qed.

Lemma paragraph_loop_spec (ps : list str) (b : Buffer)
  (cs : list Chunk) (n : nat) :
  paragraph_loop self hd k ps b = Ok (cs, n) ->
  exists out, cs = chunks b ++ out /\
              n = ord_counter b + List.length out /\
              numbered (ord_counter b) out /\ Forall (from_buffer hd k) out.
Proof.
  unfold paragraph_loop. intros H. apply bind_Ok in H as [b1 [E1 H]].
  apply paragraph_fold_spec in E1 as [o1 [C1 [N1 [U1 F1]]]].
  apply flush_spec in H as [o2 [C2 [N2 [U2 F2]]]].
  exists (o1 ++ o2). rewrite C2, C1, N2, N1, length_app, <- app_assoc.
  repeat split; [lia| |now apply Forall_app].
  apply numbered_app; [exact U1|now rewrite <- N1].
Qed.

Lemma blank_line_encodable : encodable (lit "\n\n").
Proof. repeat constructor; now apply scalar_lit. Qed.

Lemma paragraph_step_total (b : Buffer) (para : str) :
  encodable (current_chunk b) -> encodable para ->
  exists b', paragraph_step self hd k b para = Ok b' /\
             encodable (current_chunk b').
Proof.
  intros Hb Hp. unfold paragraph_step.
  destruct (current_tokens b + estimate_tokens para >? max_chunk_tokens self)%Z.
  - destruct (flush_total hd k (chunks b) (ord_counter b) _ Hb) as [[cs n] E].
    rewrite E; simpl. eexists; split; [reflexivity|]. simpl.
    apply encodable_app; split; [exact Hp|apply blank_line_encodable].
  - eexists; split; [reflexivity|]. simpl.
    apply encodable_app; split; [exact Hb|].
    apply encodable_app; split; [exact Hp|apply blank_line_encodable].
Qed.

Lemma paragraph_fold_total (ps : list str) (b : Buffer) :
  Forall encodable ps -> encodable (current_chunk b) ->
  exists b', foldM (paragraph_step self hd k) ps b = Ok b' /\
             encodable (current_chunk b').
Proof.
  intros Hps; revert b; induction Hps as [|p ps Hp Hps IH]; intros b Hb; simpl.
  - now exists b.
  - destruct (paragraph_step_total b p Hb Hp) as [b1 [E1 H1]].
    rewrite E1; simpl. now apply IH.
Qed.

Lemma paragraph_loop_total (ps : list str) (b : Buffer) :
  Forall encodable ps -> encodable (current_chunk b) ->
  exists r, paragraph_loop self hd k ps b = Ok r.
Proof.
  intros Hps Hb. unfold paragraph_loop.
  destruct (paragraph_fold_total ps b Hps Hb) as [b1 [E1 H1]].
  rewrite E1; simpl. now apply flush_total.
Qed.

End Loop.

End LoopFacts.

(** ** [split_plaintext] and [split_markdown] *)

Module SplitFacts.

Import Py chunk_splitter Spec PyFacts Pieces LoopFacts.

Lemma numbered_dense (cs : list Chunk) : numbered 0 cs <-> dense cs.
Proof. reflexivity. Qed.

Lemma from_buffer_nonblank (hd : option str) (k : str) (c : Chunk) :
  from_buffer hd k c -> nonblank (text c).
Proof.
  intros [buf [h [Hnb [_ [_ [Et _]]]]]]. unfold nonblank in *.
  now rewrite Et, strip_idem.
Qed.

Lemma split_plaintext_spec (self : ChunkSplitter) (t k : str)
  (cs : list Chunk) :
  split_plaintext self t k = Ok cs ->
  dense cs /\ Forall (from_buffer None k) cs.
Proof.
  unfold split_plaintext. intros H.
  apply bind_Ok in H as [[cs' n] [E H]]. injection H as <-.
  apply paragraph_loop_spec in E as [out [C [_ [U F]]]].
  simpl in C, U. subst cs'. now split.
Qed.

Lemma split_plaintext_total (self : ChunkSplitter) (t k : str) :
  encodable t -> exists cs, split_plaintext self t k = Ok cs.
Proof.
  intros Ht. unfold split_plaintext.
  destruct (paragraph_loop_total self None k (re_split_blank t)
              (mkBuffer [] [] 0%Z 0)) as [[cs n] E].
  - now apply re_split_blank_Forall.
  - constructor.
  - rewrite E; simpl. now eexists.
Qed.

(** *** Sections *)

Lemma header_split_from_shape (s cur : str) (bol : bool) (skip : nat) :
  exists pre rest,
    header_split_from s bol skip cur = pre :: rest /\ triples rest.
Proof.
  revert cur bol skip.
  induction s as [|a s IH]; intros cur bol skip; cbn [header_split_from].
  - exists (rev cur), []. split; [reflexivity|constructor].
  - destruct skip as [|n]; [|apply IH].
    destruct (if bol then match_header (a :: s) else None)
      as [[[level hd] n]|] eqn:E; [|apply IH].
    destruct (IH [] false (Nat.pred n)) as [pre [rest [E' T]]].
    exists (rev cur), (level :: hd :: pre :: rest).
    split; [now rewrite E'|].
    destruct bol; [|discriminate].
    assert (HL : is_level level /\ hd <> []).
    { clear - E. unfold match_header in E.
      assert (W : forall s g n, ws_plus_heading s = Some (g, n) -> g <> []).
      { clear. induction s as [|c s IH]; simpl; [discriminate|].
        intros g n. destruct (isspace c); [|discriminate].
        destruct (ws_plus_heading s) as [[g' n']|].
        - intros H; injection H as <- _. now apply (IH g' n').
        - unfold dot_plus_eol. destruct (line_prefix s); [discriminate|].
          intros H; injection H as <- _. discriminate. }
      destruct s as [|h2 s2]; [discriminate|].
      destruct ((a =? HASH) && (h2 =? HASH))%N; [|discriminate].
      assert (Htwo : match ws_plus_heading s2 with
                     | Some (g, n0) => Some ([HASH; HASH], g, (2 + n0)%nat)
                     | None => None
                     end = Some (level, hd, n) ->
                     is_level level /\ hd <> []).
      { destruct (ws_plus_heading s2) as [[g n0]|] eqn:E2; [|discriminate].
        intros H; injection H as <- <- _. split; [now left|].
        now apply (W s2 g n0). }
      destruct s2 as [|h3 s3]; [now apply Htwo|].
      destruct (h3 =? HASH)%N; [|now apply Htwo].
      destruct (ws_plus_heading s3) as [[g n0]|] eqn:E3; [|now apply Htwo].
      injection E as <- <- _. split; [now right|now apply (W s3 g n0)]. }
    destruct HL. now constructor.
Qed.

Lemma header_split_shape (s : str) :
  exists pre rest, header_split s = pre :: rest /\ triples rest.
Proof. apply header_split_from_shape. Qed.

Lemma markdown_section_spec (self : ChunkSplitter) (cs : list Chunk) (n : nat)
  (level hd raw : str) (cs' : list Chunk) (n' : nat) :
  markdown_section self cs n level hd raw = Ok (cs', n') ->
  exists out, cs' = cs ++ out /\ n' = n + List.length out /\
              numbered n out /\ Forall (section_chunk self level hd raw) out.
Proof.
  unfold markdown_section. fold (section_text level hd raw).
  destruct (estimate_tokens (section_text level hd raw) >? max_chunk_tokens self)%Z
    eqn:Eb.
  - intros H. apply paragraph_loop_spec in H as [out [C [N [U F]]]].
    simpl in *. exists out. repeat split; try assumption.
    eapply Forall_impl; [|exact F]. intros c Hc; now left.
  - intros H. apply bind_Ok in H as [h [Eh H]]. injection H as <- <-.
    eexists [_]. repeat split; [simpl; lia|].
    constructor; [|constructor]. right. unfold whole_section; simpl.
    repeat split; try assumption; try discriminate.
    rewrite Z.gtb_ltb in Eb. now apply Z.ltb_ge in Eb.
Qed.

Lemma markdown_section_total (self : ChunkSplitter) (cs : list Chunk)
  (n : nat) (level hd raw : str) :
  encodable level -> encodable hd -> encodable raw ->
  exists r, markdown_section self cs n level hd raw = Ok r.
Proof.
  intros Hl Hh Hr. unfold markdown_section.
  assert (Hsp : encodable (lit " ")) by (repeat constructor; now apply scalar_lit).
  assert (Hc : encodable (strip raw)) by now apply strip_Forall.
  assert (Hp : encodable (level ++ lit " " ++ hd ++ lit "\n\n")).
  { repeat (apply encodable_app; split); try assumption.
    apply blank_line_encodable. }
  assert (Hf : encodable (level ++ lit " " ++ hd ++ lit "\n\n" ++ strip raw)).
  { repeat (apply encodable_app; split); try assumption.
    apply blank_line_encodable. }
  destruct (_ >? _)%Z.
  - apply paragraph_loop_total; [now apply re_split_blank_Forall|exact Hp].
  - apply compute_hash_Ok in Hf as [h Eh].
    rewrite Eh; simpl. now eexists.
Qed.

End SplitFacts.

(** ** [split_markdown] as a whole, and the messages *)

Module DocFacts.

Import Py chunk_splitter Spec PyFacts Pieces LoopFacts SplitFacts.

Section Sections.

Variable self : ChunkSplitter.

(** An invariant of the chunk list and the counter that every section keeps
    is kept by the loop over the sections. *)
Lemma markdown_sections_inv (Inv : list Chunk -> nat -> Prop) :
  (forall cs n level hd raw cs' n',
      is_level level -> Inv cs n ->
      markdown_section self cs n level hd raw = Ok (cs', n') -> Inv cs' n') ->
  forall secs, triples secs ->
  forall cs n cs' n',
    Inv cs n -> markdown_sections self secs cs n = Ok (cs', n') -> Inv cs' n'.
Proof.
  intros Hstep secs T.
  induction T as [|level hd raw rest Hl Hh T IH]; intros cs n cs' n' HI.
  - simpl; intros H; now injection H as <- <-.
  - cbn [markdown_sections]; intros H.
    apply bind_Ok in H as [[cs1 n1] [E1 H]].
    apply (IH cs1 n1 cs' n'); [|exact H].
    now apply (Hstep cs n level hd raw).
Qed.

Lemma markdown_sections_total (secs : list str) :
  Forall encodable secs ->
  forall cs n, exists r, markdown_sections self secs cs n = Ok r.
Proof.
  revert secs.
  fix IH 1. intros secs Hs cs n.
  destruct secs as [|level [|hd [|raw rest]]]; try (now eexists).
  cbn [markdown_sections].
  inversion Hs as [|? ? Hl Hs1]; subst.
  inversion Hs1 as [|? ? Hh Hs2]; subst.
  inversion Hs2 as [|? ? Hr Hs3]; subst.
  destruct (markdown_section_total self cs n level hd raw Hl Hh Hr)
    as [[cs1 n1] E1].
  rewrite E1; simpl. apply IH. exact Hs3.
Qed.

End Sections.

(** The chunk of the text before the first header. *)
Lemma prologue_cases (pre : str) (cs : list Chunk) (n : nat) :
  (if truthy (strip pre) then
     h <- compute_hash (strip pre) ;;
     Ok ([mkChunk None (strip pre) 0 (lit "doc")
            (estimate_tokens (strip pre)) (Some h) None], 1)
   else Ok ([], 0)) = Ok (cs, n) ->
  (strip pre = [] /\ cs = [] /\ n = 0) \/
  (nonblank pre /\ exists h, compute_hash (strip pre) = Ok h /\
     cs = [mkChunk None (strip pre) 0 (lit "doc")
             (estimate_tokens (strip pre)) (Some h) None] /\ n = 1).
Proof.
  destruct (truthy (strip pre)) eqn:E.
  - intros H. apply bind_Ok in H as [h [Eh H]]. injection H as <- <-.
    right. split; [now apply truthy_strip|]. now exists h.
  - intros H. injection H as <- <-. left. now apply truthy_false in E.
Qed.

(** *** Messages *)

Lemma renumber_eq (sid : Z) (m : Message) (subs : list Chunk) (i : nat)
  (cs : list Chunk) (n : nat) :
  renumber sid m subs i cs n
  = (cs ++ sub_chunks_of sid m subs i n, n + List.length subs).
Proof.
  revert i cs n; induction subs as [|s subs IH]; intros i cs n; simpl.
  - now rewrite app_nil_r, Nat.add_0_r.
  - rewrite IH, <- app_assoc. simpl. f_equal. lia.
Qed.

Lemma sub_chunks_of_length (sid : Z) (m : Message) (subs : list Chunk)
  (i n : nat) :
  List.length (sub_chunks_of sid m subs i n) = List.length subs.
Proof.
  revert i n; induction subs as [|s subs IH]; intros i n; simpl;
    [reflexivity|now rewrite IH].
Qed.

Lemma sub_chunks_of_nth (sid : Z) (m : Message) (subs : list Chunk)
  (i n j : nat) (c : Chunk) :
  nth_error (sub_chunks_of sid m subs i n) j = Some c ->
  exists s, nth_error subs j = Some s /\
            c = sub_chunk_of sid m (i + j) (n + j) s.
Proof.
  revert i n j; induction subs as [|s subs IH]; intros i n j; simpl.
  - destruct j; discriminate.
  - destruct j as [|j]; simpl.
    + intros H; injection H as <-. exists s. now rewrite !Nat.add_0_r.
    + intros H. apply IH in H as [s' [E ->]]. exists s'.
      split; [exact E|]. f_equal; lia.
Qed.

Lemma sub_chunks_of_numbered (sid : Z) (m : Message) (subs : list Chunk)
  (i n : nat) :
  numbered n (sub_chunks_of sid m subs i n).
Proof.
  unfold numbered.
  revert i n; induction subs as [|s subs IH]; intros i n; simpl;
    [reflexivity|]. now rewrite IH.
Qed.

Section Messages.

Variable self : ChunkSplitter.
Variable sid : Z.

Lemma message_step_spec (cs : list Chunk) (n : nat) (m : Message)
  (cs' : list Chunk) (n' : nat) :
  message_step self sid (cs, n) m = Ok (cs', n') ->
  exists out, cs' = cs ++ out /\ n' = n + List.length out /\
              numbered n out /\ chunks_of_message self sid m n out.
Proof.
  unfold message_step, chunks_of_message. fold (kind_of m).
  destruct (estimate_tokens (content m) >? max_chunk_tokens self)%Z.
  - intros H. apply bind_Ok in H as [subs [Es H]].
    rewrite renumber_eq in H. injection H as <- <-.
    exists (sub_chunks_of sid m subs 0 n).
    repeat split.
    + now rewrite sub_chunks_of_length.
    + apply sub_chunks_of_numbered.
    + now exists subs.
  - intros H. apply bind_Ok in H as [h [Eh H]]. injection H as <- <-.
    eexists [_]. repeat split; [simpl; lia|]. now exists h.
Qed.

Lemma message_step_total (cs : list Chunk) (n : nat) (m : Message) :
  encodable (content m) ->
  exists r, message_step self sid (cs, n) m = Ok r.
Proof.
  intros Hm. unfold message_step.
  destruct (_ >? _)%Z.
  - destruct (split_plaintext_total self (content m)
                (if str_eqb (role m) (lit "assistant")
                 then lit "ai" else lit "note") Hm) as [subs E].
    rewrite E; simpl. now eexists.
  - apply compute_hash_Ok in Hm as [h Eh]. rewrite Eh; simpl. now eexists.
Qed.

Lemma messages_fold_total (ms : list Message) (st : list Chunk * nat) :
  Forall (fun m => encodable (content m)) ms ->
  exists r, foldM (message_step self sid) ms st = Ok r.
Proof.
  intros H; revert st; induction H as [|m ms Hm Hms IH]; intros [cs n];
    cbn [foldM].
  - now eexists.
  - destruct (message_step_total cs n m Hm) as [r E]. rewrite E.
    cbn [bind]. apply IH.
Qed.

Lemma messages_fold_numbered (ms : list Message) (cs : list Chunk) (n : nat)
  (cs' : list Chunk) (n' : nat) :
  foldM (message_step self sid) ms (cs, n) = Ok (cs', n') ->
  exists out, cs' = cs ++ out /\ n' = n + List.length out /\ numbered n out.
Proof.
  revert cs n; induction ms as [|m ms IH]; intros cs n; cbn [foldM].
  - intros H; injection H as <- <-. exists [].
    rewrite app_nil_r, Nat.add_0_r. repeat split.
  - intros H. apply bind_Ok in H as [[cs1 n1] [E1 H]].
    apply message_step_spec in E1 as [o1 [C1 [N1 [U1 _]]]].
    apply IH in H as [o2 [C2 [N2 U2]]].
    exists (o1 ++ o2). rewrite C2, C1, N2, N1, length_app, <- app_assoc.
    repeat split; [lia|].
    apply numbered_app; [exact U1|now rewrite <- N1].
Qed.

End Messages.

End DocFacts.

(** ** [int(words * 1.3)] in binary64 *)

Module FloatFacts.

Import Py.

Local Open Scope Z_scope.

(** The rounding keeps a value between its two neighbours at the last
    place. *)
Lemma round53_bounds (x : Z) :
  0 <= x < 2 ^ 101 ->
  exists s, 0 <= s <= 48 /\
            (x / 2 ^ s) * 2 ^ s <= round53 x <= (x / 2 ^ s + 1) * 2 ^ s.
Proof.
  intros [H0 H1]. unfold round53.
  destruct (Z.log2 x + 1 <=? 53) eqn:Eb.
  - exists 0. split; [lia|]. rewrite Z.pow_0_r, Z.div_1_r. lia.
  - apply Z.leb_gt in Eb.
    assert (Hx : 0 < x).
    { destruct (Z.eq_dec x 0) as [->|]; [discriminate Eb || (simpl in Eb; lia)|lia]. }
    assert (Hl : Z.log2 x < 101) by (apply Z.log2_lt_pow2; lia).
    set (s := Z.log2 x + 1 - 53).
    assert (Hs : 0 < s <= 48) by (unfold s; lia).
    exists s. split; [lia|].
    rewrite !Z.shiftl_mul_pow2, Z.shiftr_div_pow2 by lia.
    set (q := x / 2 ^ s).
    assert (Hp : 0 < 2 ^ s) by (apply Z.pow_pos_nonneg; lia).
    destruct (_ <? _); [lia|].
    destruct (_ <? _); [lia|].
    destruct (Z.even q); lia.
Qed.

Lemma mul_1_3_exact (w : Z) :
  0 <= w < 2 ^ 48 ->
  int_of_float52 (mul_1_3 (float_of_int w)) = Z.quot (13 * w) 10.
Proof.
  intros [H0 H1].
  assert (Ef : float_of_int w = w).
  { unfold float_of_int, round53.
    destruct (Z.eq_dec w 0) as [->|Hn]; [reflexivity|].
    assert (Z.log2 w < 48) by (apply Z.log2_lt_pow2; lia).
    destruct (Z.log2 w + 1 <=? 53) eqn:E; [reflexivity|].
    apply Z.leb_gt in E. lia. }
  rewrite Ef. unfold mul_1_3, int_of_float52.
  set (x := w * mant_1_3).
  set (n := 13 * w / 10).
  assert (Hn : 10 * n <= 13 * w <= 10 * n + 9).
  { unfold n. pose proof (Z.div_mod (13 * w) 10 ltac:(lia)).
    pose proof (Z.mod_pos_bound (13 * w) 10 ltac:(lia)). lia. }
  assert (Hx : 10 * x = 13 * w * 2 ^ 52 + 2 * w).
  { unfold x, mant_1_3. change (2 ^ 52) with 4503599627370496. lia. }
  assert (Hxr : 0 <= x < 2 ^ 101).
  { unfold x, mant_1_3. change (2 ^ 48) with 281474976710656 in H1.
    change (2 ^ 101) with 2535301200456458802993406410752. nia. }
  destruct (round53_bounds x Hxr) as [s [Hs [Hlo Hhi]]].
  set (y := round53 x) in *.
  assert (Hp : 0 < 2 ^ s) by (apply Z.pow_pos_nonneg; lia).
  assert (Hq : (x / 2 ^ s) * 2 ^ s <= x).
  { rewrite Z.mul_comm. apply Z.mul_div_le. exact Hp. }
  assert (Hps : 2 ^ s <= 2 ^ 48) by (apply Z.pow_le_mono_r; lia).
  assert (H52 : 2 ^ 52 = 2 ^ s * 2 ^ (52 - s)).
  { rewrite <- Z.pow_add_r by lia. f_equal. lia. }
  assert (Hr : 0 < 2 ^ (52 - s)) by (apply Z.pow_pos_nonneg; lia).
  assert (Hxn : n * 2 ^ 52 <= x).
  { change (2 ^ 52) with 4503599627370496 in *. lia. }
  assert (Hqn : n * 2 ^ (52 - s) <= x / 2 ^ s).
  { apply Z.div_le_lower_bound; [exact Hp|]. rewrite H52 in Hxn. lia. }
  assert (Hy1 : n * 2 ^ 52 <= y).
  { rewrite H52. nia. }
  assert (Hy2 : y < (n + 1) * 2 ^ 52).
  { change (2 ^ 52) with 4503599627370496 in *.
    change (2 ^ 48) with 281474976710656 in *. lia. }
  assert (Hn0 : 0 <= n) by (unfold n; apply Z.div_pos; lia).
  rewrite !Z.quot_div_nonneg by nia.
  fold n. symmetry.
  apply (Z.div_unique y (2 ^ 52) n (y - n * 2 ^ 52)); lia.
Qed.

End FloatFacts.

(** ** [str.split] *)

Module SplitWords.

Import Py.

(** The words are not empty, hold no whitespace, and together are the
    characters of the text that are not whitespace, in order. *)
Lemma rev_cons_nonempty (a : codepoint) (l : str) : rev (a :: l) <> [].
Proof.
  intros E. apply (f_equal (@List.length _)) in E.
  rewrite length_rev in E. discriminate.
Qed.

Lemma split_from_words (s cur : str) :
  forallb nonspace cur = true ->
  Forall (fun w => w <> [] /\ forallb nonspace w = true) (split_from s cur) /\
  concat (split_from s cur) = rev cur ++ filter nonspace s.
Proof.
  revert cur; induction s as [|c s IH]; intros cur Hc;
    cbn [split_from filter].
  - destruct cur as [|a cur'].
    + split; [constructor|reflexivity].
    + split.
      * constructor; [|constructor]. split; [apply rev_cons_nonempty|].
        now rewrite PyFacts.forallb_rev.
      * cbn [concat]. reflexivity.
  - assert (En : nonspace c = negb (isspace c)) by reflexivity.
    rewrite En. destruct (isspace c) eqn:Ec; cbn [negb] in *.
    + destruct (IH [] eq_refl) as [F E].
      destruct cur as [|a cur']; [now split|].
      split.
      * constructor; [|exact F]. split; [apply rev_cons_nonempty|].
        now rewrite PyFacts.forallb_rev.
      * cbn [concat]. now rewrite E.
    + destruct (IH (c :: cur)) as [F E].
      * cbn [forallb]. now rewrite En, Hc.
      * split; [exact F|]. rewrite E. cbn [rev]. now rewrite <- app_assoc.
Qed.

End SplitWords.

(** ** Properties of the splitters *)

Module Claims.

Import Py chunk_splitter Spec PyFacts Pieces LoopFacts SplitFacts DocFacts.

Lemma encodable_check (s : str) : forallb scalarb s = true -> encodable s.
Proof.
  intros H. apply Forall_forall. intros c Hc.
  rewrite forallb_forall in H. specialize (H c Hc).
  unfold scalar, scalarb in *. destruct (utf8_char c); [discriminate|discriminate].
Qed.

Lemma split_markdown_total (self : ChunkSplitter) (md : str) :
  encodable md -> exists cs, split_markdown self md = Ok cs.
Proof.
  intros Hm. unfold split_markdown.
  pose proof (header_split_Forall scalar (scalar_lit HASH eq_refl) md Hm) as HF.
  destruct (header_split md) as [|pre rest]; [now eexists|].
  inversion HF as [|? ? Hpre Hrest]; subst.
  assert (Hp : encodable (strip pre)) by now apply strip_Forall.
  assert (E0 : exists cs0 n0,
    (if truthy (strip pre) then
       h <- compute_hash (strip pre) ;;
       Ok ([mkChunk None (strip pre) 0 (lit "doc")
              (estimate_tokens (strip pre)) (Some h) None], 1)
     else Ok ([], 0)) = Ok (cs0, n0)).
  { destruct (truthy (strip pre)); [|now eexists; eexists].
    apply compute_hash_Ok in Hp as [h Eh]. rewrite Eh; simpl.
    now eexists; eexists. }
  destruct E0 as [cs0 [n0 E0]]. rewrite E0; cbn [bind].
  destruct (markdown_sections_total self rest Hrest cs0 n0) as [[cs1 n1] E1].
  rewrite E1; simpl. now eexists.
Qed.

(** All that [split_markdown] returns satisfies an invariant that holds of
    the prologue and that every section keeps. *)
Lemma split_markdown_inv (self : ChunkSplitter)
  (Inv : list Chunk -> nat -> Prop) :
  Inv [] 0 ->
  (forall pre h, nonblank pre -> compute_hash (strip pre) = Ok h ->
     Inv [mkChunk None (strip pre) 0 (lit "doc")
            (estimate_tokens (strip pre)) (Some h) None] 1) ->
  (forall cs n level hd raw cs' n',
      is_level level -> Inv cs n ->
      markdown_section self cs n level hd raw = Ok (cs', n') -> Inv cs' n') ->
  forall md cs, split_markdown self md = Ok cs -> exists n, Inv cs n.
Proof.
  intros H0 H1 Hstep md cs. unfold split_markdown.
  destruct (header_split_shape md) as [pre [rest [E T]]]. rewrite E.
  intros H. apply bind_Ok in H as [[cs0 n0] [E0 H]].
  apply bind_Ok in H as [[cs1 n1] [E1 H]]. injection H as <-.
  exists n1. apply (markdown_sections_inv self Inv Hstep rest T cs0 n0); [|exact E1].
  apply prologue_cases in E0 as [[_ [-> ->]]|[Hnb [h [Eh [-> ->]]]]];
    [exact H0|now apply H1].
Qed.

Lemma split_markdown_dense (self : ChunkSplitter) (md : str)
  (cs : list Chunk) :
  split_markdown self md = Ok cs -> dense cs.
Proof.
  intros H.
  destruct (split_markdown_inv self
              (fun cs n => numbered 0 cs /\ List.length cs = n)) with (md := md) (cs := cs)
    as [n [Hd _]]; try assumption.
  - now split.
  - intros; now split.
  - intros cs0 n0 level hd raw cs' n' _ [U L] E.
    apply markdown_section_spec in E as [out [-> [-> [U' _]]]].
    split; [|rewrite length_app; lia].
    apply numbered_app; [exact U|now rewrite L].
Qed.

Lemma split_session_messages_dense (self : ChunkSplitter) (sid : Z)
  (ms : list Message) (cs : list Chunk) :
  split_session_messages self sid ms = Ok cs -> dense cs.
Proof.
  unfold split_session_messages. intros H.
  apply bind_Ok in H as [[cs' n] [E H]]. injection H as <-.
  apply messages_fold_numbered in E as [out [-> [_ U]]]. exact U.
Qed.

Lemma split_session_messages_total (self : ChunkSplitter) (sid : Z)
  (ms : list Message) :
  encodable_messages ms -> exists cs, split_session_messages self sid ms = Ok cs.
Proof.
  intros H. unfold split_session_messages.
  destruct (messages_fold_total self sid ms ([], 0) H) as [[cs n] E].
  rewrite E; simpl. now eexists.
Qed.

(** C3 (ord density). Each of [split_plaintext], [split_markdown] and
    [split_session_messages] returns a chunk list whose [ord] fields are
    exactly 0, 1, ..., N-1 in list order; each returns whenever the text it
    is given can be encoded. *)
Theorem C3_ord_density (self : ChunkSplitter) :
  (forall text kind,
      returns (encodable text) (split_plaintext self text kind) dense) /\
  (forall markdown,
      returns (encodable markdown) (split_markdown self markdown) dense) /\
  (forall session_id messages,
      returns (encodable_messages messages)
        (split_session_messages self session_id messages) dense).
Proof.
  repeat split.
  - now apply split_plaintext_total.
  - intros cs H. now apply split_plaintext_spec in H.
  - now apply split_markdown_total.
  - intros cs H. now apply split_markdown_dense in H.
  - now apply split_session_messages_total.
  - intros cs H. now apply split_session_messages_dense in H.
Qed.

Lemma C3_ord_density_witness :
  encodable (lit "## A\n\nhello world\n\n## B\n\nfoo bar baz") /\
  exists cs,
    split_markdown default (lit "## A\n\nhello world\n\n## B\n\nfoo bar baz")
    = Ok cs /\ dense cs.
Proof.
  assert (He : encodable (lit "## A\n\nhello world\n\n## B\n\nfoo bar baz"))
    by (apply encodable_check; reflexivity).
  split; [exact He|].
  destruct (C3_ord_density default) as [_ [Hm _]].
  destruct (Hm (lit "## A\n\nhello world\n\n## B\n\nfoo bar baz")) as [Ht Hd].
  destruct (Ht He) as [cs E]. exists cs. split; [exact E|now apply Hd].
Defined.

(** *** Chunk texts *)

Lemma nonblank_cons (c : codepoint) (s : str) :
  isspace c = false -> nonblank (c :: s).
Proof.
  intros Hc E. apply strip_nil in E. simpl in E. now rewrite Hc in E.
Qed.

Lemma section_text_nonblank (level hd raw : str) :
  is_level level -> nonblank (section_text level hd raw).
Proof.
  intros [->| ->]; unfold section_text; simpl; now apply nonblank_cons.
Qed.

Lemma section_chunk_nonblank (self : ChunkSplitter) (level hd raw : str)
  (c : Chunk) :
  is_level level -> section_chunk self level hd raw c -> nonblank (text c).
Proof.
  intros Hl [Hb|Hw].
  - now apply from_buffer_nonblank in Hb.
  - destruct Hw as [_ [_ [Et _]]]. rewrite Et.
    now apply section_text_nonblank.
Qed.

Lemma split_markdown_nonblank (self : ChunkSplitter) (md : str)
  (cs : list Chunk) :
  split_markdown self md = Ok cs -> Forall (fun c => nonblank (text c)) cs.
Proof.
  intros H.
  destruct (split_markdown_inv self
              (fun cs _ => Forall (fun c => nonblank (text c)) cs))
    with (md := md) (cs := cs) as [n Hn]; try assumption.
  - constructor.
  - intros pre h Hnb _. constructor; [|constructor]. simpl.
    unfold nonblank in *. now rewrite strip_idem.
  - intros cs0 n0 level hd raw cs' n' Hl Hcs E.
    apply markdown_section_spec in E as [out [-> [_ [_ F]]]].
    apply Forall_app; split; [exact Hcs|].
    eapply Forall_impl; [|exact F].
    intros c Hc. now apply (section_chunk_nonblank self level hd raw).
Qed.

(** Every chunk of the messages is among the chunks of one message. *)
Lemma messages_fold_chunks (self : ChunkSplitter) (sid : Z)
  (ms : list Message) :
  forall cs n cs' n',
    foldM (message_step self sid) ms (cs, n) = Ok (cs', n') ->
    exists out,
      cs' = cs ++ out /\
      (forall c, In c out ->
         exists m n0 out_m,
           In m ms /\ chunks_of_message self sid m n0 out_m /\ In c out_m) /\
      (forall m, In m ms ->
         exists n0 out_m,
           chunks_of_message self sid m n0 out_m /\
           forall c, In c out_m -> In c out).
Proof.
  induction ms as [|m ms IH]; intros cs n cs' n'; cbn [foldM].
  - intros H; injection H as <- <-. exists []. rewrite app_nil_r.
    split; [reflexivity|]. split; [intros c []|intros m []].
  - intros H. apply bind_Ok in H as [[cs1 n1] [E1 H]].
    apply message_step_spec in E1 as [o1 [-> [_ [_ C1]]]].
    apply IH in H as [o2 [-> [H2 H3]]].
    exists (o1 ++ o2). split; [now rewrite app_assoc|]. split.
    + intros c Hc. apply in_app_or in Hc as [Hc|Hc].
      * exists m, n, o1. split; [now left|now split].
      * destruct (H2 c Hc) as [m' [n0 [om [Hm [Hcm Hin]]]]].
        exists m', n0, om. split; [now right|now split].
    + intros m' [<-|Hm'].
      * exists n, o1. split; [exact C1|]. intros c Hc.
        apply in_or_app. now left.
      * destruct (H3 m' Hm') as [n0 [om [Hcm Hin]]].
        exists n0, om. split; [exact Hcm|]. intros c Hc.
        apply in_or_app. right. now apply Hin.
Qed.

Lemma sub_chunks_of_In (sid : Z) (m : Message) (subs : list Chunk)
  (i n : nat) (c : Chunk) :
  In c (sub_chunks_of sid m subs i n) ->
  exists s, In s subs /\ text c = text s.
Proof.
  revert i n; induction subs as [|s subs IH]; intros i n; simpl; [intros []|].
  intros [<-|H].
  - exists s. split; [now left|reflexivity].
  - apply IH in H as [s' [Hs Et]]. exists s'. split; [now right|exact Et].
Qed.

(** Every chunk of [split_plaintext] and of [split_markdown] has a text that
    is not empty after trimming, and so has every sub-chunk of a message
    over the budget; a message within the budget becomes one chunk whose
    text is its content unchanged. *)
Lemma chunk_texts (self : ChunkSplitter) :
  (forall t k,
      returns (encodable t) (split_plaintext self t k)
        (Forall (fun c => nonblank (text c)))) /\
  (forall md,
      returns (encodable md) (split_markdown self md)
        (Forall (fun c => nonblank (text c)))) /\
  (forall sid ms,
      returns (encodable_messages ms) (split_session_messages self sid ms)
        (fun cs =>
           (forall c, In c cs ->
              nonblank (text c) \/
              exists m, In m ms /\ text c = content m /\
                (estimate_tokens (content m) <= max_chunk_tokens self)%Z) /\
           (forall m, In m ms ->
              (estimate_tokens (content m) <= max_chunk_tokens self)%Z ->
              exists c, In c cs /\ text c = content m))).
Proof.
  split; [|split].
  - intros t k. split; [now apply split_plaintext_total|].
    intros cs H. apply split_plaintext_spec in H as [_ F].
    eapply Forall_impl; [|exact F]. intros c Hc.
    now apply from_buffer_nonblank in Hc.
  - intros md. split; [now apply split_markdown_total|].
    intros cs H. now apply split_markdown_nonblank in H.
  - intros sid ms. split; [now apply split_session_messages_total|].
    intros cs H. unfold split_session_messages in H.
    apply bind_Ok in H as [[cs' n] [E H]]. injection H as <-.
    apply messages_fold_chunks in E as [out [-> [H2 H3]]]. simpl. split.
    + intros c Hc. destruct (H2 c Hc) as [m [n0 [om [Hm [Hcm Hin]]]]].
      unfold chunks_of_message in Hcm.
      destruct (estimate_tokens (content m) >? max_chunk_tokens self)%Z eqn:Eb.
      * left. destruct Hcm as [subs [Es ->]].
        apply sub_chunks_of_In in Hin as [s [Hs ->]].
        apply split_plaintext_spec in Es as [_ F].
        rewrite Forall_forall in F.
        now apply (from_buffer_nonblank None (kind_of m)), F.
      * right. destruct Hcm as [h [_ ->]]. destruct Hin as [<-|[]].
        exists m. split; [exact Hm|]. split; [reflexivity|].
        rewrite Z.gtb_ltb in Eb. now apply Z.ltb_ge in Eb.
    + intros m Hm Hle. destruct (H3 m Hm) as [n0 [om [Hcm Hin]]].
      unfold chunks_of_message in Hcm.
      replace (estimate_tokens (content m) >? max_chunk_tokens self)%Z
        with false in Hcm.
      * destruct Hcm as [h [_ ->]]. eexists. split; [apply Hin; now left|].
        reflexivity.
      * symmetry. rewrite Z.gtb_ltb. now apply Z.ltb_ge.
Qed.

Lemma split_from_blank (s : str) : blank s -> split_from s [] = [].
Proof.
  unfold blank. induction s as [|c s IH]; simpl; [reflexivity|].
  intros H. apply andb_true_iff in H as [Hc Hs]. rewrite Hc. now apply IH.
Qed.

Lemma estimate_tokens_blank (s : str) : blank s -> estimate_tokens s = 0%Z.
Proof.
  intros H. unfold estimate_tokens, split. now rewrite split_from_blank.
Qed.

(** C7 fails on the code. A message within the budget becomes a chunk with
    no test of its content: whatever the budget, if not negative, a message
    with empty or blank content is not dropped, its chunk has that content
    as text. The other paths (prologue, paragraph loop, sub-chunks of a
    message over the budget) drop what is blank. *)
Theorem C7_empty_message_chunk :
  (forall self sid ms m cs,
      (0 <= max_chunk_tokens self)%Z ->
      In m ms -> blank (content m) ->
      split_session_messages self sid ms = Ok cs ->
      exists c, In c cs /\ text c = content m /\ strip (text c) = []) /\
  split_session_messages default 1 [mkMessage (lit "") (lit "user") 4]
  = Ok [mkChunk (Some (lit "Message 4 (user)")) (lit "") 0 (lit "note") 0
          (Some (lit "e3b0c44298fc1c149afbf4c8996fb92427ae41e4649b934ca495991b7852b855"))
          (Some [("session_id"%string, MInt 1);
                 ("message_step"%string, MInt 4);
                 ("message_role"%string, MStr (lit "user"))])] /\
  split_session_messages default 1 [mkMessage (lit " \n ") (lit "user") 4]
  = Ok [mkChunk (Some (lit "Message 4 (user)")) (lit " \n ") 0 (lit "note") 0
          (Some (lit "cd686159289a5e43faaaa62c47b7ade385f9d234ea501782d39959d35a8183f6"))
          (Some [("session_id"%string, MInt 1);
                 ("message_step"%string, MInt 4);
                 ("message_role"%string, MStr (lit "user"))])].
Proof.
  split; [|split; vm_compute; reflexivity].
  intros self sid ms m cs HT Hm Hb H.
  destruct (chunk_texts self) as [_ [_ Hs]].
  destruct (Hs sid ms) as [_ Hr]. destruct (Hr cs H) as [_ Hin].
  destruct (Hin m Hm) as [c [Hc Et]].
  - rewrite (estimate_tokens_blank _ Hb). exact HT.
  - exists c. split; [exact Hc|]. split; [exact Et|].
    rewrite Et. now apply strip_nil.
Qed.

Lemma C7_empty_message_chunk_witness :
  (0 <= max_chunk_tokens default)%Z /\
  In (mkMessage (lit " ") (lit "assistant") 2)
     [mkMessage (lit "hello") (lit "user") 1;
      mkMessage (lit " ") (lit "assistant") 2] /\
  blank (lit " ") /\
  exists cs c,
    split_session_messages default 1
      [mkMessage (lit "hello") (lit "user") 1;
       mkMessage (lit " ") (lit "assistant") 2] = Ok cs /\
    In c cs /\ text c = lit " " /\ strip (text c) = [].
Proof.
  assert (HT : (0 <= max_chunk_tokens default)%Z) by (simpl; lia).
  assert (Hm : In (mkMessage (lit " ") (lit "assistant") 2)
                 [mkMessage (lit "hello") (lit "user") 1;
                  mkMessage (lit " ") (lit "assistant") 2])
    by (right; left; reflexivity).
  assert (Hb : blank (lit " ")) by reflexivity.
  split; [exact HT|]. split; [exact Hm|]. split; [exact Hb|].
  destruct (split_session_messages_total default 1
              [mkMessage (lit "hello") (lit "user") 1;
               mkMessage (lit " ") (lit "assistant") 2]) as [cs E].
  - constructor; [apply encodable_check; reflexivity|].
    constructor; [apply encodable_check; reflexivity|constructor].
  - destruct (proj1 C7_empty_message_chunk default 1%Z _ _ cs HT Hm Hb E)
      as [c [Hc [Et Es]]].
    exists cs, c. now repeat split.
Defined.

(** *** Messages *)

Lemma numbered_nth (out : list Chunk) :
  forall n i c, numbered n out -> nth_error out i = Some c -> ord c = n + i.
Proof.
  unfold numbered.
  induction out as [|a out IH]; intros n i c H E.
  - destruct i; discriminate.
  - simpl in H. injection H as Ha Hr. destruct i as [|i]; simpl in E.
    + injection E as <-. lia.
    + rewrite (IH (S n) i c Hr E). lia.
Qed.

Lemma sub_chunk_of_index (sid : Z) (m : Message) (i n : nat) (s : Chunk) :
  sub_chunk (sub_chunk_of sid m i n s) = Some (MInt (Z.of_nat i)).
Proof. reflexivity. Qed.

(** C5 (message ordering continuity). [split_session_messages] threads one
    [ord] counter through the messages: the chunks of a message follow those
    of the messages before it and are numbered from their count on, and the
    sub-chunks of a message over the budget carry in
    [metadata['sub_chunk']] their index within the message. For three
    messages of which only the second is over the budget and splits in two,
    the chunks are numbered 0, 1, 2, 3 and the two sub-chunks carry
    [sub_chunk] 0 and 1. *)
Theorem C5_message_ordering_continuity (self : ChunkSplitter) (sid : Z) :
  (forall ms1 m ms2,
      returns (encodable_messages (ms1 ++ m :: ms2))
        (split_session_messages self sid (ms1 ++ m :: ms2))
        (fun cs =>
           exists before mine after,
             split_session_messages self sid ms1 = Ok before /\
             cs = before ++ mine ++ after /\
             chunks_of_message self sid m (List.length before) mine /\
             (forall i c,
                 nth_error mine i = Some c ->
                 ord c = List.length before + i /\
                 ((estimate_tokens (content m) > max_chunk_tokens self)%Z ->
                  sub_chunk c = Some (MInt (Z.of_nat i)))) /\
             numbered (List.length before + List.length mine) after)) /\
  (forall m1 m2 m3 s0 s1,
      (estimate_tokens (content m1) <= max_chunk_tokens self)%Z ->
      (estimate_tokens (content m2) > max_chunk_tokens self)%Z ->
      (estimate_tokens (content m3) <= max_chunk_tokens self)%Z ->
      split_plaintext self (content m2) (kind_of m2) = Ok [s0; s1] ->
      encodable (content m1) -> encodable (content m3) ->
      exists c0 c1 c2 c3,
        split_session_messages self sid [m1; m2; m3] = Ok [c0; c1; c2; c3] /\
        map ord [c0; c1; c2; c3] = [0; 1; 2; 3] /\
        text c0 = content m1 /\ text c1 = text s0 /\
        text c2 = text s1 /\ text c3 = content m3 /\
        sub_chunk c0 = None /\
        sub_chunk c1 = Some (MInt 0) /\ sub_chunk c2 = Some (MInt 1) /\
        sub_chunk c3 = None).
Proof.
  split.
  - intros ms1 m ms2. split; [now apply split_session_messages_total|].
    intros cs H. unfold split_session_messages in H.
    apply bind_Ok in H as [[cs' n] [E H]]. injection H as <-.
    rewrite foldM_app in E. apply bind_Ok in E as [[before nb] [Eb E]].
    cbn [foldM] in E. apply bind_Ok in E as [[cs1 n1] [Em Ea]].
    pose proof (messages_fold_numbered self sid ms1 [] 0 before nb Eb)
      as [o1 [C1 [N1 _]]].
    simpl in C1, N1. subst o1. subst nb.
    apply message_step_spec in Em as [mine [-> [-> [Um Cm]]]].
    apply messages_fold_numbered in Ea as [after [-> [_ Ua]]].
    exists before, mine, after.
    split; [unfold split_session_messages; now rewrite Eb|].
    split; [now rewrite app_assoc|]. split; [exact Cm|]. split; [|exact Ua].
    intros i c Hi. split; [now apply (numbered_nth mine)|].
    intros Hover. unfold chunks_of_message in Cm.
    replace (estimate_tokens (content m) >? max_chunk_tokens self)%Z
      with true in Cm
      by (symmetry; rewrite Z.gtb_ltb; apply Z.ltb_lt; lia).
    destruct Cm as [subs [_ ->]].
    apply sub_chunks_of_nth in Hi as [s [_ ->]].
    apply sub_chunk_of_index.
  - intros m1 m2 m3 s0 s1 H1 H2 H3 Es He1 He3.
    apply compute_hash_Ok in He1 as [h1 Eh1].
    apply compute_hash_Ok in He3 as [h3 Eh3].
    assert (B1 : (estimate_tokens (content m1) >? max_chunk_tokens self)%Z
                 = false) by (rewrite Z.gtb_ltb; apply Z.ltb_ge; lia).
    assert (B2 : (estimate_tokens (content m2) >? max_chunk_tokens self)%Z
                 = true) by (rewrite Z.gtb_ltb; apply Z.ltb_lt; lia).
    assert (B3 : (estimate_tokens (content m3) >? max_chunk_tokens self)%Z
                 = false) by (rewrite Z.gtb_ltb; apply Z.ltb_ge; lia).
    unfold split_session_messages. cbn [foldM]. unfold message_step.
    fold (kind_of m1) (kind_of m2) (kind_of m3).
    rewrite B1, Eh1. cbn [bind]. rewrite B2, Es. cbn [bind renumber app].
    rewrite B3, Eh3. cbn [bind app].
    do 4 eexists. split; [reflexivity|]. repeat split.
Qed.

Lemma C5_message_ordering_continuity_witness :
  exists c0 c1 c2 c3,
    split_session_messages (mkChunkSplitter 3 50 50) 7
      [mkMessage (lit "hi") (lit "user") 1;
       mkMessage (lit "a b\n\nc d") (lit "assistant") 2;
       mkMessage (lit "bye") (lit "user") 3]
    = Ok [c0; c1; c2; c3] /\
    map ord [c0; c1; c2; c3] = [0; 1; 2; 3] /\
    map text [c0; c1; c2; c3] = [lit "hi"; lit "a b"; lit "c d"; lit "bye"] /\
    map sub_chunk [c0; c1; c2; c3] = [None; Some (MInt 0); Some (MInt 1); None].
Proof.
  assert (Hs : exists s0 s1,
             split_plaintext (mkChunkSplitter 3 50 50) (lit "a b\n\nc d")
               (lit "ai") = Ok [s0; s1] /\
             text s0 = lit "a b" /\ text s1 = lit "c d").
  { do 2 eexists. split; [vm_compute; reflexivity|]. split; reflexivity. }
  destruct Hs as [s0 [s1 [Es [T0 T1]]]].
  destruct (proj2 (C5_message_ordering_continuity (mkChunkSplitter 3 50 50) 7)
              (mkMessage (lit "hi") (lit "user") 1)
              (mkMessage (lit "a b\n\nc d") (lit "assistant") 2)
              (mkMessage (lit "bye") (lit "user") 3) s0 s1)
    as [c0 [c1 [c2 [c3 [E [Ho [E0 [E1 [E2 [E3 [S0 [S1 [S2 S3]]]]]]]]]]]]].
  - vm_compute; discriminate.
  - vm_compute; reflexivity.
  - vm_compute; discriminate.
  - exact Es.
  - apply encodable_check; reflexivity.
  - apply encodable_check; reflexivity.
  - exists c0, c1, c2, c3. split; [exact E|]. split; [exact Ho|].
    split.
    + cbn [map]. now rewrite E0, E1, E2, E3, T0, T1.
    + cbn [map]. now rewrite S0, S1, S2, S3.
Defined.

(** *** Blank and non-blank buffers *)

Lemma nonblank_not_blank (s : str) : nonblank s <-> ~ blank s.
Proof. unfold nonblank, blank. now rewrite strip_nil. Qed.

Lemma blank_app (a b : str) : blank (a ++ b) <-> blank a /\ blank b.
Proof. unfold blank. rewrite forallb_app. apply andb_true_iff. Qed.

Lemma nonblank_app_l (a b : str) : nonblank a -> nonblank (a ++ b).
Proof. rewrite !nonblank_not_blank, blank_app. tauto. Qed.

Lemma nonblank_app_r (a b : str) : nonblank b -> nonblank (a ++ b).
Proof. rewrite !nonblank_not_blank, blank_app. tauto. Qed.

(** When all the paragraphs are blank, so is the text. *)
Lemma re_split_blank_from_blank (s cur : str) (in_sep : bool) :
  Forall blank (re_split_blank_from s cur in_sep) -> blank cur /\ blank s.
Proof.
  revert cur in_sep; induction s as [|c s IH]; intros cur in_sep;
    cbn [re_split_blank_from].
  - intros H. inversion H as [|? ? Hc _]; subst. unfold blank in *.
    rewrite forallb_rev in Hc. now split.
  - destruct (c =? LF)%N eqn:Ec.
    + apply N.eqb_eq in Ec. subst c.
      assert (HL : forall l, blank l -> blank (LF :: l)) by (intros l Hl; exact Hl).
      destruct in_sep.
      * intros H. apply IH in H as [Hc Hs]. split; [exact Hc|now apply HL].
      * destruct s as [|c2 s'].
        -- intros H. apply IH in H as [Hc Hs]. split; [|reflexivity].
           unfold blank in *. simpl in Hc. exact Hc.
        -- destruct (c2 =? LF)%N.
           ++ intros H. apply Forall_cons_iff in H as [Hc Hr].
              apply IH in Hr as [_ Hs]. split; [|now apply HL].
              unfold blank in *. now rewrite forallb_rev in Hc.
           ++ intros H. apply IH in H as [Hc Hs]. split; [|now apply HL].
              unfold blank in *. simpl in Hc. exact Hc.
    + intros H. apply IH in H as [Hc Hs]. unfold blank in *.
      simpl in Hc. apply andb_true_iff in Hc as [Hc1 Hc2].
      split; [exact Hc2|]. simpl. now rewrite Hc1.
Qed.

Lemma nonblank_paragraph (t : str) :
  nonblank t -> Exists nonblank (re_split_blank t).
Proof.
  intros H. apply nonblank_not_blank in H.
  destruct (Exists_dec nonblank (re_split_blank t)) as [E|N]; [|exact E|].
  - intros p. unfold nonblank.
    destruct (strip p); [right; congruence|left; discriminate].
  - exfalso. apply H.
    apply (re_split_blank_from_blank t [] false).
    apply Forall_forall. intros p Hp.
    destruct (forallb isspace p) eqn:Eb; [exact Eb|].
    exfalso. apply N. apply Exists_exists. exists p. split; [exact Hp|].
    apply nonblank_not_blank. unfold blank. congruence.
Qed.

Section Content.

Variable self : ChunkSplitter.
Variable hd : option str.
Variable k : str.

Lemma flush_content (cs : list Chunk) (n : nat) (cur : str)
  (cs' : list Chunk) (n' : nat) :
  flush hd k cs n cur = Ok (cs', n') ->
  cs <> [] \/ nonblank cur -> cs' <> [].
Proof.
  intros H. apply flush_cases in H as [[E [-> ->]]|[_ [h [_ [-> ->]]]]].
  - intros [Hc|Hn]; [exact Hc|]. now elim Hn.
  - intros _ E. now apply app_eq_nil in E as [_ E].
Qed.

Lemma paragraph_step_content (b b' : Buffer) (para : str) :
  paragraph_step self hd k b para = Ok b' ->
  has_content b \/ nonblank para -> has_content b'.
Proof.
  unfold paragraph_step, has_content.
  destruct (_ >? _)%Z.
  - intros H. apply bind_Ok in H as [[cs n] [Ef H]]. injection H as <-.
    cbn [chunks current_chunk]. intros [Hb|Hp].
    + left. now apply (flush_content _ _ _ _ _ Ef).
    + right. now apply nonblank_app_l.
  - intros H. injection H as <-. cbn [chunks current_chunk].
    intros [[Hc|Hn]|Hp].
    + now left.
    + right. now apply nonblank_app_l.
    + right. now apply nonblank_app_r, nonblank_app_l.
Qed.

Lemma paragraph_fold_content (ps : list str) :
  forall b b',
    foldM (paragraph_step self hd k) ps b = Ok b' ->
    has_content b \/ Exists nonblank ps -> has_content b'.
Proof.
  induction ps as [|p ps IH]; intros b b'; cbn [foldM].
  - intros H; injection H as <-. intros [Hb|He]; [exact Hb|inversion He].
  - intros H. apply bind_Ok in H as [b1 [E1 H]]. intros Hc.
    apply (IH b1 b' H).
    destruct Hc as [Hb|He].
    + left. apply (paragraph_step_content b b1 p E1). now left.
    + inversion He as [? ? Hp|? ? Hr]; subst.
      * left. apply (paragraph_step_content b b1 p E1). now right.
      * now right.
Qed.

End Content.

(** C8, as the code has it (no validation of the configuration). For every
    [max_chunk_tokens], the non-positive ones included, [__init__] succeeds
    and stores its arguments as they are, and the splitters run with that
    configuration: they return a chunk list for every text that can be
    encoded, and [split_plaintext] returns at least one chunk for a text
    that is not blank. *)
Theorem C8_no_validation (max_tokens min_tokens overlap : Z) :
  init max_tokens min_tokens overlap
  = Ok (mkChunkSplitter max_tokens min_tokens overlap) /\
  (forall t k,
      returns (encodable t)
        (split_plaintext (mkChunkSplitter max_tokens min_tokens overlap) t k)
        (fun cs => nonblank t -> cs <> [])) /\
  (forall md,
      encodable md ->
      exists cs,
        split_markdown (mkChunkSplitter max_tokens min_tokens overlap) md
        = Ok cs) /\
  (forall sid ms,
      encodable_messages ms ->
      exists cs,
        split_session_messages
          (mkChunkSplitter max_tokens min_tokens overlap) sid ms = Ok cs).
Proof.
  split; [reflexivity|]. split; [|split].
  - intros t k. split; [now apply split_plaintext_total|].
    intros cs H Hnb. unfold split_plaintext, paragraph_loop in H.
    apply bind_Ok in H as [[cs' n] [E H]]. injection H as <-.
    apply bind_Ok in E as [b [Ef E]].
    apply (flush_content None k _ _ _ _ _ E).
    apply (paragraph_fold_content _ None k _ _ _ Ef).
    right. now apply nonblank_paragraph.
  - intros md. apply split_markdown_total.
  - intros sid ms. apply split_session_messages_total.
Qed.

Lemma C8_no_validation_witness :
  encodable (lit "hello world") /\
  exists cs,
    split_plaintext (mkChunkSplitter (-5) 50 50) (lit "hello world") (lit "doc")
    = Ok cs /\ cs <> [].
Proof.
  assert (He : encodable (lit "hello world"))
    by (apply encodable_check; reflexivity).
  split; [exact He|].
  destruct (C8_no_validation (-5) 50 50) as [_ [Hp _]].
  destruct (Hp (lit "hello world") (lit "doc")) as [Ht Hn].
  destruct (Ht He) as [cs E]. exists cs. split; [exact E|].
  apply (Hn cs E). apply nonblank_cons. reflexivity.
Defined.

(** C8 as stated fails: with [max_chunk_tokens] 0 or negative the splitter
    is built and splits; neither call raises. *)
Lemma C8_counterexample :
  (init 0 50 50 = Ok (mkChunkSplitter 0 50 50) /\
   split_plaintext (mkChunkSplitter 0 50 50) (lit "hello world") (lit "doc")
   = Ok [mkChunk None (lit "hello world") 0 (lit "doc") 2
           (Some (lit "3ad08644ab5aa81626a4c41c253a82da9a7cd9843f74486b8b492dff8e8ab690"))
           None] /\
   init (-5) 50 50 = Ok (mkChunkSplitter (-5) 50 50) /\
   split_plaintext (mkChunkSplitter (-5) 50 50) (lit "hello world") (lit "doc")
   = Ok [mkChunk None (lit "hello world") 0 (lit "doc") 2
           (Some (lit "3ad08644ab5aa81626a4c41c253a82da9a7cd9843f74486b8b492dff8e8ab690"))
           None]) /\
  ~ (forall max_tokens : Z,
        (max_tokens <= 0)%Z ->
        (exists e, init max_tokens 50 50 = Raise e) \/
        (exists e,
            split_plaintext (mkChunkSplitter max_tokens 50 50)
              (lit "hello world") (lit "doc") = Raise e)).
Proof.
  split; [repeat split; vm_compute; reflexivity|].
  intros H. destruct (H 0%Z ltac:(lia)) as [[e E]|[e E]].
  - discriminate E.
  - vm_compute in E. discriminate E.
Qed.

(** *** The seed of a section *)

Lemma section_prefix_nonblank (level hd : str) :
  is_level level -> nonblank (section_prefix level hd).
Proof.
  intros [->| ->]; unfold section_prefix; simpl; now apply nonblank_cons.
Qed.

(** C9 as stated fails: the first chunk of this section over the budget is
    the heading alone, though the flush was to leave out a buffer that holds
    the seed only. *)
Lemma C9_counterexample :
  (split_markdown (mkChunkSplitter 3 50 50) (lit "## H\n\na b c d")
   = Ok [mkChunk (Some (lit "H")) (lit "## H") 0 (lit "doc") 2
           (Some (lit "d25aa439e01455a1ad2d0723df7cc26aed4d6cef19c722b44bf0a6f77c34267a"))
           None;
         mkChunk (Some (lit "H")) (lit "a b c d") 1 (lit "doc") 5
           (Some (lit "af411bd6464334eb6d0950b6b8acf8e534f32a64e6f61798a2d68d31c7000501"))
           None] /\
   strip (section_prefix (lit "##") (lit "H")) = lit "## H" /\
   (estimate_tokens (lit "a b c d") > 3)%Z) /\
  ~ (forall cs,
        split_markdown (mkChunkSplitter 3 50 50) (lit "## H\n\na b c d") = Ok cs ->
        Forall (fun c => text c <> strip (section_prefix (lit "##") (lit "H")))
          cs).
Proof.
  assert (E : split_markdown (mkChunkSplitter 3 50 50) (lit "## H\n\na b c d")
   = Ok [mkChunk (Some (lit "H")) (lit "## H") 0 (lit "doc") 2
           (Some (lit "d25aa439e01455a1ad2d0723df7cc26aed4d6cef19c722b44bf0a6f77c34267a"))
           None;
         mkChunk (Some (lit "H")) (lit "a b c d") 1 (lit "doc") 5
           (Some (lit "af411bd6464334eb6d0950b6b8acf8e534f32a64e6f61798a2d68d31c7000501"))
           None]) by (vm_compute; reflexivity).
  split; [split; [exact E|split; vm_compute; reflexivity]|].
  intros H. specialize (H _ E). apply Forall_inv in H. apply H. reflexivity.
Qed.

(** *** Budget and hash at concrete inputs *)

Lemma one_word_paragraphs_snoc (n : nat) :
  one_word_paragraphs n ++ lit "a" ++ lit "\n\n" = one_word_paragraphs (S n).
Proof.
  unfold one_word_paragraphs. induction n as [|n IH]; [reflexivity|].
  cbn [repeat concat]. now rewrite <- app_assoc, IH.
Qed.

Lemma one_word_paragraphs_split (n : nat) (in_sep : bool) :
  re_split_blank_from (one_word_paragraphs n) [] in_sep
  = repeat (lit "a") n ++ [lit ""].
Proof.
  revert in_sep. induction n as [|n IH]; intros in_sep; [reflexivity|].
  change (one_word_paragraphs (S n))
    with (97%N :: 10%N :: 10%N :: one_word_paragraphs n).
  cbn [re_split_blank_from N.eqb Pos.eqb LF repeat app rev].
  simpl. now rewrite IH.
Qed.

Lemma one_word_paragraphs_words (n : nat) (w : str) :
  split_from (one_word_paragraphs n ++ w) [] = repeat (lit "a") n ++ split_from w [].
Proof.
  induction n as [|n IH]; [reflexivity|].
  change (one_word_paragraphs (S n) ++ w)
    with (97%N :: 10%N :: 10%N :: (one_word_paragraphs n ++ w)).
  simpl. now rewrite IH.
Qed.

Lemma one_word_paragraphs_encodable (n : nat) :
  encodable (one_word_paragraphs n).
Proof.
  unfold one_word_paragraphs. induction n as [|n IH]; [constructor|].
  cbn [repeat concat]. apply encodable_app. split; [|exact IH].
  apply encodable_check. reflexivity.
Qed.

(** While the running total stays within the budget, one-word paragraphs
    are appended to the buffer. *)
Lemma one_word_paragraphs_fold (self : ChunkSplitter) (k : str) (n : nat) :
  forall j,
    (Z.of_nat (j + n) <= max_chunk_tokens self)%Z ->
    foldM (paragraph_step self None k) (repeat (lit "a") n)
      (mkBuffer [] (one_word_paragraphs j) (Z.of_nat j) 0)
    = Ok (mkBuffer [] (one_word_paragraphs (j + n)) (Z.of_nat (j + n)) 0).
Proof.
  induction n as [|n IH]; intros j Hj.
  - now rewrite Nat.add_0_r.
  - cbn [repeat foldM]. unfold paragraph_step at 1.
    cbn [current_tokens chunks current_chunk ord_counter].
    change (estimate_tokens (lit "a")) with 1%Z.
    replace (Z.of_nat j + 1 >? max_chunk_tokens self)%Z with false
      by (symmetry; rewrite Z.gtb_ltb; apply Z.ltb_ge; lia).
    cbn [bind]. rewrite one_word_paragraphs_snoc.
    replace (Z.of_nat j + 1)%Z with (Z.of_nat (S j)) by lia.
    rewrite (IH (S j)) by lia.
    replace (S j + n) with (j + S n) by lia. reflexivity.
Qed.

(** C1 fails on the code. The loop adds up the estimates of the paragraphs,
    each truncated, and the chunk carries the estimate of the joined text.
    For every budget [T] from 4 on, [T] paragraphs of one word, one token
    each, are packed into one chunk, whose [token_est] is [13 T / 10], above
    [T]: for a budget of 4 the chunk has [token_est] 5. With the default
    budget of 500, 166 paragraphs of three words give one chunk with
    [token_est] 647. No paragraph is over the budget. *)
Theorem C1_budget_exceeded :
  (forall (n : nat) (min_tokens overlap : Z) (k : str),
      (4 <= Z.of_nat n < 2 ^ 48)%Z ->
      exists c,
        split_plaintext (mkChunkSplitter (Z.of_nat n) min_tokens overlap)
          (one_word_paragraphs n) k = Ok [c] /\
        token_est c = (13 * Z.of_nat n / 10)%Z /\
        (token_est c > Z.of_nat n)%Z /\
        Forall (fun p => (estimate_tokens p <= 1)%Z)
          (re_split_blank (one_word_paragraphs n))) /\
  (split_plaintext (mkChunkSplitter 4 50 50) (lit "a\n\nb\n\nc\n\nd") (lit "doc")
   = Ok [mkChunk None (lit "a\n\nb\n\nc\n\nd") 0 (lit "doc") 5
           (Some (lit "4a90723fdc4de15104903e0399003bbb584f6c56e53b74b0dbf6937896ac416c"))
           None] /\
   map estimate_tokens (re_split_blank (lit "a\n\nb\n\nc\n\nd"))
   = [1; 1; 1; 1]%Z) /\
  (exists c,
      split_plaintext default short_paragraphs (lit "doc") = Ok [c] /\
      token_est c = 647%Z /\
      Forall (fun p => (estimate_tokens p <= 3)%Z)
        (re_split_blank short_paragraphs)).
Proof.
  split; [|split].
  - intros n mn ov k Hn.
    set (self := mkChunkSplitter (Z.of_nat n) mn ov).
    set (buf := one_word_paragraphs n ++ lit "" ++ lit "\n\n").
    assert (Hb : encodable buf).
    { apply encodable_app. split; [apply one_word_paragraphs_encodable|].
      apply encodable_check. reflexivity. }
    apply compute_hash_Ok in Hb as [h Eh].
    assert (Hnb : truthy (strip buf) = true).
    { apply truthy_strip. unfold buf. apply nonblank_app_l.
      destruct n as [|n]; [simpl in Hn; lia|].
      change (one_word_paragraphs (S n))
        with (97%N :: 10%N :: 10%N :: one_word_paragraphs n).
      now apply nonblank_cons. }
    assert (Hw : estimate_tokens buf = (13 * Z.of_nat n / 10)%Z).
    { unfold estimate_tokens, split, buf.
      rewrite one_word_paragraphs_words. simpl split_from.
      rewrite app_nil_r, repeat_length, FloatFacts.mul_1_3_exact by lia.
      apply Z.quot_div_nonneg; lia. }
    exists (mkChunk None (strip buf) 0 k (estimate_tokens buf) (Some h) None).
    split; [|split; [exact Hw|split]].
    + unfold split_plaintext, re_split_blank, paragraph_loop.
      rewrite one_word_paragraphs_split, foldM_app.
      change (mkBuffer [] [] 0%Z 0)
        with (mkBuffer [] (one_word_paragraphs 0) (Z.of_nat 0) 0).
      rewrite (one_word_paragraphs_fold self k n 0) by (simpl; lia).
      cbn [bind foldM Nat.add]. unfold paragraph_step.
      cbn [current_tokens chunks current_chunk ord_counter].
      change (estimate_tokens (lit "")) with 0%Z.
      replace (Z.of_nat n + 0 >? max_chunk_tokens self)%Z with false
        by (symmetry; rewrite Z.gtb_ltb; apply Z.ltb_ge; simpl; lia).
      cbn [bind chunks current_chunk ord_counter]. unfold flush.
      fold buf. rewrite Hnb, Eh. reflexivity.
    + cbn [token_est]. rewrite Hw.
      assert (Z.of_nat n + 1 <= 13 * Z.of_nat n / 10)%Z
        by (apply Z.div_le_lower_bound; lia).
      lia.
    + unfold re_split_blank. rewrite one_word_paragraphs_split.
      apply Forall_app. split.
      * apply Forall_forall. intros p Hp. apply repeat_spec in Hp. subst p.
        vm_compute. discriminate.
      * constructor; [vm_compute; discriminate|constructor].
  - split; vm_compute; reflexivity.
  - eexists. split; [vm_compute; reflexivity|]. split; [reflexivity|].
    apply Forall_forall. intros p Hp.
    assert (H : forallb (fun p => (estimate_tokens p <=? 3)%Z)
                  (re_split_blank short_paragraphs) = true)
      by (vm_compute; reflexivity).
    rewrite forallb_forall in H. apply Z.leb_le. now apply H.
Qed.

Lemma C1_budget_exceeded_witness :
  (4 <= Z.of_nat 10 < 2 ^ 48)%Z /\
  exists c,
    split_plaintext (mkChunkSplitter (Z.of_nat 10) 50 50)
      (one_word_paragraphs 10) (lit "doc") = Ok [c] /\
    token_est c = 13%Z /\ (token_est c > 10)%Z.
Proof.
  assert (H : (4 <= Z.of_nat 10 < 2 ^ 48)%Z)
    by (split; [discriminate|reflexivity]).
  split; [exact H|].
  destruct (proj1 C1_budget_exceeded 10 50%Z 50%Z (lit "doc") H)
    as [c [E [Et [Hgt _]]]].
  exists c. split; [exact E|]. split; [exact Et|exact Hgt].
Defined.

Lemma closed_not_trimmed (buf : str) : closed buf -> buf <> strip buf.
Proof.
  intros [s ->] E. unfold strip, rstrip in E.
  apply (f_equal (@rev _)) in E. rewrite rev_involutive, rev_app_distr in E.
  simpl in E. symmetry in E. now apply lstrip_head in E.
Qed.

Section Hashes.

Variable self : ChunkSplitter.
Variable hd : option str.
Variable k : str.

Lemma flush_hashes (cs : list Chunk) (n : nat) (cur : str)
  (cs' : list Chunk) (n' : nat) :
  flush hd k cs n cur = Ok (cs', n') ->
  hash_inv cs cur -> Forall hashed_untrimmed cs'.
Proof.
  intros H [Hcs Hcur].
  apply flush_cases in H as [[_ [-> _]]|[Hn [h [Eh [-> _]]]]]; [exact Hcs|].
  apply Forall_app; split; [exact Hcs|]. constructor; [|constructor].
  destruct Hcur as [->|Hc]; [now elim Hn|].
  exists cur, h. simpl. repeat split; try assumption.
  now apply closed_not_trimmed.
Qed.

Lemma paragraph_step_hashes (b b' : Buffer) (para : str) :
  paragraph_step self hd k b para = Ok b' ->
  hash_inv (chunks b) (current_chunk b) -> hash_inv (chunks b') (current_chunk b').
Proof.
  unfold paragraph_step. destruct (_ >? _)%Z.
  - intros H Hi. apply bind_Ok in H as [[cs n] [Ef H]]. injection H as <-.
    cbn [chunks current_chunk]. split.
    + now apply (flush_hashes _ _ _ _ _ Ef).
    + right. now exists para.
  - intros H [Hcs _]. injection H as <-. cbn [chunks current_chunk].
    split; [exact Hcs|]. right. exists (current_chunk b ++ para).
    now rewrite <- app_assoc.
Qed.

Lemma paragraph_fold_hashes (ps : list str) :
  forall b b',
    foldM (paragraph_step self hd k) ps b = Ok b' ->
    hash_inv (chunks b) (current_chunk b) -> hash_inv (chunks b') (current_chunk b').
Proof.
  induction ps as [|p ps IH]; intros b b'; cbn [foldM].
  - intros H; now injection H as <-.
  - intros H Hi. apply bind_Ok in H as [b1 [E1 H]].
    apply (IH b1 b' H). now apply (paragraph_step_hashes b b1 p).
Qed.

End Hashes.

(** C2 fails on the code. A flushed chunk carries the hash of the buffer
    with its closing blank line, not of its trimmed text: for every chunk of
    [split_plaintext] the hashed string is not the chunk's text. The chunk
    of the text "a" has the digest of "a\n\n", not that of "a", and the
    chunk of " a", with the same text "a", has another. *)
Theorem C2_hash_of_buffer :
  (forall self t k cs,
      split_plaintext self t k = Ok cs -> Forall hashed_untrimmed cs) /\
  split_plaintext default (lit "a") (lit "doc")
  = Ok [mkChunk None (lit "a") 0 (lit "doc") 1
          (Some (lit "a7da489976d0047490617adb4f7a1f27f7af8b52a5176fd002ffe471863520ab"))
          None] /\
  split_plaintext default (lit " a") (lit "doc")
  = Ok [mkChunk None (lit "a") 0 (lit "doc") 1
          (Some (lit "8e7c79deabefdd1cd345fed66446608b415fdda5aa59f03bba12be74783f28bc"))
          None] /\
  compute_hash (lit "a")
  = Ok (lit "ca978112ca1bbdcafac231b39a23dc4da786eff8147c4e72b9807785afee48bb") /\
  compute_hash (lit "a\n\n")
  = Ok (lit "a7da489976d0047490617adb4f7a1f27f7af8b52a5176fd002ffe471863520ab").
Proof.
  split; [|repeat split; vm_compute; reflexivity].
  intros self t k cs H. unfold split_plaintext, paragraph_loop in H.
  apply bind_Ok in H as [[cs' n] [E H]]. injection H as <-.
  apply bind_Ok in E as [b [Ef E]].
  apply (flush_hashes None k _ _ _ _ _ E).
  apply (paragraph_fold_hashes self None k _ _ _ Ef).
  split; [constructor|now left].
Qed.

Lemma C2_hash_of_buffer_witness :
  split_plaintext default (lit "retrieval\n\naugmented") (lit "doc")
  = Ok [mkChunk None (lit "retrieval\n\naugmented") 0 (lit "doc") 2
          (Some (lit "0bfff17a5ad8a32ba1d800309a7061307466a7032064109d35fee38c32cea5a7"))
          None] /\
  Forall hashed_untrimmed
    [mkChunk None (lit "retrieval\n\naugmented") 0 (lit "doc") 2
       (Some (lit "0bfff17a5ad8a32ba1d800309a7061307466a7032064109d35fee38c32cea5a7"))
       None].
Proof.
  assert (E : split_plaintext default (lit "retrieval\n\naugmented") (lit "doc")
              = Ok [mkChunk None (lit "retrieval\n\naugmented") 0 (lit "doc") 2
                      (Some (lit "0bfff17a5ad8a32ba1d800309a7061307466a7032064109d35fee38c32cea5a7"))
                      None]) by (vm_compute; reflexivity).
  split; [exact E|].
  exact (proj1 C2_hash_of_buffer default _ _ _ E).
Defined.

(** *** Configuration *)

Lemma foldM_ext {A S} (f g : S -> A -> result S) (l : list A) (s : S) :
  (forall s a, f s a = g s a) -> foldM f l s = foldM g l s.
Proof.
  intros H; revert s; induction l as [|a l IH]; intros s; simpl;
    [reflexivity|].
  rewrite H. destruct (g s a); simpl; [apply IH|reflexivity].
Qed.

Section SameBudget.

Variables self1 self2 : ChunkSplitter.
Hypothesis same_max : max_chunk_tokens self1 = max_chunk_tokens self2.

Lemma paragraph_loop_same (hd : option str) (k : str) (ps : list str)
  (b : Buffer) :
  paragraph_loop self1 hd k ps b = paragraph_loop self2 hd k ps b.
Proof.
  unfold paragraph_loop.
  rewrite (foldM_ext (paragraph_step self1 hd k) (paragraph_step self2 hd k));
    [reflexivity|].
  intros s a. unfold paragraph_step. now rewrite same_max.
Qed.

Lemma split_plaintext_same (t k : str) :
  split_plaintext self1 t k = split_plaintext self2 t k.
Proof. unfold split_plaintext. now rewrite paragraph_loop_same. Qed.

Lemma markdown_section_same (cs : list Chunk) (n : nat) (level hd raw : str) :
  markdown_section self1 cs n level hd raw
  = markdown_section self2 cs n level hd raw.
Proof.
  unfold markdown_section. rewrite same_max, paragraph_loop_same. reflexivity.
Qed.

Lemma markdown_sections_same (secs : list str) :
  forall cs n,
    markdown_sections self1 secs cs n = markdown_sections self2 secs cs n.
Proof.
  revert secs. fix IH 1. intros secs cs n.
  destruct secs as [|level [|hd [|raw rest]]]; try reflexivity.
  cbn [markdown_sections]. rewrite markdown_section_same.
  destruct (markdown_section self2 cs n level hd raw) as [[cs1 n1]|e];
    [|reflexivity].
  cbn [bind]. apply IH.
Qed.

Lemma split_markdown_same (md : str) :
  split_markdown self1 md = split_markdown self2 md.
Proof.
  unfold split_markdown. destruct (header_split md) as [|pre rest];
    [reflexivity|].
  destruct (if truthy (strip pre) then _ else _) as [[cs0 n0]|e];
    [|reflexivity].
  cbn [bind]. now rewrite markdown_sections_same.
Qed.

Lemma split_session_messages_same (sid : Z) (ms : list Message) :
  split_session_messages self1 sid ms = split_session_messages self2 sid ms.
Proof.
  unfold split_session_messages.
  rewrite (foldM_ext (message_step self1 sid) (message_step self2 sid));
    [reflexivity|].
  intros [cs n] m. unfold message_step.
  now rewrite same_max, split_plaintext_same.
Qed.

End SameBudget.

(** C10 (dead configuration). Two splitters with the same
    [max_chunk_tokens], whatever their [min_chunk_tokens] and
    [overlap_tokens], return the same from [split_plaintext],
    [split_markdown] and [split_session_messages] on every input. *)
Theorem C10_dead_configuration (self1 self2 : ChunkSplitter) :
  max_chunk_tokens self1 = max_chunk_tokens self2 ->
  (forall text kind,
      split_plaintext self1 text kind = split_plaintext self2 text kind) /\
  (forall markdown,
      split_markdown self1 markdown = split_markdown self2 markdown) /\
  (forall session_id messages,
      split_session_messages self1 session_id messages
      = split_session_messages self2 session_id messages).
Proof.
  intros H. repeat split; intros.
  - now apply split_plaintext_same.
  - now apply split_markdown_same.
  - now apply split_session_messages_same.
Qed.

Lemma C10_dead_configuration_witness :
  max_chunk_tokens (mkChunkSplitter 500 50 50)
  = max_chunk_tokens (mkChunkSplitter 500 0 7) /\
  split_markdown (mkChunkSplitter 500 50 50) (lit "intro\n\n## A\n\nhello")
  = split_markdown (mkChunkSplitter 500 0 7) (lit "intro\n\n## A\n\nhello").
Proof.
  split; [reflexivity|].
  apply (C10_dead_configuration (mkChunkSplitter 500 50 50)
           (mkChunkSplitter 500 0 7) eq_refl).
Defined.

(** *** The token estimate *)

(** C6 (token estimator). [estimate_tokens text] is the number of words of
    [text.split()] times 1.3 truncated toward zero, for every text of fewer
    than [2^48] words (beyond, the product is no longer exact in binary64);
    the words are the maximal runs of characters that are not whitespace;
    [estimate_tokens ""] is 0. *)
Theorem C6_token_estimator :
  (forall text : str,
      (Z.of_nat (List.length (split text)) < 2 ^ 48)%Z ->
      estimate_tokens text
      = Z.quot (13 * Z.of_nat (List.length (split text))) 10) /\
  (forall text : str,
      Forall (fun w => w <> [] /\ forallb nonspace w = true)
        (split text) /\
      concat (split text) = filter nonspace text) /\
  estimate_tokens (lit "") = 0%Z.
Proof.
  split; [|split].
  - intros t H. unfold estimate_tokens.
    apply FloatFacts.mul_1_3_exact. lia.
  - intros t. apply (SplitWords.split_from_words t []). reflexivity.
  - reflexivity.
Qed.

Lemma C6_token_estimator_witness :
  (Z.of_nat (List.length (split (lit "retrieval augmented  generation\nworks")))
   < 2 ^ 48)%Z /\
  estimate_tokens (lit "retrieval augmented  generation\nworks") = 5%Z.
Proof.
  assert (H : (Z.of_nat (List.length
                 (split (lit "retrieval augmented  generation\nworks")))
               < 2 ^ 48)%Z) by (vm_compute; reflexivity).
  split; [exact H|].
  rewrite (proj1 C6_token_estimator _ H). reflexivity.
Defined.

End Claims.

(** ** The context builder *)

Module ContextClaims.

Import Py query_rag QuerySpec.

Local Open Scope Z_scope.

Lemma accumulate_prefix (results : list SearchResult) (max_tokens : Z) :
  forall (parts : list str) (total : Z) (sources : list Source),
  exists k : nat,
    (k <= List.length results)%nat /\
    accumulate results max_tokens parts total sources
    = (parts ++ map format_chunk (firstn k results),
       sources ++ map source_of (firstn k results)) /\
    (forall j, (1 <= j <= k)%nat ->
               total + tokens (firstn j results) <= max_tokens) /\
    ((k < List.length results)%nat ->
     total + tokens (firstn (S k) results) > max_tokens).
Proof.
  induction results as [|r rest IH]; intros parts total sources.
  - exists 0%nat. simpl. rewrite !app_nil_r.
    repeat split; try lia.
  - cbn [accumulate].
    destruct (total + chunk_tokens_of r >? max_tokens) eqn:E.
    + exists 0%nat. rewrite Z.gtb_ltb in E. apply Z.ltb_lt in E.
      split; [simpl; lia|]. split; [simpl; now rewrite !app_nil_r|].
      split; [intros j Hj; lia|].
      intros _. cbn [firstn tokens fold_right]. lia.
    + rewrite Z.gtb_ltb in E. apply Z.ltb_ge in E.
      destruct (IH (parts ++ [format_chunk r]) (total + chunk_tokens_of r)
                  (sources ++ [source_of r])) as [k [Hk [Ek [Hfit Hover]]]].
      exists (S k).
      split; [simpl; lia|]. split; [|split].
      * rewrite Ek. cbn [firstn map]. now rewrite <- !app_assoc.
      * intros j Hj. destruct j as [|j]; [lia|]. cbn [firstn tokens fold_right].
        destruct j as [|j]; [simpl; lia|].
        specialize (Hfit (S j) ltac:(lia)). unfold tokens in Hfit. lia.
      * intros Hlt. cbn [firstn tokens fold_right].
        assert (Hlt' : (k < List.length rest)%nat) by (simpl in Hlt; lia).
        specialize (Hover Hlt'). unfold tokens in Hover.
        cbn [firstn fold_right] in Hover. lia.
Qed.

Lemma tokens_firstn_mono (results : list SearchResult) :
  (forall r, In r results -> 0 <= chunk_tokens_of r) ->
  forall i j, (i <= j)%nat ->
              tokens (firstn i results) <= tokens (firstn j results).
Proof.
  induction results as [|r rest IH]; intros Hpos i j Hij.
  - rewrite !firstn_nil. lia.
  - destruct i as [|i].
    + clear IH Hij. revert j. 
      assert (G : forall l : list SearchResult,
                 (forall r, In r l -> 0 <= chunk_tokens_of r) ->
                 0 <= tokens l).
      { induction l as [|a l IHl]; intros Hl; cbn [tokens fold_right]; [lia|].
        pose proof (Hl a (or_introl eq_refl)) as Ha.
        specialize (IHl (fun r Hr => Hl r (or_intror Hr))).
        unfold tokens in IHl. lia. }
      intros j. simpl firstn at 1. simpl tokens at 1. apply G.
      intros r0 Hr0. apply Hpos.
      rewrite <- (firstn_skipn j (r :: rest)). apply in_or_app. now left.
    + destruct j as [|j]; [lia|]. cbn [firstn tokens fold_right].
      specialize (IH (fun r0 Hr0 => Hpos r0 (or_intror Hr0)) i j ltac:(lia)).
      unfold tokens in IH. lia.
Qed.

(** C4 (context budgeting). [build_rag_context] takes the candidates in
    order up to the first one whose tokens would bring the running total
    above [max_tokens], and none after it: the context is the concatenation
    of the whole blocks of the first [k] candidates and the sources are
    theirs, in the same order. With token estimates that are not negative
    this is the longest prefix whose total does not exceed [max_tokens]. If
    the first candidate alone exceeds [max_tokens], both are empty; for
    estimates 100, 150 and 300 and a budget of 300, the first two are
    taken. *)
Theorem C4_context_budgeting :
  (forall (results : list SearchResult) (max_tokens : Z),
      exists k : nat,
        (k <= List.length results)%nat /\
        build_rag_context results max_tokens = context_of k results /\
        (forall j, (1 <= j <= k)%nat ->
                   tokens (firstn j results) <= max_tokens) /\
        ((k < List.length results)%nat ->
         tokens (firstn (S k) results) > max_tokens) /\
        ((forall r, In r results -> 0 <= chunk_tokens_of r) ->
         forall j, (1 <= j <= List.length results)%nat ->
                   (tokens (firstn j results) <= max_tokens <-> (j <= k)%nat)))
  /\
  (forall (r : SearchResult) (rest : list SearchResult) (max_tokens : Z),
      chunk_tokens_of r > max_tokens ->
      build_rag_context (r :: rest) max_tokens = ([], []))
  /\
  (forall r1 r2 r3 : SearchResult,
      token_est r1 = Some 100 -> token_est r2 = Some 150 ->
      token_est r3 = Some 300 ->
      build_rag_context [r1; r2; r3] 300
      = (format_chunk r1 ++ format_chunk r2, [source_of r1; source_of r2])).
Proof.
  split; [|split].
  - intros results max_tokens.
    destruct (accumulate_prefix results max_tokens [] 0 [])
      as [k [Hk [Ek [Hfit Hover]]]].
    exists k. split; [exact Hk|]. split; [|split; [|split]].
    + unfold build_rag_context, context_of. now rewrite Ek.
    + intros j Hj. specialize (Hfit j Hj). lia.
    + intros Hlt. specialize (Hover Hlt). lia.
    + intros Hpos j Hj. split.
      * intros Hle. destruct (Nat.le_gt_cases j k) as [|Hgt]; [assumption|].
        assert (Hk' : (k < List.length results)%nat) by lia.
        specialize (Hover Hk').
        pose proof (tokens_firstn_mono results Hpos (S k) j ltac:(lia)). lia.
      * intros Hle. specialize (Hfit j ltac:(lia)). lia.
  - intros r rest max_tokens Hr. unfold build_rag_context. cbn [accumulate].
    replace (0 + chunk_tokens_of r >? max_tokens) with true; [reflexivity|].
    symmetry. rewrite Z.gtb_ltb. apply Z.ltb_lt. lia.
  - intros r1 r2 r3 H1 H2 H3. unfold build_rag_context. cbn [accumulate].
    unfold chunk_tokens_of. rewrite H1, H2, H3. simpl.
    now rewrite app_nil_r.
Qed.

Lemma C4_context_budgeting_witness :
  token_est (candidate 1 (Some (lit "A")) (lit "one") (Some 100)) = Some 100 /\
  token_est (candidate 2 None (lit "two") (Some 150)) = Some 150 /\
  token_est (candidate 3 (Some (lit "C")) (lit "three") (Some 300)) = Some 300 /\
  build_rag_context
    [candidate 1 (Some (lit "A")) (lit "one") (Some 100);
     candidate 2 None (lit "two") (Some 150);
     candidate 3 (Some (lit "C")) (lit "three") (Some 300)] 300
  = (lit "## A\n\none\n\n## (no heading)\n\ntwo\n\n",
     [mkSource 1 (lit "Guide") (Some (lit "SQL")) (Some (lit "A")) None;
      mkSource 2 (lit "Guide") (Some (lit "SQL")) None None]).
Proof.
  split; [reflexivity|]. split; [reflexivity|]. split; [reflexivity|].
  rewrite (proj2 (proj2 C4_context_budgeting)
             (candidate 1 (Some (lit "A")) (lit "one") (Some 100))
             (candidate 2 None (lit "two") (Some 150))
             (candidate 3 (Some (lit "C")) (lit "three") (Some 300))
             eq_refl eq_refl eq_refl).
  reflexivity.
Defined.

End ContextClaims.

(* ================================================================= *)
(** * Part III: further properties of the modelled code *)
(* ================================================================= *)

(** ** The further model on examples *)

Module MoreExamples.

Import Py PyLib chunk_splitter chunk_rows import_docs cli_logger queries.

(** The text of a metadata dictionary whose role holds a quotation mark, as
    code points. *)
Example dumps_metadata :
  json.dumps [("session_id"%string, MInt 3);
              ("message_role"%string, MStr (lit "us" ++ [json.QUOTE] ++ lit "er"));
              ("sub_chunk"%string, MInt (-2))]
  = [123; 34; 115; 101; 115; 115; 105; 111; 110; 95; 105; 100; 34; 58; 32; 51; 44; 32; 34; 109; 101; 115; 115; 97; 103; 101; 95; 114; 111; 108; 101; 34; 58; 32; 34; 117; 115; 92; 34; 101; 114; 34; 44; 32; 34; 115; 117; 98; 95; 99; 104; 117; 110; 107; 34; 58; 32; 45; 50; 125]%N.
Proof. vm_compute. reflexivity. Qed.

(** An accented letter, a character above the basic plane, a line feed, the
    delete character and a backslash. *)
Example dumps_escapes :
  json.encode_basestring_ascii [233; 128512; 10; 127; 92]%N
  = [34; 92; 117; 48; 48; 101; 57; 92; 117; 100; 56; 51; 100; 92; 117; 100; 101; 48; 48; 92; 110; 92; 117; 48; 48; 55; 102; 92; 92; 34]%N.
Proof. vm_compute. reflexivity. Qed.

Example to_dict_metadata :
  lookup "metadata"
    (to_dict (mkChunk None (lit "text") 0 (lit "doc") 1 None
                (Some [("k"%string, MInt 1)])))
  = Some (VStr (json.dumps [("k"%string, MInt 1)])) /\
  lookup "metadata"
    (to_dict (mkChunk None (lit "text") 0 (lit "doc") 1 None (Some [])))
  = Some (VDict []) /\
  lookup "metadata"
    (to_dict (mkChunk None (lit "text") 0 (lit "doc") 1 None None))
  = Some VNone.
Proof. repeat split. Qed.

(** The script is skipped, the paragraph ends with a blank line, the data
    are cleaned of their whitespace. *)
Example page_text :
  html_to_text
    [StartTag (lit "script"); Data (lit "var x;"); EndTag (lit "script");
     StartTag (lit "p"); Data (lit " Hello,\n  world "); EndTag (lit "p");
     Data (lit "bye"); StartTag (lit "b"); Data (lit "bold");
     EndTag (lit "b"); Data (lit "  ")]
  = lit "Hello, world \n\nbye bold".
Proof. vm_compute. reflexivity. Qed.

(** After an end tag the data are kept, inside a script too. *)
Example script_after_end_tag :
  html_to_text
    [StartTag (lit "script"); Data (lit "a"); StartTag (lit "b");
     EndTag (lit "b"); Data (lit "c"); EndTag (lit "script")]
  = lit "c".
Proof. vm_compute. reflexivity. Qed.

(** A session of two messages, a note, a line that only looks like [/quit],
    and a line that starts with [/end]. *)
Example session_of_lines :
  interactive_session 7
    [Line (lit " hi "); Line (lit "hello back"); Line []; 
     Line (lit "/note  remember"); Line (lit "/quit now");
     Line (lit "/endless"); Line (lit "never read")]
    (mkDatabase [(7%Z, mkMessage (lit "old") (lit "user") 4)]
       (mkSession None false))
  = (mkDatabase
       [(7%Z, mkMessage (lit "old") (lit "user") 4);
        (7%Z, mkMessage (lit "hi") (lit "user") 5);
        (7%Z, mkMessage (lit "hello back") (lit "assistant") 6);
        (7%Z, mkMessage (lit "/quit now") (lit "user") 7)]
       (mkSession (Some (lit "ess")) true),
     true).
Proof. vm_compute. reflexivity. Qed.

(** A topic of 0 is no filter. *)
Example fts_search_topic_0 :
  snd (fts_search (VStr (lit "wal")) (VStr (lit "PRAGMA")) (VInt 0) VNone
         (VInt 10))
  = [VStr (lit "wal"); VStr (lit "PRAGMA"); VInt 10].
Proof. reflexivity. Qed.

Example telemetry_operator_refused :
  search_sessions_by_telemetry (lit "total_tokens") (lit "LIKE") (VInt 1)
  = inl (lit "Invalid operator: LIKE").
Proof. reflexivity. Qed.

End MoreExamples.

(** ** Words under trimming and paragraph splitting *)

Module WordFacts.

Import Py chunk_splitter Spec PyFacts LoopFacts SplitFacts DocFacts Claims.

(** A whitespace character ends the word being read. *)
Lemma split_from_sep (a : str) (w : codepoint) (b cur : str) :
  isspace w = true ->
  split_from (a ++ w :: b) cur = split_from a cur ++ split_from b [].
Proof.
  intros Hw. revert cur. induction a as [|c a IH]; intros cur; simpl.
  - rewrite Hw. now destruct cur.
  - destruct (isspace c).
    + destruct cur; [apply IH|]. now rewrite IH.
    + apply IH.
Qed.

Lemma split_from_blank_tail (a w cur : str) :
  blank w -> split_from (a ++ w) cur = split_from a cur.
Proof.
  intros Hw. destruct w as [|c w]; [now rewrite app_nil_r|].
  unfold blank in Hw. simpl in Hw. apply andb_true_iff in Hw as [Hc Hw].
  rewrite split_from_sep by exact Hc.
  rewrite (split_from_blank w Hw). apply app_nil_r.
Qed.

Lemma split_blank_head (w a : str) :
  blank w -> split (w ++ a) = split a.
Proof.
  unfold split, blank. induction w as [|c w IH]; simpl; [reflexivity|].
  intros H. apply andb_true_iff in H as [Hc Hw]. rewrite Hc. now apply IH.
Qed.

Lemma split_lstrip (s : str) : split (lstrip s) = split s.
Proof.
  destruct (lstrip_split s) as [w [E W]].
  rewrite E at 2. symmetry. now apply split_blank_head.
Qed.

Lemma split_rstrip (s : str) : split (rstrip s) = split s.
Proof.
  destruct (rstrip_split s) as [w [E W]].
  rewrite E at 2. unfold split. symmetry. now apply split_from_blank_tail.
Qed.

Lemma split_strip (s : str) : split (strip s) = split s.
Proof. unfold strip. now rewrite split_rstrip, split_lstrip. Qed.

Lemma estimate_tokens_strip (s : str) :
  estimate_tokens (strip s) = estimate_tokens s.
Proof. unfold estimate_tokens. now rewrite split_strip. Qed.

(** The words of a text are those of its paragraphs. *)
Lemma re_split_blank_from_words (s cur : str) (in_sep : bool) :
  (in_sep = true -> cur = []) ->
  concat (map split (re_split_blank_from s cur in_sep)) = split (rev cur ++ s).
Proof.
  revert cur in_sep. induction s as [|c s IH]; intros cur in_sep Hsep;
    cbn [re_split_blank_from].
  - cbn [map concat]. now rewrite !app_nil_r.
  - assert (Hpush : rev (c :: cur) ++ s = rev cur ++ c :: s)
      by (cbn [rev]; now rewrite <- app_assoc).
    destruct (c =? LF)%N eqn:Ec.
    + apply N.eqb_eq in Ec. subst c. destruct in_sep.
      * rewrite (Hsep eq_refl). rewrite IH by reflexivity. reflexivity.
      * destruct s as [|c2 s'].
        -- rewrite IH by discriminate. now rewrite Hpush.
        -- destruct (c2 =? LF)%N.
           ++ cbn [map concat]. rewrite IH by reflexivity.
              unfold split at 3. now rewrite split_from_sep.
           ++ rewrite IH by discriminate. now rewrite Hpush.
    + rewrite IH by discriminate. now rewrite Hpush.
Qed.

Lemma re_split_blank_words (t : str) :
  concat (map split (re_split_blank t)) = split t.
Proof. apply (re_split_blank_from_words t [] false). discriminate. Qed.

End WordFacts.

(** ** The paragraph loop keeps the words *)

Module LoopWords.

Import Py chunk_splitter Spec XSpec PyFacts LoopFacts SplitFacts DocFacts Claims WordFacts.

Lemma words_of_app (a b : list Chunk) :
  words_of (a ++ b) = words_of a ++ words_of b.
Proof. unfold words_of. now rewrite map_app, concat_app. Qed.

Lemma split_open_app (cur p : str) :
  open_buffer cur -> split (cur ++ p) = split cur ++ split p.
Proof.
  intros [->|[s ->]]; [reflexivity|].
  assert (Hb : blank (lit "\n\n")) by reflexivity.
  unfold split. rewrite (split_from_blank_tail s _ [] Hb).
  rewrite <- app_assoc. change (lit "\n\n" ++ p) with (LF :: LF :: p).
  rewrite split_from_sep by reflexivity. reflexivity.
Qed.

Lemma split_close (p : str) : split (p ++ lit "\n\n") = split p.
Proof. apply split_from_blank_tail. reflexivity. Qed.

Section Words.

Variable self : ChunkSplitter.
Variable hd : option str.
Variable k : str.

Lemma flush_words (cs : list Chunk) (n : nat) (cur : str)
  (cs' : list Chunk) (n' : nat) :
  flush hd k cs n cur = Ok (cs', n') ->
  words_of cs' = words_of cs ++ split cur.
Proof.
  intros H. apply flush_cases in H as [[E [-> _]]|[_ [h [_ [-> _]]]]].
  - apply strip_nil in E. unfold split.
    rewrite (split_from_blank cur E). now rewrite app_nil_r.
  - rewrite words_of_app. unfold words_of at 2. cbn [map concat text].
    now rewrite app_nil_r, split_strip.
Qed.

Lemma paragraph_step_words (b b' : Buffer) (p : str) :
  paragraph_step self hd k b p = Ok b' ->
  open_buffer (current_chunk b) ->
  words_of (chunks b') ++ split (current_chunk b')
  = (words_of (chunks b) ++ split (current_chunk b)) ++ split p /\
  open_buffer (current_chunk b').
Proof.
  unfold paragraph_step. destruct (_ >? _)%Z.
  - intros H Ho. apply bind_Ok in H as [[cs n] [Ef H]]. injection H as <-.
    cbn [chunks current_chunk]. split; [|right; now exists p].
    now rewrite (flush_words _ _ _ _ _ Ef), split_close.
  - intros H Ho. injection H as <-. cbn [chunks current_chunk]. split.
    + rewrite (split_open_app _ _ Ho), split_close. now rewrite app_assoc.
    + right. exists (current_chunk b ++ p). now rewrite <- app_assoc.
Qed.

Lemma paragraph_fold_words (ps : list str) :
  forall b b',
    foldM (paragraph_step self hd k) ps b = Ok b' ->
    open_buffer (current_chunk b) ->
    words_of (chunks b') ++ split (current_chunk b')
    = (words_of (chunks b) ++ split (current_chunk b))
        ++ concat (map split ps) /\
    open_buffer (current_chunk b').
Proof.
  induction ps as [|p ps IH]; intros b b'; cbn [foldM].
  - intros H Ho. injection H as <-. cbn [map concat].
    now rewrite app_nil_r.
  - intros H Ho. apply bind_Ok in H as [b1 [E1 H]].
    apply paragraph_step_words in E1 as [W1 O1]; [|exact Ho].
    apply IH in H as [W2 O2]; [|exact O1].
    split; [|exact O2]. rewrite W2, W1. cbn [map concat].
    now rewrite <- !app_assoc.
Qed.

Lemma paragraph_loop_words (ps : list str) (b : Buffer)
  (cs : list Chunk) (n : nat) :
  paragraph_loop self hd k ps b = Ok (cs, n) ->
  open_buffer (current_chunk b) ->
  words_of cs
  = (words_of (chunks b) ++ split (current_chunk b)) ++ concat (map split ps).
Proof.
  unfold paragraph_loop. intros H Ho. apply bind_Ok in H as [b1 [E1 H]].
  apply paragraph_fold_words in E1 as [W1 _]; [|exact Ho].
  now rewrite (flush_words _ _ _ _ _ H), W1.
Qed.

End Words.

Lemma split_plaintext_words (self : ChunkSplitter) (t k : str)
  (cs : list Chunk) :
  split_plaintext self t k = Ok cs -> words_of cs = split t.
Proof.
  unfold split_plaintext. intros H.
  apply bind_Ok in H as [[cs' n] [E H]]. injection H as <-.
  apply paragraph_loop_words in E; [|now left].
  rewrite E. cbn [chunks current_chunk]. apply re_split_blank_words.
Qed.

(** X1. [split_plaintext] loses no word and adds none: it returns for every
    text that can be encoded, and the words of the texts of the chunks, in
    order, are the words of the text. *)
Theorem X1_split_plaintext_words (self : ChunkSplitter) (t k : str) :
  returns (encodable t) (split_plaintext self t k)
    (fun cs => words_of cs = split t).
Proof.
  split; [apply split_plaintext_total|apply split_plaintext_words].
Qed.

Lemma X1_split_plaintext_words_witness :
  exists cs,
    split_plaintext default (lit "one two\n\nthree") (lit "doc") = Ok cs /\
    words_of cs = [lit "one"; lit "two"; lit "three"].
Proof.
  destruct (X1_split_plaintext_words default (lit "one two\n\nthree")
              (lit "doc")) as [T W].
  destruct T as [cs E]; [apply encodable_check; reflexivity|].
  exists cs. split; [exact E|]. rewrite (W cs E). reflexivity.
Defined.

End LoopWords.

(** ** The header pattern keeps the words *)

Module HeaderWords.

Import Py chunk_splitter Spec XSpec PyFacts LoopFacts SplitFacts DocFacts Claims WordFacts LoopWords.


Lemma line_prefix_shape (s : str) :
  exists rest, s = line_prefix s ++ rest /\ at_eol rest.
Proof.
  induction s as [|c s [rest [E R]]]; simpl.
  - exists []. split; [reflexivity|now left].
  - destruct (c =? LF)%N eqn:Ec.
    + apply N.eqb_eq in Ec. subst c. exists (LF :: s).
      split; [reflexivity|right; now exists s].
    + exists rest. split; [simpl; now f_equal|exact R].
Qed.

Lemma dot_plus_eol_shape (s g : str) (n : nat) :
  dot_plus_eol s = Some (g, n) ->
  exists rest, s = g ++ rest /\ n = List.length g /\ at_eol rest.
Proof.
  unfold dot_plus_eol. destruct (line_prefix_shape s) as [rest [E R]].
  destruct (line_prefix s) as [|a l] eqn:El; [discriminate|].
  intros H. injection H as <- <-. now exists rest.
Qed.

Lemma ws_plus_heading_shape (s g : str) (n : nat) :
  ws_plus_heading s = Some (g, n) ->
  exists ws rest,
    s = ws ++ g ++ rest /\ n = List.length ws + List.length g /\
    ws <> [] /\ blank ws /\ at_eol rest.
Proof.
  revert g n. induction s as [|c s IH]; intros g n; simpl; [discriminate|].
  destruct (isspace c) eqn:Ec; [|discriminate].
  destruct (ws_plus_heading s) as [[g' n']|] eqn:Ew.
  - intros H. injection H as <- <-.
    destruct (IH g' n' eq_refl) as [ws [rest [E [N [_ [B R]]]]]].
    exists (c :: ws), rest. repeat split.
    + simpl. now f_equal.
    + simpl. lia.
    + discriminate.
    + unfold blank in *. simpl. now rewrite Ec.
    + exact R.
  - destruct (dot_plus_eol s) as [[g' n']|] eqn:Ed; [|discriminate].
    intros H. injection H as <- <-.
    apply dot_plus_eol_shape in Ed as [rest [E [N R]]].
    exists [c], rest. repeat split.
    + simpl. now f_equal.
    + simpl. lia.
    + discriminate.
    + unfold blank. simpl. now rewrite Ec.
    + exact R.
Qed.

Lemma match_header_shape (s level hd : str) (n : nat) :
  match_header s = Some (level, hd, n) ->
  exists ws rest,
    s = level ++ ws ++ hd ++ rest /\
    n = List.length level + List.length ws + List.length hd /\
    is_level level /\ ws <> [] /\ blank ws /\ at_eol rest.
Proof.
  unfold match_header.
  destruct s as [|h1 [|h2 s2]]; try discriminate.
  destruct ((h1 =? HASH) && (h2 =? HASH))%N eqn:Eh; [|discriminate].
  apply andb_true_iff in Eh as [E1 E2].
  apply N.eqb_eq in E1. apply N.eqb_eq in E2. subst h1 h2.
  assert (Htwo : match ws_plus_heading s2 with
                 | Some (g, n0) => Some ([HASH; HASH], g, (2 + n0)%nat)
                 | None => None
                 end = Some (level, hd, n) ->
                 exists ws rest,
                   HASH :: HASH :: s2 = level ++ ws ++ hd ++ rest /\
                   n = List.length level + List.length ws + List.length hd /\
                   is_level level /\ ws <> [] /\ blank ws /\ at_eol rest).
  { destruct (ws_plus_heading s2) as [[g n0]|] eqn:E; [|discriminate].
    intros H. injection H as <- <- <-.
    apply ws_plus_heading_shape in E as [ws [rest [E [N [W [B R]]]]]].
    exists ws, rest. repeat split; try assumption.
    - simpl. now rewrite E.
    - simpl. lia.
    - now left. }
  destruct s2 as [|h3 s3]; [exact Htwo|].
  destruct (h3 =? HASH)%N eqn:E3; [|exact Htwo].
  destruct (ws_plus_heading s3) as [[g n0]|] eqn:E; [|exact Htwo].
  apply N.eqb_eq in E3. subst h3.
  intros H. injection H as <- <- <-.
  apply ws_plus_heading_shape in E as [ws [rest [E [N [W [B R]]]]]].
  exists ws, rest. repeat split; try assumption.
  - simpl. now rewrite E.
  - simpl. lia.
  - now right.
Qed.


Lemma split_after_line (cur x : str) :
  cur = [] \/ (exists cur', cur = LF :: cur') ->
  split (rev cur ++ x) = split (rev cur) ++ split x.
Proof.
  intros [->|[cur' ->]]; [reflexivity|].
  cbn [rev]. rewrite <- app_assoc. cbn [app]. unfold split.
  rewrite split_from_sep by reflexivity.
  rewrite (split_from_blank_tail (rev cur') [LF] []) by reflexivity.
  reflexivity.
Qed.

Lemma split_before_eol (hd rest : str) :
  at_eol rest -> split (hd ++ rest) = split hd ++ split rest.
Proof.
  intros [->|[r ->]].
  - now rewrite !app_nil_r.
  - unfold split. now rewrite split_from_sep by reflexivity.
Qed.

Lemma split_marked (level ws x : str) :
  ws <> [] -> blank ws -> split (level ++ ws ++ x) = split level ++ split x.
Proof.
  intros Hn Hb. destruct ws as [|w ws]; [congruence|].
  unfold blank in Hb. simpl in Hb. apply andb_true_iff in Hb as [Hw Hb].
  unfold split. cbn [app]. rewrite split_from_sep by exact Hw.
  f_equal. now apply split_blank_head.
Qed.

Lemma header_split_from_words (s : str) :
  forall bol skip cur,
    bol_ok bol cur ->
    concat (map split (header_split_from s bol skip cur))
    = split (rev cur ++ skipn skip s).
Proof.
  induction s as [|c s IH]; intros bol skip cur Hb;
    cbn [header_split_from].
  - rewrite skipn_nil. cbn [map concat]. now rewrite !app_nil_r.
  - destruct skip as [|k].
    + cbn [skipn].
      destruct (if bol then match_header (c :: s) else None)
        as [[[level hd] n]|] eqn:E.
      * destruct bol; [|discriminate].
        apply match_header_shape in E
          as [ws [rest [Es [En [Hl [Hw [Hbl Hr]]]]]]].
        cbn [map concat]. rewrite IH by (intros H; discriminate H).
        cbn [rev app].
        assert (Hk : skipn (Nat.pred n) s = rest).
        { assert (Hs : skipn n (c :: s) = rest).
          { assert (Ex : c :: s = (level ++ ws ++ hd) ++ rest)
              by (rewrite Es; now rewrite <- !app_assoc).
            assert (Nx : n = List.length (level ++ ws ++ hd))
              by (rewrite !length_app; lia).
            rewrite Ex, Nx, skipn_app, skipn_all, Nat.sub_diag.
            reflexivity. }
          destruct n as [|n']; [|exact Hs].
          destruct Hl as [->| ->]; simpl in En; lia. }
        rewrite Hk, Es.
        rewrite (split_after_line cur _ (Hb eq_refl)).
        rewrite (split_marked level ws _ Hw Hbl).
        now rewrite (split_before_eol hd rest Hr).
      * rewrite IH.
        -- cbn [rev skipn]. now rewrite <- app_assoc.
        -- intros H. right. apply N.eqb_eq in H. subst c. now exists cur.
    + cbn [skipn]. apply IH. intros H; discriminate H.
Qed.

Lemma header_split_words (md : str) :
  concat (map split (header_split md)) = split md.
Proof. apply (header_split_from_words md true 0 []). intros _. now left. Qed.

End HeaderWords.

(** ** The sections keep the words *)

Module MarkdownWords.

Import Py chunk_splitter Spec XSpec PyFacts LoopFacts SplitFacts DocFacts Claims WordFacts LoopWords HeaderWords.

Lemma split_section_prefix (level hd : str) :
  split (section_prefix level hd) = split level ++ split hd.
Proof.
  unfold section_prefix, split. change (lit " " ++ hd ++ lit "\n\n")
    with (SP :: (hd ++ lit "\n\n")).
  rewrite split_from_sep by reflexivity. f_equal. apply split_close.
Qed.

Lemma split_section_text (level hd raw : str) :
  split (section_text level hd raw) = split level ++ split hd ++ split raw.
Proof.
  unfold section_text, split. change (lit " " ++ hd ++ lit "\n\n" ++ strip raw)
    with (SP :: (hd ++ LF :: LF :: strip raw)).
  rewrite split_from_sep by reflexivity. f_equal.
  rewrite split_from_sep by reflexivity. f_equal.
  change (split_from (LF :: strip raw) []) with (split (strip raw)).
  apply split_strip.
Qed.

Lemma markdown_section_words (self : ChunkSplitter) (cs : list Chunk)
  (n : nat) (level hd raw : str) (cs' : list Chunk) (n' : nat) :
  markdown_section self cs n level hd raw = Ok (cs', n') ->
  words_of cs' = words_of cs ++ split level ++ split hd ++ split raw.
Proof.
  unfold markdown_section.
  fold (section_text level hd raw) (section_prefix level hd).
  destruct (_ >? _)%Z.
  - intros H. apply paragraph_loop_words in H.
    + cbn [chunks current_chunk] in H.
      rewrite H, split_section_prefix, re_split_blank_words, split_strip.
      now rewrite <- !app_assoc.
    + right. exists (level ++ lit " " ++ hd). cbn [current_chunk].
      unfold section_prefix. now rewrite <- !app_assoc.
  - intros H. apply bind_Ok in H as [h [_ H]]. injection H as <- _.
    rewrite words_of_app. unfold words_of at 2. cbn [map concat text].
    now rewrite app_nil_r, split_section_text.
Qed.

Lemma markdown_sections_words (self : ChunkSplitter) (secs : list str) :
  triples secs ->
  forall cs n cs' n',
    markdown_sections self secs cs n = Ok (cs', n') ->
    words_of cs' = words_of cs ++ concat (map split secs).
Proof.
  induction 1 as [|level hd raw rest Hl Hh T IH]; intros cs n cs' n'.
  - simpl. intros H. injection H as <- _. now rewrite app_nil_r.
  - cbn [markdown_sections]. intros H.
    apply bind_Ok in H as [[cs1 n1] [E1 H]].
    apply markdown_section_words in E1. apply IH in H.
    rewrite H, E1. cbn [map concat]. now rewrite <- !app_assoc.
Qed.

Lemma split_markdown_words (self : ChunkSplitter) (md : str)
  (cs : list Chunk) :
  split_markdown self md = Ok cs -> words_of cs = split md.
Proof.
  unfold split_markdown. intros H.
  rewrite <- header_split_words.
  destruct (header_split_shape md) as [pre [rest [E T]]]. rewrite E in *.
  apply bind_Ok in H as [[cs0 n0] [E0 H]].
  apply bind_Ok in H as [[cs1 n1] [E1 H]]. injection H as <-.
  apply (markdown_sections_words self rest T) in E1. rewrite E1.
  cbn [map concat]. f_equal.
  apply prologue_cases in E0 as [[Eb [-> _]]|[_ [h [_ [-> _]]]]].
  - apply strip_nil in Eb. unfold split.
    now rewrite (split_from_blank pre Eb).
  - unfold words_of. cbn [map concat text].
    now rewrite app_nil_r, split_strip.
Qed.

(** X2. [split_markdown] loses no word and adds none: it returns for every
    document that can be encoded, and the words of the texts of the chunks,
    in order, are the words of the document, the header marks among
    them. *)
Theorem X2_split_markdown_words (self : ChunkSplitter) (md : str) :
  returns (encodable md) (split_markdown self md)
    (fun cs => words_of cs = split md).
Proof.
  split; [apply split_markdown_total|apply split_markdown_words].
Qed.

Lemma X2_split_markdown_words_witness :
  exists cs,
    split_markdown default (lit "intro\n## Title here\nbody text") = Ok cs /\
    words_of cs
    = [lit "intro"; lit "##"; lit "Title"; lit "here"; lit "body";
       lit "text"].
Proof.
  destruct (X2_split_markdown_words default
              (lit "intro\n## Title here\nbody text")) as [T W].
  destruct T as [cs E]; [apply encodable_check; reflexivity|].
  exists cs. split; [exact E|]. rewrite (W cs E). reflexivity.
Defined.

End MarkdownWords.

(** ** The estimate a chunk carries *)

Module Estimates.

Import Py chunk_splitter Spec XSpec PyFacts LoopFacts SplitFacts DocFacts Claims WordFacts LoopWords.


Lemma from_buffer_estimated (hd : option str) (k : str) (c : Chunk) :
  from_buffer hd k c -> estimated c.
Proof.
  intros [buf [h [_ [_ [_ [Et [_ [Ee _]]]]]]]]. unfold estimated.
  now rewrite Ee, Et, estimate_tokens_strip.
Qed.

Lemma section_chunk_estimated (self : ChunkSplitter) (level hd raw : str)
  (c : Chunk) :
  section_chunk self level hd raw c -> estimated c.
Proof.
  intros [Hb|Hw]; [now apply from_buffer_estimated in Hb|].
  destruct Hw as [_ [_ [Et [_ [Ee _]]]]]. unfold estimated.
  now rewrite Ee, Et.
Qed.

Lemma sub_chunks_of_estimated (sid : Z) (m : Message) (subs : list Chunk) :
  forall i n,
    Forall estimated subs -> Forall estimated (sub_chunks_of sid m subs i n).
Proof.
  induction subs as [|s subs IH]; intros i n H; simpl; [constructor|].
  inversion H as [|? ? Hs Hr]; subst. constructor; [exact Hs|now apply IH].
Qed.

(** X3. For every chunk of the three splitters, [token_est] is the estimate
    of the chunk's own text. *)
Theorem X3_token_est_of_text (self : ChunkSplitter) :
  (forall t k cs,
      split_plaintext self t k = Ok cs -> Forall estimated cs) /\
  (forall md cs,
      split_markdown self md = Ok cs -> Forall estimated cs) /\
  (forall sid ms cs,
      split_session_messages self sid ms = Ok cs -> Forall estimated cs).
Proof.
  assert (Hp : forall t k cs,
             split_plaintext self t k = Ok cs -> Forall estimated cs).
  { intros t k cs H. apply split_plaintext_spec in H as [_ F].
    eapply Forall_impl; [|exact F]. intros c. apply from_buffer_estimated. }
  split; [exact Hp|]. split.
  - intros md cs H.
    destruct (split_markdown_inv self (fun cs _ => Forall estimated cs))
      with (md := md) (cs := cs) as [n Hn]; try assumption.
    + constructor.
    + intros pre h _ _. constructor; [reflexivity|constructor].
    + intros cs0 n0 level hd raw cs' n' _ Hcs E.
      apply markdown_section_spec in E as [out [-> [_ [_ F]]]].
      apply Forall_app; split; [exact Hcs|].
      eapply Forall_impl; [|exact F].
      intros c. apply section_chunk_estimated.
  - intros sid ms cs H. unfold split_session_messages in H.
    apply bind_Ok in H as [[cs' n] [E H]]. injection H as <-.
    apply messages_fold_chunks in E as [out [-> [H2 _]]]. simpl.
    apply Forall_forall. intros c Hc.
    destruct (H2 c Hc) as [m [n0 [om [_ [Hcm Hin]]]]].
    unfold chunks_of_message in Hcm. destruct (_ >? _)%Z.
    + destruct Hcm as [subs [Es ->]]. apply Hp in Es.
      apply (sub_chunks_of_estimated sid m subs 0 n0) in Es.
      rewrite Forall_forall in Es. now apply Es.
    + destruct Hcm as [h [_ ->]]. destruct Hin as [<-|[]]. reflexivity.
Qed.

Lemma X3_token_est_of_text_witness :
  exists cs,
    split_plaintext default (lit "one two\n\nthree") (lit "doc") = Ok cs /\
    Forall estimated cs.
Proof.
  destruct (split_plaintext_total default (lit "one two\n\nthree")
              (lit "doc")) as [cs E]; [apply encodable_check; reflexivity|].
  exists cs. split; [exact E|].
  exact (proj1 (X3_token_est_of_text default) _ _ _ E).
Defined.

End Estimates.

(** ** A paragraph over the budget *)

Module Oversized.

Import Py chunk_splitter Spec XSpec PyFacts LoopFacts SplitFacts DocFacts Claims WordFacts LoopWords.

Lemma round53_nonneg (x : Z) : (0 <= x -> 0 <= round53 x)%Z.
Proof.
  intros Hx. unfold round53.
  destruct (Z.log2 x + 1 <=? 53)%Z; [exact Hx|].
  apply Z.shiftl_nonneg.
  assert (Hq : (0 <= Z.shiftr x (Z.log2 x + 1 - 53))%Z)
    by now apply Z.shiftr_nonneg.
  destruct (_ <? _)%Z; [exact Hq|].
  destruct (_ <? _)%Z; [lia|].
  destruct (Z.even _); lia.
Qed.

Lemma estimate_tokens_nonneg (s : str) : (0 <= estimate_tokens s)%Z.
Proof.
  unfold estimate_tokens, int_of_float52, mul_1_3, float_of_int.
  apply Z.quot_pos; [|lia]. apply round53_nonneg.
  apply Z.mul_nonneg_nonneg; [|unfold mant_1_3; lia].
  apply round53_nonneg. lia.
Qed.

Lemma lstrip_blank_head (w s : str) : blank w -> lstrip (w ++ s) = lstrip s.
Proof.
  unfold blank. induction w as [|c w IH]; simpl; [reflexivity|].
  intros H. apply andb_true_iff in H as [Hc Hw]. rewrite Hc. now apply IH.
Qed.

Lemma rstrip_blank_tail (s w : str) : blank w -> rstrip (s ++ w) = rstrip s.
Proof.
  intros Hw. unfold rstrip. rewrite rev_app_distr, lstrip_blank_head;
    [reflexivity|]. unfold blank in *. now rewrite forallb_rev.
Qed.

Lemma lstrip_nonblank_app (s w : str) :
  ~ blank s -> lstrip (s ++ w) = lstrip s ++ w.
Proof.
  unfold blank. induction s as [|c s IH]; simpl; [intros H; now elim H|].
  destruct (isspace c); simpl; [exact IH|reflexivity].
Qed.

Lemma strip_blank_tail (s w : str) : blank w -> strip (s ++ w) = strip s.
Proof.
  intros Hw. destruct (forallb isspace s) eqn:Es.
  - assert (E1 : strip s = []) by now apply strip_nil.
    assert (E2 : strip (s ++ w) = []).
    { apply strip_nil. rewrite forallb_app, Es. exact Hw. }
    now rewrite E1, E2.
  - unfold strip. rewrite lstrip_nonblank_app by (unfold blank; congruence).
    now apply rstrip_blank_tail.
Qed.

Lemma strip_close (p : str) : strip (p ++ lit "\n\n") = strip p.
Proof. apply strip_blank_tail. reflexivity. Qed.

Lemma estimate_positive_nonblank (p : str) :
  (0 < estimate_tokens p)%Z -> nonblank p.
Proof.
  intros H. apply nonblank_not_blank. intros Hb.
  rewrite (estimate_tokens_blank p Hb) in H. lia.
Qed.

Section Loop.

Variable self : ChunkSplitter.
Variable hd : option str.
Variable k : str.

Lemma paragraph_step_tokens (b b' : Buffer) (p : str) :
  paragraph_step self hd k b p = Ok b' ->
  (0 <= current_tokens b)%Z -> (0 <= current_tokens b')%Z.
Proof.
  pose proof (estimate_tokens_nonneg p) as Hp.
  unfold paragraph_step. destruct (_ >? _)%Z.
  - intros H _. apply bind_Ok in H as [[cs n] [_ H]]. now injection H as <-.
  - intros H Hb. injection H as <-. simpl. lia.
Qed.

Lemma paragraph_fold_tokens (ps : list str) :
  forall b b',
    foldM (paragraph_step self hd k) ps b = Ok b' ->
    (0 <= current_tokens b)%Z -> (0 <= current_tokens b')%Z.
Proof.
  induction ps as [|p ps IH]; intros b b'; cbn [foldM].
  - intros H; now injection H as <-.
  - intros H Hb. apply bind_Ok in H as [b1 [E1 H]].
    apply (IH b1 b' H). now apply (paragraph_step_tokens b b1 p).
Qed.

(** A paragraph over the budget leaves the loop as a chunk of its own. *)
Lemma paragraph_loop_oversized (pre post : list str) (p : str) (b : Buffer)
  (cs : list Chunk) (n : nat) :
  (0 <= max_chunk_tokens self)%Z -> (0 <= current_tokens b)%Z ->
  (estimate_tokens p > max_chunk_tokens self)%Z ->
  paragraph_loop self hd k (pre ++ p :: post) b = Ok (cs, n) ->
  exists c, In c cs /\ text c = strip p /\ heading c = hd /\ kind c = k.
Proof.
  intros HT Hb Hp H. unfold paragraph_loop in H.
  apply bind_Ok in H as [b3 [E H]]. rewrite foldM_app in E.
  apply bind_Ok in E as [b1 [E1 E]]. cbn [foldM] in E.
  apply bind_Ok in E as [b2 [E2 E3]].
  pose proof (paragraph_fold_tokens pre b b1 E1 Hb) as Hb1.
  unfold paragraph_step in E2.
  replace (current_tokens b1 + estimate_tokens p >? max_chunk_tokens self)%Z
    with true in E2
    by (symmetry; rewrite Z.gtb_ltb; apply Z.ltb_lt; lia).
  apply bind_Ok in E2 as [[cs2 n2] [_ E2]]. injection E2 as <-.
  assert (Hnb : nonblank (p ++ lit "\n\n")).
  { apply nonblank_app_l, estimate_positive_nonblank. lia. }
  assert (Hflush : forall cs0 n0 cs' n',
             flush hd k cs0 n0 (p ++ lit "\n\n") = Ok (cs', n') ->
             exists c, In c cs' /\ text c = strip p /\
                       heading c = hd /\ kind c = k).
  { intros cs0 n0 cs' n' Hf.
    apply flush_cases in Hf as [[Eb _]|[_ [h [_ [-> _]]]]];
      [now elim Hnb|].
    eexists. split; [apply in_or_app; right; now left|].
    cbn [text heading kind]. now rewrite strip_close. }
  destruct post as [|q post].
  - cbn [foldM] in E3. injection E3 as <-.
    cbn [chunks ord_counter current_chunk] in H.
    now apply Hflush in H.
  - cbn [foldM] in E3. apply bind_Ok in E3 as [b4 [E4 E5]].
    unfold paragraph_step in E4.
    cbn [chunks ord_counter current_chunk current_tokens] in E4.
    pose proof (estimate_tokens_nonneg q) as Hq.
    replace (estimate_tokens p + estimate_tokens q >? max_chunk_tokens self)%Z
      with true in E4
      by (symmetry; rewrite Z.gtb_ltb; apply Z.ltb_lt; lia).
    apply bind_Ok in E4 as [[cs4 n4] [Ef E4]]. injection E4 as <-.
    apply Hflush in Ef as [c [Hc Hprops]].
    apply paragraph_fold_spec in E5 as [o5 [C5 _]]. cbn [chunks] in C5.
    apply flush_spec in H as [o6 [-> _]].
    exists c. split; [|exact Hprops].
    rewrite C5. apply in_or_app. left. apply in_or_app. now left.
Qed.

End Loop.

(** X4. With a budget that is not negative, a paragraph whose own estimate
    is over the budget is never joined to another: one of the chunks of
    [split_plaintext] has exactly that paragraph, trimmed, as its text. *)
Theorem X4_oversized_paragraph_alone (self : ChunkSplitter) (t k p : str)
  (cs : list Chunk) :
  (0 <= max_chunk_tokens self)%Z ->
  In p (re_split_blank t) ->
  (estimate_tokens p > max_chunk_tokens self)%Z ->
  split_plaintext self t k = Ok cs ->
  exists c, In c cs /\ text c = strip p.
Proof.
  intros HT Hin Hp H. apply in_split in Hin as [pre [post E]].
  unfold split_plaintext in H. rewrite E in H.
  apply bind_Ok in H as [[cs' n] [El H]]. injection H as <-.
  apply paragraph_loop_oversized in El as [c [Hc [Et _]]];
    try assumption; [|simpl; lia].
  now exists c.
Qed.

Lemma X4_oversized_paragraph_alone_witness :
  exists cs c,
    split_plaintext (mkChunkSplitter 2 50 50) (lit "a b c d\n\ne") (lit "doc")
    = Ok cs /\
    In c cs /\ text c = lit "a b c d".
Proof.
  destruct (split_plaintext_total (mkChunkSplitter 2 50 50)
              (lit "a b c d\n\ne") (lit "doc")) as [cs E];
    [apply encodable_check; reflexivity|].
  destruct (X4_oversized_paragraph_alone (mkChunkSplitter 2 50 50)
              (lit "a b c d\n\ne") (lit "doc") (lit "a b c d") cs)
    as [c [Hc Ht]].
  - cbn. lia.
  - left. reflexivity.
  - reflexivity.
  - exact E.
  - exists cs, c. split; [exact E|]. split; [exact Hc|].
    rewrite Ht. reflexivity.
Defined.

End Oversized.

(** ** The first chunk of a section over the budget *)

Module SeedFlush.

Import Py chunk_splitter Spec XSpec PyFacts LoopFacts SplitFacts DocFacts Claims
  WordFacts LoopWords.

Lemma first_paragraph_head (s : str) :
  forall cur p rest,
    re_split_blank_from s cur false = p :: rest -> exists x, p = rev cur ++ x.
Proof.
  induction s as [|c s IH]; intros cur p rest; cbn [re_split_blank_from].
  - intros H. injection H as <- _. exists []. now rewrite app_nil_r.
  - assert (R : re_split_blank_from s (c :: cur) false = p :: rest ->
                exists x, p = rev cur ++ x).
    { intros H. apply IH in H as [x ->]. exists (c :: x).
      cbn [rev]. now rewrite <- app_assoc. }
    destruct (c =? LF)%N; [|exact R].
    destruct s as [|c2 s']; [exact R|].
    destruct (c2 =? LF)%N; [|exact R].
    intros H. injection H as <- _. exists []. now rewrite app_nil_r.
Qed.

Lemma strip_head (s : str) (c : codepoint) (r : str) :
  strip s = c :: r -> isspace c = false.
Proof.
  unfold strip. intros E.
  destruct (rstrip_split (lstrip s)) as [w [Ew _]]. rewrite E in Ew.
  cbn [app] in Ew. now apply lstrip_head in Ew.
Qed.

(** The first paragraph of a trimmed text is blank only when the text is
    empty. *)
Lemma first_paragraph_blank (s p : str) (rest : list str) :
  re_split_blank (strip s) = p :: rest -> blank p -> strip s = [].
Proof.
  intros E Hb. destruct (strip s) as [|c r] eqn:Es; [reflexivity|].
  exfalso. pose proof (strip_head s c r Es) as Hc.
  unfold re_split_blank in E. cbn [re_split_blank_from] in E.
  assert (Hl : (c =? LF)%N = false).
  { destruct (c =? LF)%N eqn:El; [|reflexivity].
    apply N.eqb_eq in El. subst c. discriminate Hc. }
  rewrite Hl in E. apply first_paragraph_head in E as [x ->].
  unfold blank in Hb. cbn in Hb. now rewrite Hc in Hb.
Qed.

Lemma split_appended_cons (p : str) (ps : list str) :
  split (appended (p :: ps)) = split p ++ split (appended ps).
Proof.
  unfold appended. cbn [map concat]. rewrite <- app_assoc.
  change (lit "\n\n" ++ ?x) with (LF :: LF :: x).
  unfold split. rewrite split_from_sep by reflexivity. reflexivity.
Qed.

Lemma nonblank_words (p : str) : nonblank p -> split p <> [].
Proof.
  intros Hn E. apply nonblank_not_blank in Hn. apply Hn.
  unfold blank. clear Hn. unfold split in E.
  assert (G : forall s cur, split_from s cur = [] -> cur = [] /\ forallb isspace s = true).
  { induction s as [|c s IH]; intros cur; cbn [split_from forallb].
    - destruct cur; [now split|discriminate].
    - destruct (isspace c).
      + destruct cur; [|discriminate]. intros H. apply IH in H as [_ H].
        now split.
      + intros H. apply IH in H as [H _]. discriminate H. }
  now apply G in E.
Qed.

Section Loop.

Variable self : ChunkSplitter.
Variable hd : option str.
Variable k : str.

(** The first chunk the loop makes from a buffer that is not blank: the
    buffer and the longest run of paragraphs the running estimate admits. *)
Lemma loop_first_chunk (ps : list str) :
  forall b cs' n',
    nonblank (current_chunk b) ->
    paragraph_loop self hd k ps b = Ok (cs', n') ->
    exists j c out,
      cs' = chunks b ++ c :: out /\
      text c = strip (current_chunk b ++ appended (firstn j ps)) /\
      heading c = hd /\ ord c = ord_counter b /\
      (forall i, (i < j)%nat ->
         (current_tokens b + paragraph_tokens (firstn (S i) ps)
          <= max_chunk_tokens self)%Z) /\
      ((j < List.length ps)%nat ->
       (current_tokens b + paragraph_tokens (firstn (S j) ps)
        > max_chunk_tokens self)%Z).
Proof.
  induction ps as [|p ps IH]; intros b cs' n' Hn H.
  - unfold paragraph_loop in H. cbn [foldM bind] in H.
    apply flush_cases in H as [[E _]|[_ [h [_ [-> ->]]]]]; [now elim Hn|].
    exists 0%nat. eexists. exists []. cbn [firstn appended map concat].
    rewrite app_nil_r. repeat split; [intros i Hi; lia|cbn; lia].
  - unfold paragraph_loop in H. cbn [foldM] in H.
    apply bind_Ok in H as [b2 [E H]].
    apply bind_Ok in E as [b1 [E1 E2]].
    unfold paragraph_step in E1.
    destruct (current_tokens b + estimate_tokens p >? max_chunk_tokens self)%Z
      eqn:Eo.
    + apply bind_Ok in E1 as [[cs1 n1] [Ef E1]]. injection E1 as <-.
      apply flush_cases in Ef as [[E _]|[_ [h [_ [-> ->]]]]]; [now elim Hn|].
      apply paragraph_fold_spec in E2 as [o2 [C2 _]].
      apply flush_spec in H as [o3 [-> _]]. rewrite C2. cbn [chunks].
      exists 0%nat. eexists. exists (o2 ++ o3). rewrite <- !app_assoc.
      cbn [firstn appended map concat]. rewrite app_nil_r.
      repeat split; [intros i Hi; lia|].
      intros _. unfold paragraph_tokens. cbn.
      rewrite Z.gtb_ltb in Eo. apply Z.ltb_lt in Eo. lia.
    + injection E1 as <-.
      assert (L : paragraph_loop self hd k ps
                    (mkBuffer (chunks b)
                       (current_chunk b ++ p ++ lit "\n\n")
                       (current_tokens b + estimate_tokens p)%Z
                       (ord_counter b)) = Ok (cs', n')).
      { unfold paragraph_loop. rewrite E2. exact H. }
      apply IH in L as [j [c [out [C [T [Hh [Ho [Hfit Hmax]]]]]]]];
        [|cbn [current_chunk]; now apply nonblank_app_l].
      cbn [chunks current_chunk current_tokens ord_counter] in *.
      exists (S j), c, out. split; [exact C|]. split.
      { rewrite T. unfold appended. cbn [firstn map concat].
        now rewrite <- !app_assoc. }
      split; [exact Hh|]. split; [exact Ho|].
      rewrite Z.gtb_ltb in Eo. apply Z.ltb_ge in Eo.
      assert (P : forall l, (current_tokens b
                            + paragraph_tokens (p :: l))%Z
                           = (current_tokens b + estimate_tokens p
                              + paragraph_tokens l)%Z).
      { intros l. unfold paragraph_tokens. cbn [map fold_right]. lia. }
      split.
      * intros i Hi. destruct i as [|i].
        { cbn [firstn]. rewrite P. unfold paragraph_tokens. cbn. lia. }
        change (firstn (S (S i)) (p :: ps)) with (p :: firstn (S i) ps).
        rewrite P. apply Hfit. lia.
      * intros Hj. cbn [List.length] in Hj.
        change (firstn (S (S j)) (p :: ps)) with (p :: firstn (S j) ps).
        rewrite P. apply Hmax. lia.
Qed.

End Loop.

Lemma heading_and_paragraph (level hd p : str) (ps : list str) :
  nonblank p ->
  strip (section_prefix level hd ++ appended (p :: ps))
  <> strip (section_prefix level hd).
Proof.
  intros Hp E. apply (f_equal split) in E. rewrite !split_strip in E.
  rewrite split_open_app in E
    by (right; exists (level ++ lit " " ++ hd); unfold section_prefix;
        now rewrite <- !app_assoc).
  rewrite split_appended_cons in E.
  rewrite <- (app_nil_r (split (section_prefix level hd))) in E at 2.
  apply app_inv_head in E. apply app_eq_nil in E as [E _].
  now apply (nonblank_words p Hp).
Qed.

Lemma first_paragraph_nonblank (self : ChunkSplitter) (level hd raw p : str)
  (rest : list str) :
  (estimate_tokens (section_text level hd raw) > max_chunk_tokens self)%Z ->
  re_split_blank (strip raw) = p :: rest ->
  (estimate_tokens (section_prefix level hd) + estimate_tokens p
   <= max_chunk_tokens self)%Z ->
  nonblank p.
Proof.
  intros Hbig Hp Hfit. apply nonblank_not_blank. intros Hb.
  pose proof (first_paragraph_blank raw p rest Hp Hb) as E.
  unfold section_text in Hbig. rewrite E in Hbig.
  rewrite (estimate_tokens_blank p Hb) in Hfit.
  unfold section_prefix in Hfit.
  replace (level ++ lit " " ++ hd ++ lit "\n\n" ++ [])
    with (level ++ lit " " ++ hd ++ lit "\n\n") in Hbig
    by now rewrite app_nil_r.
  lia.
Qed.

(** C9, as the code has it (flush of the seed).  On a budget overflow the
    paragraph loop flushes the buffer whenever its text is not blank, the
    seed prefix counted.  So the first chunk of a section over the budget
    depends on its first paragraph: when the paragraph does not fit after
    the heading, the first chunk is the heading line alone, its text the
    trimmed prefix with no paragraph; when it fits, the first chunk is not
    the heading alone: its text is the heading followed by the first
    paragraph and by the paragraphs after it as long as the running
    estimate stays within the budget. *)
Theorem C9_seed_flush (self : ChunkSplitter) :
  (forall hd k b para b',
      (current_tokens b + estimate_tokens para > max_chunk_tokens self)%Z ->
      paragraph_step self hd k b para = Ok b' ->
      (nonblank (current_chunk b) ->
       exists c, chunks b' = chunks b ++ [c] /\
                 text c = strip (current_chunk b)) /\
      (~ nonblank (current_chunk b) -> chunks b' = chunks b)) /\
  (forall cs n level hd raw p rest cs' n',
      is_level level ->
      (estimate_tokens (section_text level hd raw) > max_chunk_tokens self)%Z ->
      re_split_blank (strip raw) = p :: rest ->
      (estimate_tokens (section_prefix level hd) + estimate_tokens p
       > max_chunk_tokens self)%Z ->
      markdown_section self cs n level hd raw = Ok (cs', n') ->
      exists c out,
        cs' = cs ++ c :: out /\
        text c = strip (section_prefix level hd) /\
        heading c = Some hd /\ ord c = n) /\
  (forall cs n level hd raw p rest cs' n',
      is_level level ->
      (estimate_tokens (section_text level hd raw) > max_chunk_tokens self)%Z ->
      re_split_blank (strip raw) = p :: rest ->
      (estimate_tokens (section_prefix level hd) + estimate_tokens p
       <= max_chunk_tokens self)%Z ->
      markdown_section self cs n level hd raw = Ok (cs', n') ->
      nonblank p /\
      exists j c out,
        cs' = cs ++ c :: out /\
        text c
        = strip (section_prefix level hd ++ appended (p :: firstn j rest)) /\
        text c <> strip (section_prefix level hd) /\
        heading c = Some hd /\ ord c = n /\
        (estimate_tokens (section_prefix level hd)
         + paragraph_tokens (p :: firstn j rest) <= max_chunk_tokens self)%Z /\
        ((j < List.length rest)%nat ->
         (estimate_tokens (section_prefix level hd)
          + paragraph_tokens (p :: firstn (S j) rest)
          > max_chunk_tokens self)%Z)).
Proof.
  split; [|split].
  - intros hd k b para b' Hover H. unfold paragraph_step in H.
    replace (current_tokens b + estimate_tokens para >? max_chunk_tokens self)%Z
      with true in H
      by (symmetry; rewrite Z.gtb_ltb; apply Z.ltb_lt; lia).
    apply bind_Ok in H as [[cs n] [Ef H]]. injection H as <-.
    cbn [chunks].
    apply flush_cases in Ef as [[E [-> ->]]|[Hn [h [_ [-> ->]]]]].
    + split; [intros Hn; now elim Hn|reflexivity].
    + split; [|intros Hb; now elim Hb]. intros _. now eexists.
  - intros cs n level hd raw p rest cs' n' Hl Hbig Hp Hover H.
    unfold markdown_section in H.
    fold (section_text level hd raw) (section_prefix level hd) in H.
    replace (estimate_tokens (section_text level hd raw)
             >? max_chunk_tokens self)%Z with true in H
      by (symmetry; rewrite Z.gtb_ltb; apply Z.ltb_lt; lia).
    rewrite Hp in H.
    apply loop_first_chunk in H as [j [c [out [C [T [Hh [Ho [Hfit _]]]]]]]];
      [|now apply section_prefix_nonblank].
    cbn [chunks current_chunk current_tokens ord_counter] in *.
    destruct j as [|j].
    + exists c, out. cbn [firstn appended map concat] in T.
      rewrite app_nil_r in T. now repeat split.
    + exfalso. specialize (Hfit 0%nat ltac:(lia)).
      unfold paragraph_tokens in Hfit. cbn in Hfit. lia.
  - intros cs n level hd raw p rest cs' n' Hl Hbig Hp Hin H.
    pose proof (first_paragraph_nonblank self level hd raw p rest Hbig Hp Hin)
      as Hnb.
    split; [exact Hnb|].
    unfold markdown_section in H.
    fold (section_text level hd raw) (section_prefix level hd) in H.
    replace (estimate_tokens (section_text level hd raw)
             >? max_chunk_tokens self)%Z with true in H
      by (symmetry; rewrite Z.gtb_ltb; apply Z.ltb_lt; lia).
    rewrite Hp in H.
    apply loop_first_chunk in H as [j [c [out [C [T [Hh [Ho [Hfit Hmax]]]]]]]];
      [|now apply section_prefix_nonblank].
    cbn [chunks current_chunk current_tokens ord_counter] in *.
    destruct j as [|j].
    + exfalso. specialize (Hmax ltac:(cbn; lia)).
      unfold paragraph_tokens in Hmax. cbn in Hmax. lia.
    + exists j, c, out. cbn [firstn] in T. split; [exact C|].
      split; [exact T|]. split.
      { rewrite T. now apply heading_and_paragraph. }
      split; [exact Hh|]. split; [exact Ho|]. split.
      * apply (Hfit j). lia.
      * intros Hj. apply Hmax. cbn [List.length]. lia.
Qed.


Lemma C9_seed_flush_witness :
  (exists cs' n',
      markdown_section (mkChunkSplitter 3 50 50) [] 0 (lit "##") (lit "H")
        (lit "a b c d") = Ok (cs', n') /\
      exists c out,
        cs' = [] ++ c :: out /\
        text c = strip (section_prefix (lit "##") (lit "H")) /\
        heading c = Some (lit "H") /\ ord c = 0) /\
  (exists cs' n',
      markdown_section (mkChunkSplitter 8 50 50) [] 0 (lit "##") (lit "H")
        (lit "a b\n\nc d e f g h") = Ok (cs', n') /\
      nonblank (lit "a b") /\
      exists j c out,
        cs' = [] ++ c :: out /\
        text c
        = strip (section_prefix (lit "##") (lit "H")
                   ++ appended (lit "a b" :: firstn j [lit "c d e f g h"])) /\
        text c <> strip (section_prefix (lit "##") (lit "H")) /\
        heading c = Some (lit "H") /\ ord c = 0 /\
        (estimate_tokens (section_prefix (lit "##") (lit "H"))
         + paragraph_tokens (lit "a b" :: firstn j [lit "c d e f g h"])
         <= 8)%Z /\
        ((j < 1)%nat ->
         (estimate_tokens (section_prefix (lit "##") (lit "H"))
          + paragraph_tokens (lit "a b" :: firstn (S j) [lit "c d e f g h"])
          > 8)%Z)).
Proof.
  split.
  - destruct (markdown_section (mkChunkSplitter 3 50 50) [] 0 (lit "##")
                (lit "H") (lit "a b c d")) as [[cs' n']|e] eqn:E;
      [|vm_compute in E; discriminate E].
    exists cs', n'. split; [reflexivity|].
    apply (proj1 (proj2 (C9_seed_flush (mkChunkSplitter 3 50 50))) [] 0
             (lit "##") (lit "H") (lit "a b c d") (lit "a b c d") [] cs' n').
    + now left.
    + vm_compute; reflexivity.
    + reflexivity.
    + vm_compute; reflexivity.
    + exact E.
  - destruct (markdown_section (mkChunkSplitter 8 50 50) [] 0 (lit "##")
                (lit "H") (lit "a b\n\nc d e f g h")) as [[cs' n']|e] eqn:E;
      [|vm_compute in E; discriminate E].
    exists cs', n'. split; [reflexivity|].
    apply (proj2 (proj2 (C9_seed_flush (mkChunkSplitter 8 50 50))) [] 0
             (lit "##") (lit "H") (lit "a b\n\nc d e f g h") (lit "a b")
             [lit "c d e f g h"] cs' n').
    + now left.
    + vm_compute; reflexivity.
    + reflexivity.
    + vm_compute; discriminate.
    + exact E.
Defined.

End SeedFlush.

(** ** The shape of the digest *)

Module HashShape.

Import Py chunk_splitter XSpec.
Local Open Scope N_scope.


Lemma be_bytes_length (n : nat) (x : N) : List.length (SHA256.be_bytes n x) = n.
Proof. unfold SHA256.be_bytes. now rewrite length_map, length_rev, length_seq. Qed.

Lemma be_bytes_small (n : nat) (x : N) :
  Forall (fun b => b < 256) (SHA256.be_bytes n x).
Proof.
  unfold SHA256.be_bytes. apply Forall_forall. intros b Hb.
  apply in_map_iff in Hb as [i [<- _]].
  change 255 with (N.ones 8). rewrite N.land_ones.
  apply N.mod_lt. discriminate.
Qed.

Lemma round_length (st : list N) (kw : N * N) :
  List.length (SHA256.round st kw) = List.length st.
Proof.
  unfold SHA256.round.
  destruct st as [|a [|b [|c [|d [|e [|f [|g [|h [|i st]]]]]]]]]; reflexivity.
Qed.

Lemma rounds_length (kws : list (N * N)) :
  forall st, List.length (fold_left SHA256.round kws st) = List.length st.
Proof.
  induction kws as [|kw kws IH]; intros st; simpl; [reflexivity|].
  now rewrite IH, round_length.
Qed.

Lemma compress_length (h block : list N) :
  List.length (SHA256.compress h block) = List.length h.
Proof.
  unfold SHA256.compress.
  rewrite length_map, length_combine, rounds_length. apply Nat.min_id.
Qed.

Lemma blocks_length (n : nat) :
  forall bs h, List.length (SHA256.blocks n bs h) = List.length h.
Proof.
  induction n as [|n IH]; intros bs h; simpl; [reflexivity|].
  now rewrite IH, compress_length.
Qed.

Lemma flat_map_length_const {A B} (f : A -> list B) (k : nat) (l : list A) :
  (forall a, List.length (f a) = k) ->
  List.length (flat_map f l) = (k * List.length l)%nat.
Proof.
  intros H. induction l as [|a l IH]; simpl; [lia|].
  rewrite length_app, H, IH. lia.
Qed.

Lemma digest_length (msg : list N) : List.length (SHA256.digest msg) = 32%nat.
Proof.
  unfold SHA256.digest.
  rewrite (flat_map_length_const _ 4) by (intros a; apply be_bytes_length).
  now rewrite blocks_length.
Qed.

Lemma digest_small (msg : list N) :
  Forall (fun b => b < 256) (SHA256.digest msg).
Proof.
  unfold SHA256.digest. apply Forall_forall. intros b Hb.
  apply in_flat_map in Hb as [x [_ Hb]].
  pose proof (be_bytes_small 4 x) as H. rewrite Forall_forall in H.
  now apply H.
Qed.

Lemma hex_digit_lower (d : N) : d < 16 -> lower_hex (SHA256.hex_digit d).
Proof.
  intros H. unfold SHA256.hex_digit, lower_hex.
  destruct (d <? 10) eqn:E.
  - apply N.ltb_lt in E. left. lia.
  - apply N.ltb_ge in E. right. lia.
Qed.

Lemma hexdigest_shape (msg : list N) :
  List.length (SHA256.hexdigest msg) = 64%nat /\
  Forall lower_hex (SHA256.hexdigest msg).
Proof.
  unfold SHA256.hexdigest. split.
  - rewrite (flat_map_length_const _ 2) by reflexivity.
    now rewrite digest_length.
  - apply Forall_forall. intros c Hc.
    apply in_flat_map in Hc as [b [Hb Hc]].
    pose proof (digest_small msg) as Hs. rewrite Forall_forall in Hs.
    specialize (Hs b Hb).
    destruct Hc as [<-|[<-|[]]]; apply hex_digit_lower.
    + rewrite N.shiftr_div_pow2. change (2 ^ 4) with 16.
      apply N.Div0.div_lt_upper_bound. lia.
    + change 15 with (N.ones 4). rewrite N.land_ones.
      apply N.mod_lt. discriminate.
Qed.

End HashShape.

(** ** Every chunk, and the inputs at the edges *)

Module Edge.

Import Py chunk_splitter Spec XSpec PyFacts Pieces LoopFacts SplitFacts DocFacts Claims WordFacts LoopWords HashShape.

(** *** Every chunk is of one of four makes *)

Lemma all_chunks (Q : Chunk -> Prop) :
  (forall hd k c, from_buffer hd k c -> Q c) ->
  (forall self level hd raw c, whole_section self level hd raw c -> Q c) ->
  (forall pre h, nonblank pre -> compute_hash (strip pre) = Ok h ->
                 Q (prologue_chunk pre h)) ->
  (forall sid m n h, compute_hash (content m) = Ok h ->
                     Q (message_chunk sid m n h)) ->
  (forall sid m i n s, Q s -> Q (sub_chunk_of sid m i n s)) ->
  forall self,
    (forall t k cs, split_plaintext self t k = Ok cs -> Forall Q cs) /\
    (forall md cs, split_markdown self md = Ok cs -> Forall Q cs) /\
    (forall sid ms cs,
        split_session_messages self sid ms = Ok cs -> Forall Q cs).
Proof.
  intros Hb Hw Hp Hm Hs self.
  assert (Hplain : forall t k cs,
             split_plaintext self t k = Ok cs -> Forall Q cs).
  { intros t k cs H. apply split_plaintext_spec in H as [_ F].
    eapply Forall_impl; [|exact F]. intros c. apply Hb. }
  split; [exact Hplain|]. split.
  - intros md cs H.
    destruct (split_markdown_inv self (fun cs _ => Forall Q cs))
      with (md := md) (cs := cs) as [n Hn]; try assumption.
    + constructor.
    + intros pre h Hn He. constructor; [now apply Hp|constructor].
    + intros cs0 n0 level hd raw cs' n' _ Hcs E.
      apply markdown_section_spec in E as [out [-> [_ [_ F]]]].
      apply Forall_app; split; [exact Hcs|].
      eapply Forall_impl; [|exact F].
      intros c [Hc|Hc]; [now apply (Hb (Some hd) (lit "doc"))|].
      now apply (Hw self level hd raw).
  - intros sid ms cs H. unfold split_session_messages in H.
    apply bind_Ok in H as [[cs' n] [E H]]. injection H as <-.
    apply messages_fold_chunks in E as [out [-> [H2 _]]]. simpl.
    apply Forall_forall. intros c Hc.
    destruct (H2 c Hc) as [m [n0 [om [_ [Hcm Hin]]]]].
    unfold chunks_of_message in Hcm. destruct (_ >? _)%Z.
    + destruct Hcm as [subs [Es ->]]. apply Hplain in Es.
      clear - Es Hin Hs. revert Hin. generalize 0 at 1. generalize n0.
      induction Es as [|s subs Hs0 _ IH]; intros n i Hin; simpl in Hin;
        [contradiction|].
      destruct Hin as [<-|Hin]; [now apply Hs|]. now apply (IH (S n) (S i)).
    + destruct Hcm as [h [Eh ->]]. destruct Hin as [<-|[]]. now apply Hm.
Qed.

(** X5. Every chunk of the three splitters carries a hash, and the hash is
    64 lowercase hexadecimal digits. *)
Theorem X5_hash_shape (self : ChunkSplitter) :
  (forall t k cs,
      split_plaintext self t k = Ok cs -> Forall well_hashed cs) /\
  (forall md cs,
      split_markdown self md = Ok cs -> Forall well_hashed cs) /\
  (forall sid ms cs,
      split_session_messages self sid ms = Ok cs -> Forall well_hashed cs).
Proof.
  assert (Hh : forall s h, compute_hash s = Ok h ->
                 List.length h = 64 /\ Forall lower_hex h).
  { intros s h. unfold compute_hash. destruct (encode_utf8 s) as [bs|];
      [|discriminate]. intros H. injection H as <-. apply hexdigest_shape. }
  apply all_chunks.
  - intros hd k c [buf [h [_ [Eh [_ [_ [_ [_ [Ec _]]]]]]]]].
    exists h. split; [exact Ec|now apply (Hh buf)].
  - intros s level hd raw c [_ [_ [_ [_ [_ [Eh [Hn _]]]]]]].
    unfold well_hashed. destruct (hash c) as [h|]; [|congruence].
    exists h. split; [reflexivity|now apply (Hh _ h Eh)].
  - intros pre h _ Eh. exists h. split; [reflexivity|now apply (Hh _ h Eh)].
  - intros sid m n h Eh. exists h. split; [reflexivity|now apply (Hh _ h Eh)].
  - intros sid m i n s Hs. exact Hs.
Qed.

Lemma X5_hash_shape_witness :
  exists cs,
    split_markdown default (lit "intro\n## Title\nbody") = Ok cs /\
    Forall well_hashed cs.
Proof.
  destruct (split_markdown_total default (lit "intro\n## Title\nbody"))
    as [cs E]; [apply encodable_check; reflexivity|].
  exists cs. split; [exact E|].
  exact (proj1 (proj2 (X5_hash_shape default)) _ _ E).
Defined.

(** *** Blank input and input without header *)

Lemma blank_Forall (s : str) :
  blank s <-> Forall (fun c => isspace c = true) s.
Proof. unfold blank. rewrite forallb_forall, Forall_forall. tauto. Qed.

Lemma flush_blank (hd : option str) (k : str) (cs : list Chunk) (n : nat)
  (cur : str) :
  blank cur -> flush hd k cs n cur = Ok (cs, n).
Proof.
  intros H. apply strip_nil in H. unfold flush. now rewrite H.
Qed.

Lemma paragraph_fold_blank (self : ChunkSplitter) (hd : option str) (k : str)
  (ps : list str) :
  Forall blank ps ->
  forall b, blank (current_chunk b) ->
    exists b', foldM (paragraph_step self hd k) ps b = Ok b' /\
               chunks b' = chunks b /\ ord_counter b' = ord_counter b /\
               blank (current_chunk b').
Proof.
  induction 1 as [|p ps Hp Hps IH]; intros b Hb; cbn [foldM].
  - now exists b.
  - assert (Hc : blank (p ++ lit "\n\n"))
      by (apply blank_app; split; [exact Hp|reflexivity]).
    unfold paragraph_step at 1. destruct (_ >? _)%Z.
    + rewrite flush_blank by exact Hb. cbn [bind].
      destruct (IH (mkBuffer (chunks b) (p ++ lit "\n\n")
                      (estimate_tokens p) (ord_counter b)) Hc)
        as [b' [E [C [N B]]]].
      exists b'. now repeat split.
    + cbn [bind].
      destruct (IH (mkBuffer (chunks b) (current_chunk b ++ p ++ lit "\n\n")
                      (current_tokens b + estimate_tokens p)%Z
                      (ord_counter b))) as [b' [E [C [N B]]]].
      * cbn [current_chunk]. apply blank_app. now split.
      * exists b'. now repeat split.
Qed.

Lemma match_header_marks (s level hd : str) (n : nat) :
  match_header s = Some (level, hd, n) -> exists b, s = HASH :: HASH :: b.
Proof.
  unfold match_header. destruct s as [|h1 [|h2 s2]]; try discriminate.
  destruct ((h1 =? HASH) && (h2 =? HASH))%N eqn:E; [|discriminate].
  apply andb_true_iff in E as [E1 E2].
  apply N.eqb_eq in E1. apply N.eqb_eq in E2. subst. intros _. now exists s2.
Qed.

Lemma header_split_from_none (s : str) :
  forall bol cur,
    (forall a b, s = a ++ HASH :: HASH :: b ->
                 match a with [] => bol = false | _ => last a LF <> LF end) ->
    header_split_from s bol 0 cur = [rev cur ++ s].
Proof.
  induction s as [|c s IH]; intros bol cur H; cbn [header_split_from].
  - now rewrite app_nil_r.
  - destruct (if bol then match_header (c :: s) else None)
      as [[[level hd] n]|] eqn:E.
    + destruct bol; [|discriminate].
      apply match_header_marks in E as [b E].
      specialize (H [] b E). discriminate H.
    + rewrite IH.
      * cbn [rev]. now rewrite <- app_assoc.
      * intros a b Es. specialize (H (c :: a) b). cbn [app] in H.
        rewrite Es in H. specialize (H eq_refl).
        destruct a as [|a0 a].
        -- cbn [last] in H. apply N.eqb_neq. exact H.
        -- exact H.
Qed.

Lemma header_split_none (md : str) :
  no_header_line md -> header_split md = [md].
Proof.
  intros H. unfold header_split. rewrite header_split_from_none;
    [reflexivity|].
  intros a b E. specialize (H a b E). destruct a; [now elim H|exact H].
Qed.

Lemma blank_no_header_line (md : str) : blank md -> no_header_line md.
Proof.
  intros Hb a b E. exfalso. rewrite E in Hb.
  apply blank_app in Hb as [_ Hb]. unfold blank in Hb. discriminate Hb.
Qed.

(** X6. A text of whitespace only, the empty text included, gives no chunk,
    from [split_plaintext] and from [split_markdown], whatever the
    budget. *)
Theorem X6_blank_input (self : ChunkSplitter) (t k : str) :
  blank t ->
  split_plaintext self t k = Ok [] /\ split_markdown self t = Ok [].
Proof.
  intros Hb. split.
  - unfold split_plaintext, paragraph_loop.
    destruct (paragraph_fold_blank self None k (re_split_blank t))
      with (b := mkBuffer [] [] 0%Z 0) as [b' [E [C [N B]]]].
    + apply Forall_forall. intros p Hp. apply blank_Forall.
      pose proof (re_split_blank_Forall (fun c => isspace c = true) t
                    (proj1 (blank_Forall t) Hb)) as F.
      rewrite Forall_forall in F. now apply F.
    + reflexivity.
    + rewrite E. cbn [bind]. rewrite flush_blank by exact B.
      cbn [bind]. now rewrite C.
  - unfold split_markdown.
    rewrite (header_split_none t (blank_no_header_line t Hb)).
    apply strip_nil in Hb. now rewrite Hb.
Qed.

Lemma X6_blank_input_witness :
  split_plaintext default (lit " \n\n ") (lit "doc") = Ok [] /\
  split_markdown default (lit " \n\n ") = Ok [].
Proof. apply X6_blank_input. reflexivity. Defined.

Lemma no_mark_no_header_line (md : str) :
  ~ In HASH md -> no_header_line md.
Proof.
  intros H a b E. exfalso. apply H. rewrite E.
  apply in_or_app. right. now left.
Qed.

(** X7. A document in which no line starts with two marks and that is not
    blank gives exactly one chunk from [split_markdown]: the whole document
    trimmed, without heading, of kind doc and [ord] 0. *)
Theorem X7_no_header (self : ChunkSplitter) (md : str) :
  no_header_line md -> nonblank md -> encodable md ->
  exists h,
    compute_hash (strip md) = Ok h /\
    split_markdown self md = Ok [prologue_chunk md h].
Proof.
  intros Hn Hb He.
  assert (Hs : encodable (strip md)) by now apply strip_Forall.
  apply compute_hash_Ok in Hs as [h Eh]. exists h. split; [exact Eh|].
  unfold split_markdown. rewrite (header_split_none md Hn).
  apply truthy_strip in Hb. rewrite Hb, Eh. reflexivity.
Qed.

Lemma X7_no_header_witness :
  exists h,
    compute_hash (strip (lit "just some text\n")) = Ok h /\
    split_markdown default (lit "just some text\n")
    = Ok [prologue_chunk (lit "just some text\n") h].
Proof.
  apply X7_no_header.
  - apply no_mark_no_header_line. intros H. cbn in H.
    repeat (destruct H as [H|H]; [discriminate H|]). exact H.
  - discriminate.
  - apply encodable_check. reflexivity.
Defined.

(** *** Messages within the budget *)

Lemma messages_fold_within (self : ChunkSplitter) (sid : Z)
  (ms : list Message) :
  Forall (fun m => (estimate_tokens (content m) <= max_chunk_tokens self)%Z)
    ms ->
  forall cs n cs' n',
    foldM (message_step self sid) ms (cs, n) = Ok (cs', n') ->
    exists out, cs' = cs ++ out /\ Forall2 (is_message_chunk sid) ms out.
Proof.
  induction 1 as [|m ms Hm Hms IH]; intros cs n cs' n'; cbn [foldM].
  - intros H. injection H as <- _. exists []. now rewrite app_nil_r.
  - intros H. apply bind_Ok in H as [[cs1 n1] [E1 H]].
    apply message_step_spec in E1 as [o1 [-> [_ [_ C1]]]].
    unfold chunks_of_message in C1.
    replace (estimate_tokens (content m) >? max_chunk_tokens self)%Z
      with false in C1
      by (symmetry; rewrite Z.gtb_ltb; now apply Z.ltb_ge).
    destruct C1 as [h [Eh ->]].
    apply IH in H as [o2 [-> F]].
    exists (message_chunk sid m n h :: o2). split; [now rewrite <- app_assoc|].
    constructor; [|exact F]. exists h. now split.
Qed.

(** X8. When every message fits the budget, [split_session_messages]
    returns one chunk per message, in the order of the messages: its text
    is the content, its heading names step and role, its kind is "ai" for
    the role "assistant" and "note" otherwise, and its metadata holds the
    session, the step and the role. *)
Theorem X8_messages_within_budget (self : ChunkSplitter) (sid : Z)
  (ms : list Message) (cs : list Chunk) :
  Forall (fun m => (estimate_tokens (content m) <= max_chunk_tokens self)%Z)
    ms ->
  split_session_messages self sid ms = Ok cs ->
  Forall2 (is_message_chunk sid) ms cs.
Proof.
  intros Hm H. unfold split_session_messages in H.
  apply bind_Ok in H as [[cs' n] [E H]]. injection H as <-.
  apply (messages_fold_within self sid ms Hm) in E as [out [-> F]].
  exact F.
Qed.

Lemma X8_messages_within_budget_witness :
  exists cs,
    split_session_messages default 7
      [mkMessage (lit "hello") (lit "user") 1;
       mkMessage (lit "hi there") (lit "assistant") 2] = Ok cs /\
    Forall2 (is_message_chunk 7)
      [mkMessage (lit "hello") (lit "user") 1;
       mkMessage (lit "hi there") (lit "assistant") 2] cs.
Proof.
  destruct (split_session_messages_total default 7
              [mkMessage (lit "hello") (lit "user") 1;
               mkMessage (lit "hi there") (lit "assistant") 2]) as [cs E].
  - constructor; [apply encodable_check; reflexivity|].
    constructor; [apply encodable_check; reflexivity|constructor].
  - exists cs. split; [exact E|].
    apply (X8_messages_within_budget default 7 _ cs); [|exact E].
    constructor; [discriminate|]. constructor; [discriminate|constructor].
Defined.

End Edge.

(** ** The bound the paragraph loop keeps *)

Module Budget.

Import Py chunk_splitter Spec XSpec PyFacts LoopFacts SplitFacts DocFacts Claims WordFacts LoopWords Oversized.

Local Open Scope Z_scope.

Lemma estimate_exact (s : str) :
  word_count s < 2 ^ 48 -> estimate_tokens s = 13 * word_count s / 10.
Proof.
  intros H. unfold estimate_tokens. fold (word_count s).
  rewrite FloatFacts.mul_1_3_exact by (unfold word_count in *; lia).
  apply Z.quot_div_nonneg; unfold word_count; lia.
Qed.

Lemma words_le_estimate (s : str) :
  word_count s < 2 ^ 48 -> word_count s <= estimate_tokens s.
Proof.
  intros H. rewrite (estimate_exact s H).
  apply Z.div_le_lower_bound; unfold word_count; lia.
Qed.

Lemma word_count_app (a b : str) :
  open_buffer a -> word_count (a ++ b) = word_count a + word_count b.
Proof.
  intros H. unfold word_count. rewrite (split_open_app a b H), length_app.
  lia.
Qed.

Lemma word_count_close (p : str) : word_count (p ++ lit "\n\n") = word_count p.
Proof. unfold word_count. now rewrite split_close. Qed.

Section Loop.

Variable self : ChunkSplitter.
Variable hd : option str.
Variable k : str.
Variable paragraphs : list str.

Lemma flush_bound (cs : list Chunk) (n : nat) (cur : str) (tokens : Z)
  (cs' : list Chunk) (n' : nat) :
  flush hd k cs n cur = Ok (cs', n') ->
  bounded_buffer self paragraphs (mkBuffer cs cur tokens n) ->
  word_count cur < 2 ^ 48 ->
  Forall (within_bound self paragraphs) cs ->
  Forall (within_bound self paragraphs) cs'.
Proof.
  intros H [Hw Hb] Hs Hcs. cbn [current_chunk current_tokens] in *.
  apply flush_cases in H as [[_ [-> _]]|[_ [h [_ [-> _]]]]]; [exact Hcs|].
  apply Forall_app; split; [exact Hcs|]. constructor; [|constructor].
  destruct Hb as [Hle|[p [Hin [Hp ->]]]].
  - left. cbn [token_est]. rewrite (estimate_exact cur Hs).
    apply Z.div_le_mono; lia.
  - right. exists p. split; [exact Hin|]. split; [exact Hp|].
    cbn [text]. apply strip_close.
Qed.

Lemma paragraph_step_bound (b b' : Buffer) (p : str) :
  paragraph_step self hd k b p = Ok b' ->
  In p paragraphs ->
  open_buffer (current_chunk b) ->
  word_count (current_chunk b) < 2 ^ 48 -> word_count p < 2 ^ 48 ->
  bounded_buffer self paragraphs b ->
  Forall (within_bound self paragraphs) (chunks b) ->
  bounded_buffer self paragraphs b' /\
  Forall (within_bound self paragraphs) (chunks b').
Proof.
  intros H Hin Ho Hsb Hsp Hb Hcs. unfold paragraph_step in H.
  destruct (current_tokens b + estimate_tokens p >? max_chunk_tokens self)
    eqn:Eo.
  - apply bind_Ok in H as [[cs n] [Ef H]]. injection H as <-.
    cbn [chunks]. split.
    + split; cbn [current_chunk current_tokens].
      * rewrite word_count_close. now apply words_le_estimate.
      * destruct (Z.le_gt_cases (estimate_tokens p) (max_chunk_tokens self))
          as [Hle|Hgt]; [now left|].
        right. exists p. split; [exact Hin|]. split; [lia|reflexivity].
    + apply (flush_bound _ _ _ (current_tokens b) _ _ Ef); assumption.
  - injection H as <-. cbn [chunks]. split; [|exact Hcs].
    rewrite Z.gtb_ltb in Eo. apply Z.ltb_ge in Eo.
    destruct Hb as [Hw _].
    split; cbn [current_chunk current_tokens].
    + rewrite (word_count_app _ _ Ho), word_count_close.
      pose proof (words_le_estimate p Hsp). lia.
    + now left.
Qed.

Lemma total_words_cons (p : str) (ps : list str) :
  total_words (p :: ps) = word_count p + total_words ps.
Proof.
  unfold total_words, word_count. cbn [map concat]. rewrite length_app. lia.
Qed.

Lemma word_count_nonneg (s : str) : 0 <= word_count s.
Proof. unfold word_count. lia. Qed.

Lemma total_words_nonneg (ps : list str) : 0 <= total_words ps.
Proof. unfold total_words. lia. Qed.

Lemma paragraph_fold_bound (ps : list str) :
  forall b b',
    foldM (paragraph_step self hd k) ps b = Ok b' ->
    incl ps paragraphs ->
    open_buffer (current_chunk b) ->
    word_count (current_chunk b) + total_words ps < 2 ^ 48 ->
    bounded_buffer self paragraphs b ->
    Forall (within_bound self paragraphs) (chunks b) ->
    open_buffer (current_chunk b') /\
    word_count (current_chunk b') < 2 ^ 48 /\
    bounded_buffer self paragraphs b' /\
    Forall (within_bound self paragraphs) (chunks b').
Proof.
  induction ps as [|p ps IH]; intros b b'; cbn [foldM].
  - intros H _ Ho Hs Hb Hcs. injection H as <-.
    pose proof (total_words_nonneg []) as Ht0.
    split; [exact Ho|]. split; [lia|]. now split.
  - intros H Hin Ho Hs Hb Hcs. apply bind_Ok in H as [b1 [E1 H]].
    rewrite total_words_cons in Hs.
    pose proof (word_count_nonneg p) as Hp0.
    pose proof (word_count_nonneg (current_chunk b)) as Hc0.
    pose proof (total_words_nonneg ps) as Ht0.
    destruct (paragraph_step_bound b b1 p E1) as [Hb1 Hcs1];
      try assumption; try lia.
    { apply Hin. now left. }
    destruct (paragraph_step_words self hd k b b1 p E1 Ho) as [_ Ho1].
    apply (IH b1 b' H); try assumption.
    + intros q Hq. apply Hin. now right.
    + assert (word_count (current_chunk b1)
              <= word_count (current_chunk b) + word_count p).
      { clear - E1 Ho. unfold paragraph_step in E1. destruct (_ >? _).
        - apply bind_Ok in E1 as [[cs n] [_ E1]]. injection E1 as <-.
          cbn [current_chunk]. rewrite word_count_close.
          pose proof (word_count_nonneg (current_chunk b)). lia.
        - injection E1 as <-. cbn [current_chunk].
          rewrite (word_count_app _ _ Ho), word_count_close. lia. }
      lia.
Qed.

End Loop.

(** X9. The bound the paragraph loop does keep: for a budget [T] that is
    not negative and a text of fewer than [2^48] words, every chunk of
    [split_plaintext] has [token_est] at most [13 T / 10], unless it is one
    paragraph whose own estimate is over [T]. *)
Theorem X9_budget_bound (self : ChunkSplitter) (t k : str) (cs : list Chunk) :
  0 <= max_chunk_tokens self ->
  word_count t < 2 ^ 48 ->
  split_plaintext self t k = Ok cs ->
  Forall (within_bound self (re_split_blank t)) cs.
Proof.
  intros HT Hs H. unfold split_plaintext, paragraph_loop in H.
  apply bind_Ok in H as [[cs' n] [E H]]. injection H as <-.
  apply bind_Ok in E as [b [Ef E]].
  destruct (paragraph_fold_bound self None k (re_split_blank t)
              (re_split_blank t) _ _ Ef) as [Ho [Hsb [Hb Hcs]]].
  - apply incl_refl.
  - now left.
  - cbn [current_chunk]. unfold total_words.
    rewrite re_split_blank_words. exact Hs.
  - split; cbn [current_chunk current_tokens]; [reflexivity|now left].
  - constructor.
  - apply (flush_bound self None k _ _ _ _ (current_tokens b) _ _ E);
      assumption.
Qed.

Lemma X9_budget_bound_witness :
  exists cs,
    split_plaintext (mkChunkSplitter 4 50 50) (lit "a\n\nb\n\nc\n\nd")
      (lit "doc") = Ok cs /\
    Forall (within_bound (mkChunkSplitter 4 50 50)
              (re_split_blank (lit "a\n\nb\n\nc\n\nd"))) cs.
Proof.
  destruct (split_plaintext_total (mkChunkSplitter 4 50 50)
              (lit "a\n\nb\n\nc\n\nd") (lit "doc")) as [cs E];
    [apply encodable_check; reflexivity|].
  exists cs. split; [exact E|].
  apply (X9_budget_bound _ _ (lit "doc")); [cbn; lia|reflexivity|exact E].
Defined.

End Budget.

(** ** The context under a larger budget *)

Module ContextMore.

Import Py query_rag QuerySpec ContextClaims.

Local Open Scope Z_scope.

(** The index at which the loop stops is determined by the budget. *)
Lemma stop_index_mono (results : list SearchResult) (max1 max2 : Z)
  (k1 k2 : nat) :
  max1 <= max2 ->
  (forall j, (1 <= j <= k1)%nat -> tokens (firstn j results) <= max1) ->
  ((k2 < List.length results)%nat ->
   tokens (firstn (S k2) results) > max2) ->
  (k1 <= List.length results)%nat ->
  (k1 <= k2)%nat.
Proof.
  intros Hm Hfit Hover Hk1.
  destruct (Nat.le_gt_cases k1 k2) as [|Hgt]; [assumption|].
  specialize (Hover ltac:(lia)). specialize (Hfit (S k2) ltac:(lia)). lia.
Qed.

(** X10. Raising the budget never drops a source: for [max1 <= max2], the
    context and the sources [build_rag_context] returns for [max1] are
    prefixes of those it returns for [max2]. *)
Theorem X10_context_monotone (results : list SearchResult) (max1 max2 : Z) :
  max1 <= max2 ->
  exists more_context more_sources,
    build_rag_context results max2
    = (fst (build_rag_context results max1) ++ more_context,
       snd (build_rag_context results max1) ++ more_sources).
Proof.
  intros Hm.
  destruct (accumulate_prefix results max1 [] 0 [])
    as [k1 [Hk1 [E1 [Hfit1 _]]]].
  destruct (accumulate_prefix results max2 [] 0 [])
    as [k2 [Hk2 [E2 [_ Hover2]]]].
  assert (Hle : (k1 <= k2)%nat).
  { apply (stop_index_mono results max1 max2 k1 k2 Hm);
      [intros j Hj; specialize (Hfit1 j Hj); lia
      |intros Hlt; specialize (Hover2 Hlt); lia
      |exact Hk1]. }
  unfold build_rag_context. rewrite E1, E2. cbn [app fst snd].
  assert (Hsplit : firstn k2 results
                   = firstn k1 results ++ skipn k1 (firstn k2 results)).
  { rewrite <- (firstn_skipn k1 (firstn k2 results)) at 1.
    f_equal. rewrite firstn_firstn. f_equal. lia. }
  exists (concat (map format_chunk (skipn k1 (firstn k2 results)))),
         (map source_of (skipn k1 (firstn k2 results))).
  rewrite Hsplit at 1 2. now rewrite !map_app, concat_app.
Qed.

Lemma X10_context_monotone_witness :
  (300 <= 600)%Z /\
  exists more_context more_sources,
    build_rag_context
      [candidate 1 (Some (lit "A")) (lit "one") (Some 100);
       candidate 2 None (lit "two") (Some 150);
       candidate 3 (Some (lit "C")) (lit "three") (Some 300)] 600
    = (fst (build_rag_context
              [candidate 1 (Some (lit "A")) (lit "one") (Some 100);
               candidate 2 None (lit "two") (Some 150);
               candidate 3 (Some (lit "C")) (lit "three") (Some 300)] 300)
         ++ more_context,
       snd (build_rag_context
              [candidate 1 (Some (lit "A")) (lit "one") (Some 100);
               candidate 2 None (lit "two") (Some 150);
               candidate 3 (Some (lit "C")) (lit "three") (Some 300)] 300)
         ++ more_sources).
Proof.
  assert (H : (300 <= 600)%Z) by discriminate.
  split; [exact H|]. now apply X10_context_monotone.
Defined.

End ContextMore.

(** ** The chunks of a session *)

Module SessionFacts.

Import Py chunk_splitter Spec XSpec PyFacts LoopFacts SplitFacts DocFacts Claims
  WordFacts LoopWords.

Lemma sub_chunks_of_words (sid : Z) (m : Message) (subs : list Chunk) :
  forall i n, words_of (sub_chunks_of sid m subs i n) = words_of subs.
Proof.
  induction subs as [|s subs IH]; intros i n; [reflexivity|].
  cbn [sub_chunks_of]. unfold words_of in *. cbn [map concat].
  now rewrite IH.
Qed.

Lemma chunks_of_message_words (self : ChunkSplitter) (sid : Z) (m : Message)
  (n : nat) (out : list Chunk) :
  chunks_of_message self sid m n out -> words_of out = split (content m).
Proof.
  unfold chunks_of_message.
  destruct (estimate_tokens (content m) >? max_chunk_tokens self)%Z.
  - intros [subs [E ->]]. rewrite sub_chunks_of_words.
    now apply split_plaintext_words in E.
  - intros [h [_ ->]]. unfold words_of. cbn. now rewrite app_nil_r.
Qed.

Lemma messages_fold_words (self : ChunkSplitter) (sid : Z)
  (ms : list Message) :
  forall cs n cs' n',
    foldM (message_step self sid) ms (cs, n) = Ok (cs', n') ->
    words_of cs' = words_of cs ++ concat (map (fun m => split (content m)) ms).
Proof.
  induction ms as [|m ms IH]; intros cs n cs' n'; cbn [foldM].
  - intros H. injection H as <- _. cbn. now rewrite app_nil_r.
  - intros H. apply bind_Ok in H as [[cs1 n1] [E1 H]].
    apply message_step_spec in E1 as [o1 [-> [_ [_ C1]]]].
    apply IH in H. rewrite H, words_of_app.
    rewrite (chunks_of_message_words _ _ _ _ _ C1).
    cbn [map concat]. now rewrite app_assoc.
Qed.

(** X11. [split_session_messages] loses no word and adds none: it returns
    when the contents of the messages can be encoded, and the words of the
    texts of the chunks, in order, are the words of the contents of the
    messages, in order; the headings and the roles add nothing to the
    texts. *)
Theorem X11_session_words (self : ChunkSplitter) (sid : Z)
  (ms : list Message) :
  returns (encodable_messages ms) (split_session_messages self sid ms)
    (fun cs => words_of cs = concat (map (fun m => split (content m)) ms)).
Proof.
  split; [apply split_session_messages_total|].
  intros cs H. unfold split_session_messages in H.
  apply bind_Ok in H as [[cs' n] [E H]]. injection H as <-.
  now apply messages_fold_words in E.
Qed.

Lemma X11_session_words_witness :
  exists cs,
    split_session_messages (mkChunkSplitter 2 50 50) 7
      [mkMessage (lit "hello") (lit "user") 1;
       mkMessage (lit "a b\n\nc d") (lit "assistant") 2] = Ok cs /\
    words_of cs = [lit "hello"; lit "a"; lit "b"; lit "c"; lit "d"].
Proof.
  destruct (X11_session_words (mkChunkSplitter 2 50 50) 7
              [mkMessage (lit "hello") (lit "user") 1;
               mkMessage (lit "a b\n\nc d") (lit "assistant") 2]) as [T W].
  destruct T as [cs E].
  - constructor; [apply encodable_check; reflexivity|].
    constructor; [apply encodable_check; reflexivity|constructor].
  - exists cs. split; [exact E|]. rewrite (W cs E). reflexivity.
Defined.

Lemma sub_chunks_of_from (sid : Z) (m : Message) (subs : list Chunk) :
  Forall (from_buffer None (kind_of m)) subs ->
  forall i n, Forall (from_message sid m) (sub_chunks_of sid m subs i n).
Proof.
  induction 1 as [|s subs Hs _ IH]; intros i n; cbn [sub_chunks_of];
    constructor; [|apply IH].
  destruct Hs as [buf [h [_ [_ [_ [_ [Hk _]]]]]]].
  split; [exact Hk|]. eexists. split; [reflexivity|]. now cbn.
Qed.

Lemma chunks_of_message_from (self : ChunkSplitter) (sid : Z) (m : Message)
  (n : nat) (out : list Chunk) :
  chunks_of_message self sid m n out -> Forall (from_message sid m) out.
Proof.
  unfold chunks_of_message.
  destruct (estimate_tokens (content m) >? max_chunk_tokens self)%Z.
  - intros [subs [E ->]]. apply sub_chunks_of_from.
    now apply split_plaintext_spec in E.
  - intros [h [_ ->]]. constructor; [|constructor].
    split; [reflexivity|]. eexists. split; [reflexivity|]. now cbn.
Qed.

(** X12. Every chunk of [split_session_messages] comes from one of the
    messages: its kind is "ai" for the role "assistant" and "note"
    otherwise, and its metadata holds the session, the step and the role of
    that message, for the chunks of a message over the budget too. *)
Theorem X12_session_provenance (self : ChunkSplitter) (sid : Z)
  (ms : list Message) (cs : list Chunk) :
  split_session_messages self sid ms = Ok cs ->
  Forall (fun c => exists m, In m ms /\ from_message sid m c) cs.
Proof.
  intros H. unfold split_session_messages in H.
  apply bind_Ok in H as [[cs' n] [E H]]. injection H as <-.
  apply messages_fold_chunks in E as [out [-> [Hin _]]]. cbn [app].
  apply Forall_forall. intros c Hc.
  destruct (Hin c Hc) as [m [n0 [om [Hm [Hcm Hco]]]]].
  exists m. split; [exact Hm|].
  apply chunks_of_message_from in Hcm.
  rewrite Forall_forall in Hcm. now apply Hcm.
Qed.

Lemma X12_session_provenance_witness :
  exists cs,
    split_session_messages (mkChunkSplitter 2 50 50) 7
      [mkMessage (lit "a b\n\nc d") (lit "assistant") 2] = Ok cs /\
    Forall (fun c =>
              exists m,
                In m [mkMessage (lit "a b\n\nc d") (lit "assistant") 2] /\
                from_message 7 m c) cs.
Proof.
  destruct (split_session_messages_total (mkChunkSplitter 2 50 50) 7
              [mkMessage (lit "a b\n\nc d") (lit "assistant") 2]) as [cs E].
  - constructor; [apply encodable_check; reflexivity|constructor].
  - exists cs. split; [exact E|].
    exact (X12_session_provenance _ _ _ _ E).
Defined.

End SessionFacts.

(** ** The rows of the [chunks] table *)

Module RowFacts.

Import Py chunk_splitter PyLib chunk_rows XSpec.

Lemma metadata_json_of_to_dict (c : Chunk) :
  metadata_json_of (to_dict c)
  = match metadata c with
    | Some (kv :: md) => VStr (json.dumps (kv :: md))
    | _ => VNone
    end.
Proof.
  unfold metadata_json_of, to_dict, asdict.
  destruct (metadata c) as [[|kv md]|]; reflexivity.
Qed.

Lemma to_dict_fields (c : Chunk) :
  lookup "ord" (to_dict c) = Some (VInt (Z.of_nat (ord c))) /\
  lookup "text" (to_dict c) = Some (VStr (text c)) /\
  get_or "heading" VNone (to_dict c) = of_option (heading c) /\
  get_or "token_est" VNone (to_dict c) = VInt (token_est c) /\
  get_or "kind" (VStr (lit "doc")) (to_dict c) = VStr (kind c) /\
  get_or "hash" VNone (to_dict c) = of_option (hash c).
Proof.
  unfold to_dict, asdict, get_or.
  destruct (metadata c) as [[|kv md]|]; repeat split.
Qed.

Section Rows.

Context {DB : Type} `{Connection DB}.

Lemma import_from_agree (doc_id : Z) (cs : list Chunk) :
  forall db count,
    import_chunks_from db doc_id (map to_dict cs) count
    = import_chunks_to_db_from db doc_id cs count.
Proof.
  induction cs as [|c cs IH]; intros db count; [reflexivity|].
  cbn [map import_chunks_from import_chunks_to_db_from].
  destruct (to_dict_fields c) as [Eo [Et [Eh [Ee [Ek Ex]]]]].
  rewrite Eo, Et, Eh, Ee, Ek, Ex, metadata_json_of_to_dict.
  unfold insert. destruct (execute db _) as [db'|]; [apply IH|reflexivity].
Qed.


Lemma import_to_db_from_rows (doc_id : Z) (cs : list Chunk) :
  forall db count db',
    executed db (map (row_of doc_id) cs) = Some db' ->
    import_chunks_to_db_from db doc_id cs count
    = finish db' (count + Z.of_nat (List.length cs)).
Proof.
  induction cs as [|c cs IH]; intros db count db'.
  - cbn. intros E; injection E as <-. now rewrite Z.add_0_r.
  - cbn [map executed import_chunks_to_db_from]. unfold insert.
    fold (row_of doc_id c).
    destruct (execute db (row_of doc_id c)) as [db1|]; [|discriminate].
    intros E. rewrite (IH _ _ _ E). f_equal. cbn [List.length]. lia.
Qed.


(** X13. The two ways into the [chunks] table agree: [import_chunks] of
    import_docs.py on the dictionaries [to_dict] makes of the chunks does to
    the database, and returns, what [import_chunks_to_db] of
    chunk_splitter.py does on the chunks themselves; and when the statements
    of all the rows execute, that is one commit after the last row and the
    number of the chunks as the result. *)
Theorem X13_import_paths_agree (db : DB) (doc_id : Z) (cs : list Chunk) :
  import_chunks db doc_id (map to_dict cs) = import_chunks_to_db db doc_id cs /\
  forall db',
    executed db (map (row_of doc_id) cs) = Some db' ->
    import_chunks_to_db db doc_id cs = finish db' (Z.of_nat (List.length cs)).
Proof.
  split; [apply import_from_agree|].
  intros db' E. unfold import_chunks_to_db.
  now rewrite (import_to_db_from_rows doc_id cs db 0 db' E).
Qed.


End Rows.

Lemma X13_import_paths_agree_witness :
  let c := mkChunk None (lit "text") 0 (lit "doc") 1 None
             (Some [("k"%string, MStr (lit "v"))]) in
  import_chunks (mkTable [] []) 5 [to_dict c]
  = Return (mkTable [] [row_of 5 c]) 1%Z /\
  import_chunks_to_db (mkTable [] []) 5 [c]
  = Return (mkTable [] [row_of 5 c]) 1%Z.
Proof.
  intros c.
  destruct (X13_import_paths_agree (mkTable [] []) 5 [c]) as [A R].
  rewrite (R (mkTable [row_of 5 c] []) eq_refl) in A.
  split; [exact A|]. exact (R (mkTable [row_of 5 c] []) eq_refl).
Defined.


(** *** The JSON text is printable ASCII *)

Local Open Scope N_scope.

Lemma hex_digit_printable (d : N) : d < 16 -> printable (SHA256.hex_digit d).
Proof.
  intros Hd. unfold SHA256.hex_digit, printable.
  destruct (d <? 10) eqn:E; [apply N.ltb_lt in E|apply N.ltb_ge in E]; lia.
Qed.

Lemma hex4_printable (n : N) : Forall printable (json.hex4 n).
Proof.
  unfold json.hex4. cbn [map].
  repeat constructor; apply hex_digit_printable; apply N.mod_lt; discriminate.
Qed.

Lemma u_escape_printable (n : N) : Forall printable (json.u_escape n).
Proof.
  unfold json.u_escape. constructor; [unfold printable, BACKSLASH; lia|].
  constructor; [unfold printable; lia|]. apply hex4_printable.
Qed.

Lemma escape_printable (c : codepoint) : Forall printable (json.escape c).
Proof.
  assert (P2 : forall a, printable a -> Forall printable [BACKSLASH; a]).
  { intros a Ha. constructor; [unfold printable, BACKSLASH; lia|].
    now constructor. }
  unfold json.escape.
  repeat match goal with
         | |- Forall printable (if ?b then _ else _) =>
             destruct b eqn:?;
             [try (apply P2; unfold printable, json.QUOTE, BACKSLASH; lia)|]
         end.
  - constructor; [|constructor].
    apply andb_prop in Heqb6 as [A B].
    apply N.leb_le in A. apply N.leb_le in B. now split.
  - apply u_escape_printable.
  - apply Forall_app. split; apply u_escape_printable.
Qed.

Lemma encode_printable (s : str) :
  Forall printable (json.encode_basestring_ascii s).
Proof.
  unfold json.encode_basestring_ascii.
  constructor; [unfold printable, json.QUOTE; lia|].
  apply Forall_app. split.
  - induction s as [|c s IH]; [constructor|].
    cbn [flat_map]. apply Forall_app. split; [apply escape_printable|exact IH].
  - constructor; [unfold printable, json.QUOTE; lia|constructor].
Qed.

Lemma uint_printable (u : Decimal.uint) :
  Forall printable
    (map N_of_ascii (list_ascii_of_string (NilEmpty.string_of_uint u))).
Proof.
  induction u; cbn; [constructor|..];
    (constructor; [unfold printable; cbn; lia|exact IHu]).
Qed.

Lemma str_of_int_printable (n : Z) : Forall printable (str_of_int n).
Proof.
  unfold str_of_int, NilZero.string_of_int, NilZero.string_of_uint.
  destruct (Z.to_int n) as [u|u].
  - destruct u; try apply uint_printable.
    cbn. constructor; [unfold printable; lia|constructor].
  - cbn [list_ascii_of_string map].
    constructor; [unfold printable; cbn; lia|].
    destruct u; try apply uint_printable.
    cbn. constructor; [unfold printable; lia|constructor].
Qed.

Lemma join_Forall (P : codepoint -> Prop) (sep : str) (l : list str) :
  Forall P sep -> Forall (Forall P) l -> Forall P (join sep l).
Proof.
  intros Hs. induction 1 as [|a l Ha Hl IH]; [constructor|].
  cbn [join]. destruct l as [|b l]; [exact Ha|].
  apply Forall_app. split; [exact Ha|]. apply Forall_app. now split.
Qed.

(** X15. Whatever the keys and the values hold, the text [json.dumps] makes
    of a metadata dictionary is printable ASCII: every character is between
    the space and the tilde. *)
Theorem X15_dumps_printable (d : Metadata) : Forall printable (json.dumps d).
Proof.
  unfold json.dumps.
  apply Forall_app. split; [repeat constructor; unfold printable; cbn; lia|].
  apply Forall_app. split; [|repeat constructor; unfold printable; cbn; lia].
  apply join_Forall; [repeat constructor; unfold printable; cbn; lia|].
  induction d as [|[k v] d IH]; [constructor|]. cbn [map]. constructor; [|exact IH].
  unfold json.dumps_item. cbn [fst snd].
  apply Forall_app. split; [apply encode_printable|].
  apply Forall_app. split; [repeat constructor; unfold printable; cbn; lia|].
  destruct v; [apply str_of_int_printable|apply encode_printable].
Qed.

End RowFacts.

(** ** The text of a page *)

Module HtmlFacts.

Import Py PyLib chunk_splitter Spec XSpec import_docs PyFacts LoopFacts SplitFacts
  DocFacts Claims WordFacts LoopWords.

Lemma split_from_word (w cur : str) :
  forallb nonspace w = true -> split_from w cur = split_from [] (rev w ++ cur).
Proof.
  revert cur. induction w as [|c w IH]; intros cur Hw; [reflexivity|].
  cbn [forallb] in Hw. apply andb_true_iff in Hw as [Hc Hw].
  cbn [split_from]. unfold nonspace in Hc. apply negb_true_iff in Hc.
  rewrite Hc, IH by exact Hw. cbn [rev]. now rewrite <- app_assoc.
Qed.

Lemma split_word (w : str) : word w -> split w = [w].
Proof.
  intros [Hn Hw]. unfold split. rewrite split_from_word by exact Hw.
  rewrite app_nil_r. cbn [split_from].
  destruct (rev w) eqn:E.
  - apply (f_equal (@rev _)) in E. rewrite rev_involutive in E. now subst.
  - rewrite <- E. now rewrite rev_involutive.
Qed.

Lemma split_of_words (s : str) : Forall word (split s).
Proof. exact (proj1 (SplitWords.split_from_words s [] eq_refl)). Qed.

Lemma split_sep (a b : str) (w : codepoint) :
  isspace w = true -> split (a ++ w :: b) = split a ++ split b.
Proof. intros Hw. unfold split. now apply split_from_sep. Qed.

(** The words of a list joined by spaces are the words of the list. *)
Lemma split_join (ws : list str) :
  Forall word ws -> split (join (lit " ") ws) = ws.
Proof.
  induction 1 as [|w ws Hw Hws IH]; [reflexivity|].
  cbn [join]. destruct ws as [|v ws]; [now apply split_word|].
  change (lit " ") with [SP] in *. cbn [app].
  rewrite split_sep by reflexivity. rewrite IH. now rewrite split_word.
Qed.

Lemma split_cleaned (data : str) :
  split (join (lit " ") (split data) ++ lit " ") = split data.
Proof.
  change (lit " ") with [SP] at 2.
  rewrite split_sep by reflexivity. cbn. rewrite app_nil_r.
  apply split_join, split_of_words.
Qed.

Lemma split_ends_blank (a b : str) :
  ends_blank a -> split (a ++ b) = split a ++ split b.
Proof.
  intros [->|[a' [w [-> Hw]]]]; [reflexivity|].
  rewrite <- app_assoc. cbn [app]. rewrite split_sep by exact Hw.
  replace (a' ++ [w]) with (a' ++ w :: []) by reflexivity.
  rewrite split_sep by exact Hw. cbn. now rewrite app_nil_r.
Qed.

Lemma ends_blank_app (a b : str) :
  b <> [] -> ends_blank b -> ends_blank (a ++ b).
Proof.
  intros Hn [->|[b' [w [-> Hw]]]]; [now contradiction Hn|].
  right. exists (a ++ b'), w. split; [now rewrite app_assoc|exact Hw].
Qed.

Lemma join_empty (ws : list str) :
  Forall word ws -> join (lit " ") ws = [] -> ws = [].
Proof.
  intros H E. apply (f_equal split) in E. rewrite split_join in E by exact H.
  exact E.
Qed.

(** One handler call: the text so far stays closed by whitespace, and its
    words grow by the words of the data that are shown. *)
Lemma handle_words (self : HTMLToText) (e : event) :
  ends_blank (concat (text_parts self)) ->
  ends_blank (concat (text_parts (handle self e))) /\
  split (concat (text_parts (handle self e)))
  = split (concat (text_parts self))
      ++ concat (map split (firstn 1 (shown (current_tag self) [e]))) /\
  forall rest,
    shown (current_tag self) (e :: rest)
    = firstn 1 (shown (current_tag self) [e])
        ++ shown (current_tag (handle self e)) rest.
Proof.
  intros Hb. destruct e as [tag|tag|data]; cbn [handle shown firstn map concat].
  - cbn. rewrite app_nil_r. repeat split; assumption.
  - unfold handle_endtag. cbn [current_tag text_parts].
    destruct (str_in tag _).
    + rewrite concat_app. cbn [concat]. rewrite app_nil_r.
      repeat split.
      * apply ends_blank_app; [discriminate|].
        right. exists [LF], LF. now split.
      * rewrite split_ends_blank by exact Hb. reflexivity.
    + rewrite app_nil_r. repeat split; assumption.
  - unfold handle_data.
    destruct (not_skipped (current_tag self)) eqn:Es;
      [|cbn; rewrite app_nil_r; repeat split; assumption].
    cbn [firstn map concat].
    destruct (truthy _) eqn:Et.
    + cbn [text_parts current_tag].
      rewrite concat_app. cbn [concat]. rewrite !app_nil_r.
      repeat split.
      * apply ends_blank_app; [now destruct (join _ _)|].
        right. exists (join (lit " ") (split data)), SP. now split.
      * rewrite split_ends_blank by exact Hb. now rewrite split_cleaned.
    + assert (E : split data = []).
      { apply join_empty; [apply split_of_words|].
        now destruct (join (lit " ") (split data)). }
      rewrite E, !app_nil_r. repeat split; assumption.
Qed.

Lemma feed_words (events : list event) :
  forall self,
    ends_blank (concat (text_parts self)) ->
    split (concat (text_parts (feed self events)))
    = split (concat (text_parts self))
        ++ concat (map split (shown (current_tag self) events)).
Proof.
  induction events as [|e events IH]; intros self Hb.
  - cbn. now rewrite app_nil_r.
  - cbn [feed fold_left]. fold (feed (handle self e) events).
    destruct (handle_words self e Hb) as [Hb' [Ew Es]].
    rewrite (IH _ Hb'), Ew, (Es events), map_app, concat_app.
    now rewrite app_assoc.
Qed.

Lemma html_to_text_split (events : list event) :
  split (html_to_text events) = concat (map split (shown None events)).
Proof.
  unfold html_to_text, get_text. rewrite split_strip.
  rewrite feed_words by now left. reflexivity.
Qed.

(** X16. The words of the text [HTMLToText] makes are the words of the data
    it is given, in their order, less the data that directly follow the
    start tag of a script, style or head element: the conversion changes
    whitespace only.  Data after any end tag are kept, inside such an
    element too. *)
Theorem X16_html_to_text_words (events : list event) :
  split (html_to_text events) = concat (map split (shown None events)) /\
  forall before tag data,
    split (html_to_text (before ++ [EndTag tag; Data data]))
    = split (html_to_text (before ++ [EndTag tag])) ++ split data.
Proof.
  split; [apply html_to_text_split|].
  intros before tag data. rewrite !html_to_text_split.
  assert (S : forall evs cur tail,
             shown cur (evs ++ EndTag tag :: tail)
             = shown cur (evs ++ [EndTag tag]) ++ shown None tail).
  { induction evs as [|e evs IH]; intros cur tail; [reflexivity|].
    destruct e as [t|t|d]; cbn [app shown]; try apply IH.
    destruct (not_skipped cur); [|apply IH].
    now rewrite IH. }
  rewrite (S before None [Data data]). cbn [shown not_skipped].
  rewrite map_app, concat_app. cbn [map concat]. now rewrite app_nil_r.
Qed.

(** X17. The way of a page into chunks, [html_to_text] and then
    [split_plaintext] with the default budget as [import_from_url] calls
    them, returns when the text can be encoded, and the words of the chunks
    are the words of the data shown, in their order. *)
Theorem X17_html_chunks_words (events : list event) :
  returns (encodable (html_to_text events)) (html_chunks events)
    (fun cs => words_of cs = concat (map split (shown None events))).
Proof.
  unfold html_chunks. split; [apply split_plaintext_total|].
  intros cs E. apply split_plaintext_words in E.
  now rewrite E, html_to_text_split.
Qed.

Lemma X17_html_chunks_words_witness :
  exists cs,
    html_chunks
      [StartTag (lit "script"); Data (lit "var x;"); EndTag (lit "script");
       StartTag (lit "p"); Data (lit " Hello,\n  world "); EndTag (lit "p");
       Data (lit "bye")] = Ok cs /\
    words_of cs = [lit "Hello,"; lit "world"; lit "bye"].
Proof.
  destruct (X17_html_chunks_words
              [StartTag (lit "script"); Data (lit "var x;");
               EndTag (lit "script");
               StartTag (lit "p"); Data (lit " Hello,\n  world ");
               EndTag (lit "p"); Data (lit "bye")]) as [T W].
  destruct T as [cs E]; [apply encodable_check; reflexivity|].
  exists cs. split; [exact E|]. rewrite (W cs E). reflexivity.
Defined.

End HtmlFacts.

(** ** The interactive session *)

Module LoggerFacts.

Import Py PyLib chunk_splitter Spec cli_logger XSpec PyFacts Claims.

Local Open Scope Z_scope.

Lemma max_step_last (rows : list (Z * Message)) (sid : Z) (m : Message) :
  max_step (rows ++ [(sid, m)]) sid
  = Some (match max_step rows sid with
          | Some x => Z.max x (step m)
          | None => step m
          end).
Proof.
  unfold max_step. rewrite fold_left_app. cbn [fold_left fst snd].
  now rewrite Z.eqb_refl.
Qed.

Lemma next_step_logged (rows : list (Z * Message)) (sid : Z) (c r : str) :
  next_step (rows ++ [(sid, mkMessage c r (next_step rows sid))]) sid
  = next_step rows sid + 1.
Proof.
  unfold next_step at 1. rewrite max_step_last. cbn [step].
  unfold next_step. destruct (max_step rows sid) as [x|]; lia.
Qed.

Lemma str_eqb_eq (a b : str) : str_eqb a b = true <-> a = b.
Proof. unfold str_eqb. destruct (list_eq_dec N.eq_dec a b); split; congruence. Qed.

Lemma note_is_not_quit (u : str) :
  startswith u (lit "/note") = true -> str_eqb u (lit "/quit") = false.
Proof.
  intros H. destruct (str_eqb u (lit "/quit")) eqn:E; [|reflexivity].
  apply str_eqb_eq in E. subst u. discriminate H.
Qed.

Lemma session_loop_messages (sid : Z) (inputs : list input) :
  forall k db,
    messages (fst (session_loop sid inputs k db))
    = messages db
        ++ logged sid (next_step (messages db) sid) k (logged_texts inputs).
Proof.
  unfold logged_texts.
  induction inputs as [|i inputs IH]; intros k db.
  - cbn. now rewrite app_nil_r.
  - destruct i as [line| |]; [|cbn; now rewrite app_nil_r..].
    cbn [session_loop read_lines].
    destruct (startswith (strip line) (lit "/end")) eqn:Ee;
      [cbn; now rewrite app_nil_r|].
    cbn [orb].
    destruct (startswith (strip line) (lit "/note")) eqn:En.
    { rewrite (note_is_not_quit _ En). cbn [filter]. rewrite En.
      rewrite andb_false_r. rewrite IH. reflexivity. }
    destruct (str_eqb (strip line) (lit "/quit")) eqn:Eq;
      [cbn; now rewrite app_nil_r|].
    cbn [filter]. rewrite En. cbn [negb]. rewrite andb_true_r.
    destruct (truthy (strip line)) eqn:Et; [|apply IH].
    rewrite IH. cbn [log_message messages logged].
    rewrite next_step_logged, <- app_assoc. reflexivity.
Qed.

Lemma logged_texts_are_messages (inputs : list input) :
  Forall message_text (logged_texts inputs).
Proof.
  unfold logged_texts.
  induction inputs as [|i inputs IH]; [constructor|].
  destruct i as [line| |]; [|constructor..].
  cbn [read_lines].
  destruct (startswith (strip line) (lit "/end")) eqn:Ee; [constructor|].
  cbn [orb].
  destruct (str_eqb (strip line) (lit "/quit")) eqn:Eq; [constructor|].
  cbn [filter].
  destruct (truthy (strip line)) eqn:Et; [|exact IH].
  destruct (startswith (strip line) (lit "/note")) eqn:En; [exact IH|].
  cbn [andb negb]. constructor; [|exact IH].
  repeat split; try assumption.
  - now apply truthy_strip.
  - apply strip_idem.
  - intros E'. apply str_eqb_eq in E'. congruence.
Qed.

Lemma session_loop_left (sid : Z) (inputs : list input) :
  forall k db,
    snd (session_loop sid inputs k db) = true
    <-> (List.length (read_lines inputs) < List.length inputs)%nat.
Proof.
  induction inputs as [|i inputs IH]; intros k db.
  - cbn. split; [discriminate|lia].
  - destruct i as [line| |]; [|cbn; split; [lia|reflexivity]..].
    cbn [session_loop read_lines].
    destruct (startswith (strip line) (lit "/end")) eqn:Ee;
      [cbn; split; [lia|reflexivity]|].
    cbn [orb].
    destruct (startswith (strip line) (lit "/note")) eqn:En.
    { rewrite (note_is_not_quit _ En). cbn [List.length].
      rewrite IH. lia. }
    destruct (str_eqb (strip line) (lit "/quit")) eqn:Eq;
      [cbn; split; [lia|reflexivity]|].
    cbn [List.length].
    destruct (truthy (strip line)); rewrite IH; lia.
Qed.

(** X18. What [interactive_session] logs: the lines read before the loop
    is left, trimmed, less the empty ones and the [/note] commands, are
    appended to the messages in their order, with the roles "user" and
    "assistant" in turn from "user" on and with the steps that follow the
    steps the session has; each of these texts is trimmed, not empty and no
    command; and the loop is left exactly when an exception, a line that
    starts with [/end] or the line [/quit] is among the inputs. *)
Theorem X18_session_log (sid : Z) (inputs : list input) (db : Database) :
  messages (fst (interactive_session sid inputs db))
  = messages db
      ++ logged sid (next_step (messages db) sid) 0 (logged_texts inputs) /\
  Forall message_text (logged_texts inputs) /\
  (snd (interactive_session sid inputs db) = true
   <-> (List.length (read_lines inputs) < List.length inputs)%nat).
Proof.
  split; [apply session_loop_messages|].
  split; [apply logged_texts_are_messages|apply session_loop_left].
Qed.

(** Two messages, an empty line, a note, a line that only looks like
    [/quit], and a line that starts with [/end]. *)
Example logged_texts_of_lines :
  logged_texts
    [Line (lit " hi "); Line (lit "hello back"); Line [];
     Line (lit "/note  remember"); Line (lit "/quit now");
     Line (lit "/endless"); Line (lit "never read")]
  = [lit "hi"; lit "hello back"; lit "/quit now"].
Proof. reflexivity. Qed.

Local Close Scope Z_scope.

Lemma strip_last (s a : str) (c : codepoint) :
  strip s = a ++ [c] -> isspace c = false.
Proof.
  unfold strip, rstrip. intros E.
  apply (f_equal (@rev _)) in E. rewrite rev_involutive, rev_app_distr in E.
  cbn in E. now apply lstrip_head in E.
Qed.

Lemma skipn_last (n : nat) (s : str) :
  (n < List.length s)%nat ->
  exists a, skipn n s = a ++ [last s 0%N].
Proof.
  revert s. induction n as [|n IH]; intros s Hn.
  - cbn [skipn]. destruct s as [|x s] using rev_ind; [cbn in Hn; lia|].
    exists s. now rewrite last_last.
  - destruct s as [|x s]; [cbn in Hn; lia|]. cbn [skipn].
    cbn [List.length] in Hn. destruct (IH s) as [a E]; [lia|].
    exists a. rewrite E. destruct s; [cbn in Hn; lia|reflexivity].
Qed.

Lemma strip_tail_nonblank (s : str) (n : nat) :
  (n < List.length (strip s))%nat -> nonblank (skipn n (strip s)).
Proof.
  intros Hn. destruct (skipn_last n (strip s) Hn) as [a E].
  rewrite E. apply nonblank_app_r.
  assert (Hs : exists b, strip s = b ++ [last (strip s) 0%N]).
  { destruct (strip s) as [|x u] using rev_ind; [cbn in Hn; lia|].
    exists u. now rewrite last_last. }
  destruct Hs as [b Hb]. apply strip_last in Hb.
  now apply nonblank_cons.
Qed.

(** X19. A line that starts with [/end], once trimmed, ends the session
    and the loop, whatever follows it; the notes it passes to [end_session]
    are none, or a trimmed text that is not empty: they never overwrite the
    notes of the session with an empty text. *)
Theorem X19_end_command (sid : Z) (line : str) (rest : list input) (k : Z)
  (db : Database) :
  startswith (strip line) (lit "/end") = true ->
  exists n,
    end_notes n /\
    session_loop sid (Line line :: rest) k db = (end_session db n, true).
Proof.
  intros He. cbn [session_loop]. rewrite He.
  destruct (5 <? List.length (strip line))%nat eqn:E5.
  - exists (Some (strip (skipn 5 (strip line)))). split; [|reflexivity].
    apply Nat.ltb_lt in E5. split; [|apply strip_idem].
    now apply strip_tail_nonblank.
  - now exists None.
Qed.

Lemma X19_end_command_witness :
  exists n,
    end_notes n /\
    session_loop 7 [Line (lit " /end  "); Line (lit "more")] 0
      (mkDatabase [] (mkSession (Some (lit "kept")) false))
    = (end_session (mkDatabase [] (mkSession (Some (lit "kept")) false)) n,
       true).
Proof. apply X19_end_command. reflexivity. Defined.

End LoggerFacts.

(** ** The statements of the searches *)

Module QueryFacts.

Import Py PyLib chunk_splitter chunk_rows queries XSpec.

(** X20. [fts_search] binds as many parameters as its statement has
    placeholders, whatever filters are given; and the text of the statement
    depends on which filters are true only, never on the query or on the
    values of the filters. *)
Theorem X20_fts_search_bindings (query module topic_id doc_type limit : value) :
  placeholders (fst (fts_search query module topic_id doc_type limit))
  = List.length (snd (fts_search query module topic_id doc_type limit)) /\
  forall query' module' topic_id' doc_type' limit',
    truth module' = truth module ->
    truth topic_id' = truth topic_id ->
    truth doc_type' = truth doc_type ->
    fst (fts_search query' module' topic_id' doc_type' limit')
    = fst (fts_search query module topic_id doc_type limit).
Proof.
  split.
  - unfold fts_search.
    destruct (truth module), (truth topic_id), (truth doc_type);
      vm_compute; reflexivity.
  - intros q' m' t' d' l' Em Et Ed. unfold fts_search.
    rewrite Em, Et, Ed.
    destruct (truth module), (truth topic_id), (truth doc_type); reflexivity.
Qed.

Lemma X20_fts_search_bindings_witness :
  fst (fts_search (VStr (lit "other")) VNone (VInt 9) (VStr (lit "note"))
         (VInt 3))
  = fst (fts_search (VStr (lit "wal")) (VStr []) (VInt 4)
           (VStr (lit "official")) (VInt 10)).
Proof.
  apply (proj2 (X20_fts_search_bindings (VStr (lit "wal")) (VStr []) (VInt 4)
                  (VStr (lit "official")) (VInt 10))); reflexivity.
Defined.

Lemma str_in_In (x : str) (l : list str) : str_in x l = true <-> In x l.
Proof.
  unfold str_in. rewrite existsb_exists. split.
  - intros [y [Hy E]]. unfold str_eqb in E.
    destruct (list_eq_dec N.eq_dec x y); [now subst|discriminate].
  - intros H. exists x. split; [exact H|]. unfold str_eqb.
    now destruct (list_eq_dec N.eq_dec x x).
Qed.

(** X21. [search_sessions_by_telemetry] raises its [ValueError] exactly for
    the operators outside the six allowed; for the six, the statement has
    three placeholders for its three parameters, and its text depends on the
    operator only: the key and the value are bound, not written into it. *)
Theorem X21_telemetry_search_operator (key operator : str) (v : value) :
  match search_sessions_by_telemetry key operator v with
  | inl message =>
      ~ In operator allowed_operators /\
      message = lit "Invalid operator: " ++ operator
  | inr (sql, params) =>
      In operator allowed_operators /\
      placeholders sql = List.length params /\
      forall key' v',
        exists params',
          search_sessions_by_telemetry key' operator v' = inr (sql, params')
  end.
Proof.
  unfold search_sessions_by_telemetry.
  destruct (str_in operator allowed_operators) eqn:E; cbn [negb].
  - apply str_in_In in E. split; [exact E|]. split.
    + cbn in E.
      destruct E as [<-|[<-|[<-|[<-|[<-|[<-|[]]]]]]]; vm_compute; reflexivity.
    + intros key' v'. eexists. reflexivity.
  - split; [|reflexivity]. intros H. apply str_in_In in H. congruence.
Qed.

(** X22. [search_docs_by_metadata], [search_chunks_by_metadata] and
    [list_topics] bind as many parameters as their statements have
    placeholders, with the filter and without; the key and the value of a
    metadata search are bound, not written into the statement. *)
Theorem X22_metadata_search_bindings (key : str) (v filter : value) :
  (placeholders (fst (search_docs_by_metadata key v filter))
   = List.length (snd (search_docs_by_metadata key v filter)) /\
   placeholders (fst (search_chunks_by_metadata key v filter))
   = List.length (snd (search_chunks_by_metadata key v filter)) /\
   placeholders (fst (list_topics filter))
   = List.length (snd (list_topics filter))) /\
  forall key' v',
    fst (search_docs_by_metadata key' v' filter)
    = fst (search_docs_by_metadata key v filter) /\
    fst (search_chunks_by_metadata key' v' filter)
    = fst (search_chunks_by_metadata key v filter).
Proof.
  unfold search_docs_by_metadata, search_chunks_by_metadata, list_topics.
  destruct (truth filter); repeat split.
Qed.

End QueryFacts.
